(** * A reverse HTTP tunnel: the TCP frontend server and the tunnel client

    Shallow embedding of [pointcloud/tcp_tunnel_server.py] (class
    [TCPTunnelServer]) and [pointcloud/tcp_tunnel_client.py] (class
    [TCPTunnelClient]).

    Layout: Python values first (strings as lists of code points, bytes,
    the UTF-8 codec with its error handlers, insertion-ordered
    dictionaries, JSON values), then the two classes, then the lemmas. *)

From Stdlib Require Import NArith ZArith QArith Bool Lia String Ascii List.
From Stdlib Require Import Strings.Byte.
Import ListNotations.
Close Scope Q_scope.

Set Implicit Arguments.

(* ================================================================== *)
(** * Python values *)
(* ================================================================== *)

Module Py.

Local Open Scope N_scope.

(** A [str] is a sequence of code points, a [bytes] a sequence of octets. *)
Definition codepoint := N.
Definition str := list codepoint.
Definition bytes := list byte.

Definition ord (b : byte) : N := Byte.to_N b.

(** [chr8 n] is the octet of value [n]; [n] is always below 256 where
    the codec calls it. *)
Definition chr8 (n : N) : byte :=
  match Byte.of_N n with Some b => b | None => x00 end.

(** ** Sequence operations shared by [str] and [bytes] *)

Section Seq.
Variable A : Type.
Variable eqb : A -> A -> bool.

Fixpoint seq_eqb (s t : list A) : bool :=
  match s, t with
  | [], [] => true
  | x :: s', y :: t' => eqb x y && seq_eqb s' t'
  | _, _ => false
  end.

(** [s.startswith(p)] *)
Fixpoint startswith (p s : list A) : bool :=
  match p, s with
  | [], _ => true
  | x :: p', y :: s' => eqb x y && startswith p' s'
  | _ :: _, [] => false
  end.

(** [s.find(sub)]: the lowest index where [sub] occurs, [None] for -1. *)
Fixpoint find (sub s : list A) : option N :=
  if startswith sub s then Some 0
  else match s with
       | [] => None
       | _ :: s' => option_map N.succ (find sub s')
       end.

(** [sub in s] *)
Definition contains (sub s : list A) : bool :=
  match find sub s with Some _ => true | None => false end.

(** [s[:n]] and [s[n:]] for [n >= 0]. *)
Fixpoint take (n : N) (s : list A) : list A :=
  match s with
  | [] => []
  | x :: s' => if n =? 0 then [] else x :: take (N.pred n) s'
  end.

Fixpoint drop (n : N) (s : list A) : list A :=
  match s with
  | [] => []
  | x :: s' => if n =? 0 then s else drop (N.pred n) s'
  end.

(** [s[lo:lo+len]] *)
Definition slice (lo len : N) (s : list A) : list A :=
  take len (drop lo s).

(** [s.split(sep)] for a non-empty [sep]: the pieces between the
    non-overlapping occurrences of [sep], scanning from the left.
    [skip] counts the elements of an occurrence still to be passed
    over, [cur] is the piece being collected, in reverse. *)
Fixpoint split_go (sep : list A) (skip : nat) (cur : list A) (s : list A)
  : list (list A) :=
  match s with
  | [] => [rev cur]
  | x :: s' =>
      match skip with
      | S k => split_go sep k cur s'
      | O =>
          if startswith sep s
          then rev cur :: split_go sep (Nat.pred (List.length sep)) [] s'
          else split_go sep O (x :: cur) s'
      end
  end.

Definition split (sep s : list A) : list (list A) := split_go sep O [] s.

(** [s.split(sep, 1)]: cut at the first occurrence only. *)
Definition split1 (sep s : list A) : list (list A) :=
  match find sep s with
  | None => [s]
  | Some i => [take i s; drop (i + N.of_nat (List.length sep)) s]
  end.

(** [sep.join(parts)] *)
Fixpoint join (sep : list A) (parts : list (list A)) : list A :=
  match parts with
  | [] => []
  | [p] => p
  | p :: ps => p ++ sep ++ join sep ps
  end.

Fixpoint lstrip_by (f : A -> bool) (s : list A) : list A :=
  match s with
  | [] => []
  | x :: s' => if f x then lstrip_by f s' else s
  end.

Definition rstrip_by (f : A -> bool) (s : list A) : list A :=
  rev (lstrip_by f (rev s)).

Definition strip_by (f : A -> bool) (s : list A) : list A :=
  rstrip_by f (lstrip_by f s).
End Seq.

Definition byte_eqb (a b : byte) : bool := ord a =? ord b.

(** An ASCII literal as a [str] and as a [bytes]. *)
Definition u (s : string) : str := map ord (list_byte_of_string s).
Definition b (s : string) : bytes := list_byte_of_string s.

Definition crlf : str := [13; 10].
Definition crlf_b : bytes := [x0d; x0a].

(** [str.isspace] on one character (the characters [str.strip()] removes). *)
Definition isspace (c : codepoint) : bool :=
  ((9 <=? c) && (c <=? 13)) || ((28 <=? c) && (c <=? 32))
  || (c =? 0x85) || (c =? 0xA0) || (c =? 0x1680)
  || ((0x2000 <=? c) && (c <=? 0x200A))
  || (c =? 0x2028) || (c =? 0x2029) || (c =? 0x202F)
  || (c =? 0x205F) || (c =? 0x3000).

Definition strip (s : str) : str := strip_by isspace s.

(** [s.rstrip('/')] *)
Definition rstrip_slash (s : str) : str := rstrip_by (N.eqb 47) s.

(** [str.lower] on the letters A-Z.  The source only compares lowered
    header text with ASCII words that contain neither [k] nor a dotted
    [i] sequence, and no character outside ASCII lowers to one of their
    letters, so those comparisons come out as under the full mapping. *)
Definition lower1 (c : codepoint) : codepoint :=
  if (65 <=? c) && (c <=? 90) then c + 32 else c.
Definition lower (s : str) : str := map lower1 s.

Definition is_ascii (s : str) : bool := forallb (fun c => c <? 128) s.

(** [str(n)] for a non-negative integer. *)
Fixpoint digits_go (fuel : nat) (n : N) (acc : str) : str :=
  match fuel with
  | O => acc
  | S k =>
      let acc' := (48 + n mod 10) :: acc in
      if n <? 10 then acc' else digits_go k (n / 10) acc'
  end.
Definition str_of_N (n : N) : str := digits_go (S (N.to_nat (N.log2 n))) n [].

(** ** The UTF-8 codec *)

(** Error handlers named in the source. *)
Inductive errors := Strict | Ignore | SurrogateEscape.

(** One decoding step yields a character or a run of undecodable
    octets (the interval the decoder reports to its error handler). *)
Inductive item := Char (c : codepoint) | Bad (bs : bytes).

Definition is_cont (x : byte) : bool := (0x80 <=? ord x) && (ord x <=? 0xBF).

(** The decoder, lead octet by lead octet. *)
Fixpoint utf8_items (s : bytes) : list item :=
  match s with
  | [] => []
  | b1 :: r1 =>
      let c1 := ord b1 in
      if c1 <? 0x80 then Char c1 :: utf8_items r1
      else if c1 <? 0xC2 then Bad [b1] :: utf8_items r1
      else if c1 <? 0xE0 then
        match r1 with
        | [] => [Bad [b1]]
        | b2 :: r2 =>
            if is_cont b2
            then Char (c1 * 64 + ord b2 - 0x3080) :: utf8_items r2
            else Bad [b1] :: utf8_items r1
        end
      else if c1 <? 0xF0 then
        match r1 with
        | [] => [Bad [b1]]
        | b2 :: r2 =>
            let c2 := ord b2 in
            if negb (is_cont b2)
               || (if c2 <? 0xA0 then c1 =? 0xE0 else c1 =? 0xED)
            then Bad [b1] :: utf8_items r1
            else
              match r2 with
              | [] => [Bad [b1; b2]]
              | b3 :: r3 =>
                  if is_cont b3
                  then Char (c1 * 4096 + c2 * 64 + ord b3 - 0xE2080)
                         :: utf8_items r3
                  else Bad [b1; b2] :: utf8_items r2
              end
        end
      else if c1 <? 0xF5 then
        match r1 with
        | [] => [Bad [b1]]
        | b2 :: r2 =>
            let c2 := ord b2 in
            if negb (is_cont b2)
               || (if c2 <? 0x90 then c1 =? 0xF0 else c1 =? 0xF4)
            then Bad [b1] :: utf8_items r1
            else
              match r2 with
              | [] => [Bad [b1; b2]]
              | b3 :: r3 =>
                  if negb (is_cont b3) then Bad [b1; b2] :: utf8_items r2
                  else
                    match r3 with
                    | [] => [Bad [b1; b2; b3]]
                    | b4 :: r4 =>
                        if is_cont b4
                        then Char (c1 * 262144 + c2 * 4096 + ord b3 * 64
                                   + ord b4 - 0x3C82080)
                               :: utf8_items r4
                        else Bad [b1; b2; b3] :: utf8_items r3
                    end
              end
        end
      else Bad [b1] :: utf8_items r1
  end.

(** The octets of one character; [None] where the encoder calls its
    error handler (a surrogate) or the value is no code point. *)
Definition encode1 (c : codepoint) : option bytes :=
  if c <? 0x80 then Some [chr8 c]
  else if c <? 0x800 then Some [chr8 (0xC0 + c / 64); chr8 (0x80 + c mod 64)]
  else if (0xD800 <=? c) && (c <=? 0xDFFF) then None
  else if c <? 0x10000 then
    Some [chr8 (0xE0 + c / 4096); chr8 (0x80 + (c / 64) mod 64);
          chr8 (0x80 + c mod 64)]
  else if c <? 0x110000 then
    Some [chr8 (0xF0 + c / 262144); chr8 (0x80 + (c / 4096) mod 64);
          chr8 (0x80 + (c / 64) mod 64); chr8 (0x80 + c mod 64)]
  else None.

(** The octets an item stands for, and what holds of every item the
    decoder yields: a character is one the encoder accepts, a run of
    undecodable octets is not empty and has no ASCII octet. *)
Definition octets (i : item) : bytes :=
  match i with
  | Char c => match encode1 c with Some e => e | None => [] end
  | Bad bs => bs
  end.

Definition well_read (i : item) : Prop :=
  match i with
  | Char c => encode1 c <> None
  | Bad bs => bs <> [] /\ Forall (fun x => 0x80 <= ord x) bs
  end.

(** The decoder has accounted for every octet of [s]. *)
Definition sound (s : bytes) : Prop :=
  Forall well_read (utf8_items s)
  /\ concat (map octets (utf8_items s)) = s.

(** [data.decode('utf-8', errors=e)]; [None] is [UnicodeDecodeError]. *)
Fixpoint decode_items (e : errors) (l : list item) : option str :=
  match l with
  | [] => Some []
  | Char c :: l' => option_map (cons c) (decode_items e l')
  | Bad bs :: l' =>
      match e with
      | Strict => None
      | Ignore => decode_items e l'
      | SurrogateEscape =>
          option_map (app (map (fun x => 0xDC00 + ord x) bs))
                     (decode_items e l')
      end
  end.

Definition decode (e : errors) (s : bytes) : option str :=
  decode_items e (utf8_items s).

(** [s.encode('utf-8', errors=e)]; [None] is [UnicodeEncodeError].
    Under [surrogateescape] the surrogates U+DC80..U+DCFF become the
    octets they stand for; [ignore] drops what cannot be encoded. *)
Fixpoint encode (e : errors) (s : str) : option bytes :=
  match s with
  | [] => Some []
  | c :: s' =>
      match encode1 c with
      | Some bs => option_map (app bs) (encode e s')
      | None =>
          match e with
          | Strict => None
          | Ignore => encode e s'
          | SurrogateEscape =>
              if (0xDC80 <=? c) && (c <=? 0xDCFF)
              then option_map (cons (chr8 (c - 0xDC00))) (encode e s')
              else None
          end
      end
  end.

(** A literal that may hold characters outside ASCII: the source file
    is UTF-8, so the literal's octets decode to the characters. *)
Definition ustr (s : string) : str :=
  match decode Strict (list_byte_of_string s) with
  | Some t => t
  | None => []
  end.

End Py.

(* ================================================================== *)
(** * JSON values and dictionaries *)
(* ================================================================== *)

Module Json.
Import Py.

(** What [json.loads] returns and [json.dumps] takes.  Numbers are
    rationals: every finite [int] and [float] is one, and [==] between
    them is equality of value.  ([NaN] and the infinities, which
    [json.loads] also reads, are left out.) *)
#[warnings="-register-all"]
Inductive value :=
| JNull
| JBool (b : bool)
| JNum (q : Q)
| JStr (s : str)
| JArr (l : list value)
| JObj (items : list (str * value)).

Definition str_eqb : str -> str -> bool := seq_eqb N.eqb.

(** Lists and dictionaries are unhashable: using one as a dictionary
    key raises [TypeError]. *)
Definition hashable (v : value) : bool :=
  match v with JArr _ | JObj _ => false | _ => true end.

(** [bool] is a subtype of [int]: [True == 1] and [False == 0]. *)
Definition as_number (v : value) : option Q :=
  match v with
  | JBool true => Some 1%Q
  | JBool false => Some 0%Q
  | JNum q => Some q
  | _ => None
  end.

(** [k1 == k2] between hashable values. *)
Definition key_eqb (k1 k2 : value) : bool :=
  match as_number k1, as_number k2 with
  | Some a, Some b => Qeq_bool a b
  | Some _, None | None, Some _ => false
  | None, None =>
      match k1, k2 with
      | JNull, JNull => true
      | JStr s, JStr t => str_eqb s t
      | _, _ => false
      end
  end.

Fixpoint assoc (k : str) (items : list (str * value)) : option value :=
  match items with
  | [] => None
  | (k', v) :: rest => if str_eqb k k' then Some v else assoc k rest
  end.

(** [obj.get(k, default)]; [None] is the [AttributeError] raised when
    [obj] is not a dictionary. *)
Definition get_default (obj : value) (k : str) (default : value)
  : option value :=
  match obj with
  | JObj items =>
      Some (match assoc k items with Some v => v | None => default end)
  | _ => None
  end.

(** [obj.get(k)] *)
Definition get (obj : value) (k : str) : option value :=
  get_default obj k JNull.

(** [obj[k]] for a string [k]; [None] is the [KeyError] or [TypeError]. *)
Definition getitem (obj : value) (k : str) : option value :=
  match obj with
  | JObj items => assoc k items
  | _ => None
  end.

(** [v == 'register'] and the like. *)
Definition eq_str (v : value) (s : str) : bool :=
  match v with JStr t => str_eqb t s | _ => false end.

(** Outcomes of [json.loads]. *)
Inductive loads_result :=
| Loaded (v : value)
| JSONDecodeError
| OtherError.

End Json.

(** A Python [dict]: keys in insertion order, each at most once. *)
Module Dict.
Import Json.

Definition t (V : Type) := list (value * V).

Section Ops.
Variable V : Type.

Fixpoint lookup (k : value) (d : t V) : option V :=
  match d with
  | [] => None
  | (k', v) :: d' => if key_eqb k k' then Some v else lookup k d'
  end.

(** [k in d] *)
Definition mem (k : value) (d : t V) : bool :=
  match lookup k d with Some _ => true | None => false end.

(** [d[k] = v]: a present key keeps its place, a new one goes last. *)
Fixpoint set (k : value) (v : V) (d : t V) : t V :=
  match d with
  | [] => [(k, v)]
  | (k', v') :: d' =>
      if key_eqb k k' then (k', v) :: d' else (k', v') :: set k v d'
  end.

(** [del d[k]] *)
Fixpoint del (k : value) (d : t V) : t V :=
  match d with
  | [] => []
  | (k', v') :: d' =>
      if key_eqb k k' then d' else (k', v') :: del k d'
  end.

(** What holds of every [dict]: its keys are hashable and differ. *)
Fixpoint wf (d : t V) : Prop :=
  match d with
  | [] => True
  | (k, _) :: d' => hashable k = true /\ lookup k d' = None /\ wf d'
  end.
End Ops.

End Dict.

(** The library functions the two programs call. *)
Class Libraries := {
  (** [hmac.new(key, msg, hashlib.sha256).hexdigest()] *)
  hmac_sha256_hexdigest : Py.bytes -> Py.bytes -> Py.str;
  (** [json.loads(text)] *)
  json_loads : Py.str -> Json.loads_result;
  (** [json.dumps(obj)] *)
  json_dumps : Json.value -> Py.str;
  (** [int(text)]; [None] is [ValueError] *)
  int_of_str : Py.str -> option Z
}.

(** The sending loop that both classes contain (server lines 243-259,
    client lines 255-271). *)
Module Chunked.
Import Py.

Definition len {A} (s : list A) : N := N.of_nat (List.length s).

Definition chunk_size : N := 262144.

(** The loop over [content], from [total_sent] on; [k] counts the
    chunks so far and [fail_at] names the chunk whose write raises, if
    any.  The result: the chunks written, the progress reports printed
    (each [total_sent], [total_size]), and whether the loop ran to its
    end; [None] when [fuel] iterations were not enough. *)
Fixpoint send_chunks (fuel : nat) (content : bytes)
    (total_sent k : N) (fail_at : option N)
  : option (list bytes * list (N * N) * bool) :=
  let total_size := len content in
  if (total_sent <? total_size)%N then
    match fuel with
    | O => None
    | S fuel' =>
        let chunk := slice total_sent chunk_size content in
        if match fail_at with Some j => (j =? k)%N | None => false end
        then Some ([], [], false)
        else
          let total_sent := (total_sent + len chunk)%N in
          let out :=
            if ((total_sent mod (50 * 1024 * 1024) =? 0)
                || (total_sent =? total_size))%N
            then [(total_sent, total_size)] else [] in
          match send_chunks fuel' content total_sent (N.succ k) fail_at with
          | None => None
          | Some (chunks, out', ok) => Some (chunk :: chunks, out ++ out', ok)
          end
    end
  else Some ([], [], true).

(** The whole loop: as many iterations as [content] has octets are
    always enough. *)
Definition send_all (content : bytes) (fail_at : option N)
  : option (list bytes * list (N * N) * bool) :=
  send_chunks (List.length content) content 0 0 fail_at.

End Chunked.

(* ================================================================== *)
(** * The frontend server: [TCPTunnelServer] *)
(* ================================================================== *)

Module Server.
Import Py Json.

(** A [StreamWriter] is known by the number of its connection. *)
Definition writer := nat.

(** [time.time()] *)
Definition time := Q.

(** What a connection has been sent, and whether [close()] was called. *)
Record conn := { sent : bytes; closed : bool }.

(** The [print] calls, one constructor per call site. *)
Inductive log_entry :=
| LogContentLength (n : Z)                  (* line 53 *)
| LogBodySize (n : N)                       (* line 61 *)
| LogWebError                               (* line 78 *)
| LogJsonSize (n : N)                       (* line 93 *)
| LogMessageSize (n : N)                    (* line 102 *)
| LogForwarded (id : value)                 (* line 120 *)
| LogSendError                              (* line 122 *)
| LogForwardError                           (* line 147 *)
| LogNewClient (w : writer)                 (* line 163 *)
| LogBadSignature                           (* line 208 *)
| LogJsonError                              (* line 215 *)
| LogRegistered (client_id : value)         (* line 222 *)
| LogResponseSize (n : N)                   (* line 240 *)
| LogProgress (total_sent total_size : N)   (* line 255 *)
| LogResponseSent (request_id : value)      (* line 261 *)
| LogResponseError                          (* line 263 *)
| LogDone (request_id : value)              (* line 271 *)
| LogConnectionClosed (w : writer)          (* line 274 *)
| LogClientError                            (* line 276 *)
| LogCleaned (client_id : value)            (* line 284 *)
| LogInactive (client_id : value).          (* line 318 *)

(** A value of [self.pending_requests]. *)
Record pending := { web_writer : writer; timestamp : time }.

(** The object: its fields, the connections it holds writers of, and
    its standard output. *)
Record t := {
  secret_key : bytes;
  clients : Dict.t (writer * time);
  pending_requests : Dict.t pending;
  conns : writer -> conn;
  log : list log_entry
}.

(** [TCPTunnelServer(host, port, secret_key, http_port)] *)
Definition init (key : bytes) : t :=
  {| secret_key := key;
     clients := [];
     pending_requests := [];
     conns := fun _ => {| sent := []; closed := false |};
     log := [] |}.

Definition with_clients (st : t) (c : Dict.t (writer * time)) : t :=
  {| secret_key := secret_key st; clients := c;
     pending_requests := pending_requests st;
     conns := conns st; log := log st |}.

Definition with_pending (st : t) (p : Dict.t pending) : t :=
  {| secret_key := secret_key st; clients := clients st;
     pending_requests := p;
     conns := conns st; log := log st |}.

Definition with_conn (st : t) (w : writer) (c : conn) : t :=
  {| secret_key := secret_key st; clients := clients st;
     pending_requests := pending_requests st;
     conns := fun x => if Nat.eqb x w then c else conns st x;
     log := log st |}.

(** [print(...)] *)
Definition say (st : t) (e : log_entry) : t :=
  {| secret_key := secret_key st; clients := clients st;
     pending_requests := pending_requests st;
     conns := conns st; log := log st ++ [e] |}.

(** [w.write(data); await w.drain()] that went through. *)
Definition write (st : t) (w : writer) (data : bytes) : t :=
  with_conn st w {| sent := sent (conns st w) ++ data;
                    closed := closed (conns st w) |}.

(** [w.close()] *)
Definition close (st : t) (w : writer) : t :=
  with_conn st w {| sent := sent (conns st w); closed := true |}.

(** [try: w.write(data); await w.drain() except: pass], where [ok]
    tells whether the connection took the data. *)
Definition try_write (st : t) (w : writer) (ok : bool) (data : bytes) : t :=
  if ok then write st w data else st.

Definition response_500_internal : bytes :=
  b "HTTP/1.1 500 Internal Server Error" ++ crlf_b ++ crlf_b
    ++ b "Internal error".
Definition response_500_sending : bytes :=
  b "HTTP/1.1 500 Internal Server Error" ++ crlf_b ++ crlf_b
    ++ b "Error sending to client".
Definition response_503 : bytes :=
  b "HTTP/1.1 503 Service Unavailable" ++ crlf_b ++ crlf_b
    ++ b "No client connected".

(** [n.to_bytes(4, byteorder='big')]; [None] is [OverflowError]. *)
Definition to_bytes4 (n : N) : option bytes :=
  if (n <? 2 ^ 32)%N
  then Some [chr8 (n / 16777216); chr8 ((n / 65536) mod 256);
             chr8 ((n / 256) mod 256); chr8 (n mod 256)]%N
  else None.

Definition len {A} (s : list A) : N := Chunked.len s.

(** [hmac.compare_digest(a, b)] on two [str]: equality, and
    [TypeError] ([None]) unless both are ASCII. *)
Definition compare_digest (a b' : str) : option bool :=
  if is_ascii a && is_ascii b' then Some (str_eqb a b') else None.

Section WithLibraries.
Context `{Libraries}.

(** Lines 28-34. *)
Definition create_signature (st : t) (data : bytes) : str :=
  hmac_sha256_hexdigest (secret_key st) data.

(** Lines 19-26. *)
Definition verify_signature (st : t) (data : bytes) (signature : str)
  : option bool :=
  let expected_signature := hmac_sha256_hexdigest (secret_key st) data in
  compare_digest signature expected_signature.

(** The frame of lines 92-100: [None] when a step raises. *)
Definition make_message (st : t) (request_data : value) : option (N * bytes) :=
  match encode Strict (json_dumps request_data) with
  | None => None
  | Some json_data =>
      let signature := create_signature st json_data in
      match encode Strict signature with
      | None => None
      | Some signature_bytes =>
          match to_bytes4 (len signature_bytes) with
          | None => None
          | Some prefix =>
              Some (len json_data, prefix ++ signature_bytes ++ json_data)
          end
      end
  end.

(** [forward_to_client], lines 88-158.  [tunnel_ok] and [web_ok] tell
    whether the write to the tunnel connection and a write to the
    public connection go through. *)
Definition forward_to_client (st : t) (request_data : value)
    (web_writer : writer) (now : time) (tunnel_ok web_ok : bool) : t :=
  match make_message st request_data with
  | None =>
      (* lines 146-158 *)
      let st := say st LogForwardError in
      let st := try_write st web_writer web_ok response_500_internal in
      close st web_writer
  | Some (json_size, message) =>
      let st := say st (LogJsonSize json_size) in
      let st := say st (LogMessageSize (len message)) in
      match clients st with
      | (_, (client_writer, _)) :: _ =>
          if tunnel_ok then
            let st := write st client_writer message in
            match getitem request_data (u "id") with
            | Some id =>
                if hashable id then
                  let st := with_pending st
                    (Dict.set id {| web_writer := web_writer; timestamp := now |}
                              (pending_requests st)) in
                  say st (LogForwarded id)
                else
                  let st := say st LogSendError in
                  let st := try_write st web_writer web_ok response_500_sending in
                  close st web_writer
            | None =>
                let st := say st LogSendError in
                let st := try_write st web_writer web_ok response_500_sending in
                close st web_writer
            end
          else
            (* lines 121-133 *)
            let st := say st LogSendError in
            let st := try_write st web_writer web_ok response_500_sending in
            close st web_writer
      | [] =>
          (* lines 134-144 *)
          let st := try_write st web_writer web_ok response_503 in
          close st web_writer
      end
  end.

(** [await reader.readuntil(sep)] on a reader of limit [limit] whose
    peer sends [stream] and then nothing more: the data up to and
    including the separator, and what is left.  [None] when the
    separator is missing or lies beyond the limit. *)
Definition readuntil (limit : N) (sep stream : bytes) : option (bytes * bytes) :=
  match find byte_eqb sep stream with
  | Some i =>
      if (i <=? limit)%N
      then Some (take (i + len sep) stream, drop (i + len sep) stream)
      else None
  | None => None
  end.

(** [await reader.readexactly(n)]; [None] is [IncompleteReadError]. *)
Definition readexactly (n : N) (stream : bytes) : option bytes :=
  if (n <=? len stream)%N then Some (take n stream) else None.

(** Lines 47-51: the first line that starts with [content-length:]
    decides; [None] when [int] raises. *)
Fixpoint scan_content_length (lines : list str) : option Z :=
  match lines with
  | [] => Some 0%Z
  | line :: rest =>
      if startswith N.eqb (u "content-length:") (lower line)
      then match split1 N.eqb (u ":") line with
           | [_; v] => int_of_str (strip v)
           | _ => None
           end
      else scan_content_length rest
  end.

(** Lines 42-72: read and wrap the request.  The result holds the
    lines printed on the way and the request, or [None] when an
    exception reaches line 77. *)
Definition read_request (stream : bytes) (id : str) (now : time)
    (peername : value) : list log_entry * option value :=
  match readuntil (2 ^ 20) (crlf_b ++ crlf_b) stream with
  | None => ([], None)
  | Some (headers_data, rest) =>
      match decode Ignore headers_data with
      | None => ([], None)
      | Some headers_str =>
          match scan_content_length (split N.eqb crlf headers_str) with
          | None => ([], None)
          | Some content_length =>
              let out := [LogContentLength content_length] in
              match (if (0 <? content_length)%Z
                     then readexactly (Z.to_N content_length) rest
                     else Some []) with
              | None => (out, None)
              | Some body_data =>
                  let out := out ++ [LogBodySize (len body_data)] in
                  let full_request_data := headers_data ++ body_data in
                  match decode SurrogateEscape full_request_data with
                  | None => (out, None)
                  | Some data =>
                      (out, Some (JObj [(u "id", JStr id);
                                        (u "timestamp", JNum now);
                                        (u "data", JStr data);
                                        (u "client_addr", peername)]))
                  end
              end
          end
      end
  end.

(** What the environment supplies to one run of [handle_web_request]:
    the octets the public client sends, [writer.get_extra_info('peername')],
    [str(uuid.uuid4())], the two readings of the clock, and whether the
    writes go through. *)
Record web_input := {
  stream : bytes;
  peername : value;
  uuid4 : str;
  time_request : time;
  time_forward : time;
  tunnel_ok : bool;
  web_ok : bool
}.

(** [handle_web_request], lines 36-86, on the connection [w]. *)
Definition handle_web_request (st : t) (w : writer) (i : web_input) : t :=
  let '(out, r) :=
    read_request (stream i) (uuid4 i) (time_request i) (peername i) in
  let st := fold_left say out st in
  match r with
  | Some request_data =>
      forward_to_client st request_data w (time_forward i)
                        (tunnel_ok i) (web_ok i)
  | None =>
      let st := say st LogWebError in
      let st := try_write st w (web_ok i) response_500_internal in
      close st w
  end.

(** The [finally] block of lines 279-285 for the tunnel connection [w]:
    walk a copy of the items, delete the records that hold [w], close. *)
Definition drop_client (w : writer) (st : t) (item : value * (writer * time))
  : t :=
  let '(client_id, (client_writer, _)) := item in
  if Nat.eqb client_writer w
  then say (with_clients st (Dict.del client_id (clients st)))
           (LogCleaned client_id)
  else st.

Definition finally_cleanup (st : t) (w : writer) : t :=
  close (fold_left (drop_client w) (clients st) st) w.

(** Lines 273-285: how a run of [handle_client] ends. *)
Definition connection_closed (st : t) (w : writer) : t :=
  finally_cleanup (say st (LogConnectionClosed w)) w.

Definition connection_failed (st : t) (w : writer) : t :=
  finally_cleanup (say st LogClientError) w.

(** Lines 225-229: refresh [last_seen] of the first record that holds [w]. *)
Fixpoint touch (w : writer) (now : time) (d : Dict.t (writer * time))
  : Dict.t (writer * time) :=
  match d with
  | [] => []
  | (client_id, (client_writer, last_seen)) :: d' =>
      if Nat.eqb client_writer w
      then (client_id, (w, now)) :: d'
      else (client_id, (client_writer, last_seen)) :: touch w now d'
  end.

Definition progress (p : N * N) : log_entry := LogProgress (fst p) (snd p).

(** Lines 237-270: send the response to the public connection. *)
Definition deliver (st : t) (request_id response_data : value)
    (web_writer : writer) (fail_at : option N) : t :=
  let st :=
    match get_default response_data (u "data") (JStr []) with
    | Some (JStr data) =>
        match encode SurrogateEscape data with
        | Some response_content =>
            let st := say st (LogResponseSize (len response_content)) in
            match Chunked.send_all response_content fail_at with
            | Some (chunks, out, ok) =>
                let st := write st web_writer (concat chunks) in
                let st := fold_left say (map progress out) st in
                if ok then say st (LogResponseSent request_id)
                else say st LogResponseError
            | None => say st LogResponseError
            end
        | None => say st LogResponseError
        end
    | _ => say st LogResponseError
    end in
  close st web_writer.

(** What arrives with one frame on a tunnel connection: the signature
    and payload octets that lines 170-204 have read, the clock, and the
    chunk at which writing to the public connection fails, if any. *)
Record frame := {
  signature_data : bytes;
  json_data : bytes;
  now : time;
  fail_at : option N
}.

(** One turn of the loop of [handle_client], lines 169-271, from
    line 177 on, for the tunnel connection [w].  The flag tells
    whether the loop goes on; it is [false] when an exception ended
    the handler, whose [finally] block has then run. *)
Definition handle_frame (st : t) (w : writer) (f : frame) : t * bool :=
  match decode Strict (signature_data f) with
  | None => (connection_failed st w, false)
  | Some signature =>
  match verify_signature st (json_data f) signature with
  | None => (connection_failed st w, false)
  | Some false => (say st LogBadSignature, true)
  | Some true =>
  match decode Strict (json_data f) with
  | None => (connection_failed st w, false)
  | Some text =>
  match json_loads text with
  | OtherError => (connection_failed st w, false)
  | JSONDecodeError => (say st LogJsonError, true)
  | Loaded response_data =>
  match get response_data (u "type") with
  | None => (connection_failed st w, false)
  | Some type =>
      if eq_str type (u "register") then
        (* lines 219-223 *)
        match get response_data (u "client_id") with
        | None => (connection_failed st w, false)
        | Some client_id =>
            if hashable client_id then
              let st := with_clients st
                          (Dict.set client_id (w, now f) (clients st)) in
              (say st (LogRegistered client_id), true)
            else (connection_failed st w, false)
        end
      else
        (* lines 225-271 *)
        let st := with_clients st (touch w (now f) (clients st)) in
        match get response_data (u "request_id") with
        | None => (connection_failed st w, false)
        | Some request_id =>
            if hashable request_id then
              match Dict.lookup request_id (pending_requests st) with
              | Some handler_info =>
                  let st := with_pending st
                              (Dict.del request_id (pending_requests st)) in
                  let st := deliver st request_id response_data
                                    (web_writer handler_info) (fail_at f) in
                  (say st (LogDone request_id), true)
              | None => (st, true)
              end
            else (connection_failed st w, false)
        end
  end end end end end.

(** The frames that get past lines 207-216: the signature verifies
    and the payload parses, to [response_data]. *)
Definition accepted (st : t) (f : frame) (response_data : value) : Prop :=
  exists signature text,
    decode Strict (signature_data f) = Some signature
    /\ verify_signature st (json_data f) signature = Some true
    /\ decode Strict (json_data f) = Some text
    /\ json_loads text = Loaded response_data.

(** Line 219 *)
Definition is_register (response_data : value) : bool :=
  match get response_data (u "type") with
  | Some type => eq_str type (u "register")
  | None => false
  end.

(** [cleanup_inactive_clients], lines 307-318. *)
Definition inactive (current_time : time) (item : value * (writer * time))
  : bool :=
  let '(_, (_, last_seen)) := item in
  negb (Qle_bool (current_time - last_seen) 300).

Definition forget_client (st : t) (client_id : value) : t :=
  say (with_clients st (Dict.del client_id (clients st)))
      (LogInactive client_id).

Definition cleanup_inactive_clients (st : t) (current_time : time) : t :=
  let inactive_clients :=
    map fst (filter (inactive current_time) (clients st)) in
  fold_left forget_client inactive_clients st.

(** What happens at the server, one handler step at a time. *)
Inductive event :=
| WebRequest (w : writer) (i : web_input)   (* a run of [handle_web_request] *)
| TunnelOpen (w : writer)                   (* [handle_client] starts *)
| TunnelFrame (w : writer) (f : frame)      (* one turn of its loop *)
| TunnelEOF (w : writer)                    (* [IncompleteReadError] *)
| TunnelError (w : writer)                  (* another exception while reading *)
| Sweep (current_time : time).              (* [cleanup_routine] fires *)

Definition step (st : t) (e : event) : t :=
  match e with
  | WebRequest w i => handle_web_request st w i
  | TunnelOpen w => say st (LogNewClient w)
  | TunnelFrame w f => fst (handle_frame st w f)
  | TunnelEOF w => connection_closed st w
  | TunnelError w => connection_failed st w
  | Sweep current_time => cleanup_inactive_clients st current_time
  end.

Definition run (st : t) (trace : list event) : t := fold_left step trace st.

(** The public request declares a chunked body: its header block has a
    [Transfer-Encoding] line that names [chunked]. *)
Definition declares_chunked (stream : bytes) : bool :=
  match readuntil (2 ^ 20) (crlf_b ++ crlf_b) stream with
  | Some (headers_data, _) =>
      match decode Ignore headers_data with
      | Some headers_str =>
          existsb
            (fun line =>
               match split1 N.eqb (u ":") line with
               | [key; v] =>
                   str_eqb (lower (strip key)) (u "transfer-encoding")
                   && contains N.eqb (u "chunked") (lower v)
               | _ => false
               end)
            (split N.eqb crlf headers_str)
      | None => false
      end
  | None => false
  end.

(** The responses [handle_web_request] can write on its own. *)
Definition own_responses : list bytes :=
  [[]; response_500_internal; response_500_sending; response_503].

(** The ways a run of [handle_client] on the connection [w] ends:
    end of input, an exception while reading, an exception while a
    frame is handled. *)
Definition ends (st : t) (e : event) (w : writer) : Prop :=
  e = TunnelEOF w \/ e = TunnelError w
  \/ exists f, e = TunnelFrame w f /\ snd (handle_frame st w f) = false.

(** The records that the [finally] block for [w] leaves in place. *)
Definition held_by_other (w : writer) (item : value * (writer * time)) : bool :=
  negb (Nat.eqb (fst (snd item)) w).

(** The event is a validly signed frame, no registration, whose
    [request_id] is the key [k]. *)
Definition answers (st : t) (e : event) (k : value) : Prop :=
  exists w f response_data request_id,
    e = TunnelFrame w f
    /\ accepted st f response_data
    /\ is_register response_data = false
    /\ get response_data (u "request_id") = Some request_id
    /\ key_eqb k request_id = true.

(** The event is a step of the handler that owns the connection [w]. *)
Definition on_connection (e : event) (w : writer) : Prop :=
  match e with
  | WebRequest x _ | TunnelFrame x _ | TunnelEOF x | TunnelError x => x = w
  | TunnelOpen _ | Sweep _ => False
  end.

(** The event is a step of the handler of [w], or a frame that answers
    a pending request whose record holds [w]. *)
Definition concerns (st : t) (e : event) (w : writer) : Prop :=
  on_connection e w
  \/ exists k handler_info,
       answers st e k
       /\ Dict.lookup k (pending_requests st) = Some handler_info
       /\ web_writer handler_info = w.

(** No event of the trace is a [P], each seen from the state it meets. *)
Fixpoint never (P : t -> event -> Prop) (st : t) (trace : list event) : Prop :=
  match trace with
  | [] => True
  | e :: rest => ~ P st e /\ never P (step st e) rest
  end.

(** Both dictionaries of the object are dictionaries. *)
Definition wf (st : t) : Prop :=
  Dict.wf (clients st) /\ Dict.wf (pending_requests st).

End WithLibraries.
End Server.

(* ================================================================== *)
(** * The tunnel client: [TCPTunnelClient] *)
(* ================================================================== *)

Module Client.
Import Py Json.

Definition len {A} (s : list A) : N := Chunked.len s.

(** The fields of the object that the methods below read. *)
Record t := {
  secret_key : bytes;
  local_api_url : str;
  client_id : str
}.

(** The call [session.request(method=, url=, headers=, data=)] ... *)
Record http_request := {
  method : str;
  url : str;
  headers : Dict.t str;
  data : option bytes
}.

(** ... and what comes back: [response.status], [response.reason],
    [response.headers.items()] and [await response.read()]. *)
Record http_response := {
  status : N;
  reason : str;
  response_headers : list (str * str);
  response_body : bytes
}.

(** The local service answers, or the call raises ([str(e)] kept). *)
Inductive local_result :=
| Responded (r : http_response)
| Failed (text : str).

(** What the client is seen to do: call the local service, write to
    the tunnel connection.  (Its [print] output is left out.) *)
Inductive action :=
| CallLocal (r : http_request)
| Send (octets : bytes).

(** Lines 82 and 92: the messages of the two [ValueError]s. *)
Definition no_header_end : str := ustr "无效的HTTP请求，未找到头部结束标记".
Definition bad_request_line : str := ustr "无效的HTTP请求行".

(** Lines 100-105 *)
Fixpoint parse_headers (lines : list str) (headers : Dict.t str) : Dict.t str :=
  match lines with
  | [] => headers
  | line :: rest =>
      if contains N.eqb (u ":") line
      then match split1 N.eqb (u ":") line with
           | [key; value] =>
               parse_headers rest (Dict.set (JStr (strip key)) (strip value) headers)
           | _ => parse_headers rest headers
           end
      else parse_headers rest headers
  end.

(** Lines 154-158 and 190-194 *)
Definition format_headers (items : list (str * str)) : list str :=
  map (fun kv => fst kv ++ u ": " ++ snd kv)
      (filter (fun kv => negb (str_eqb (lower (fst kv)) (u "transfer-encoding")))
              items).

(** Lines 164-169 and 200-205: the status line, the header lines and
    the blank line, then the body. *)
Definition response_head (r : http_response) : str :=
  u "HTTP/1.1 " ++ str_of_N (status r) ++ u " " ++ reason r ++ crlf
    ++ join crlf (format_headers (response_headers r)) ++ crlf
    ++ crlf.

Definition response_text (r : http_response) : str :=
  response_head r
    ++ match decode Ignore (response_body r) with Some s => s | None => [] end.

(** Lines 225-231 *)
Definition error_response (text : str) : str :=
  u "HTTP/1.1 500 Internal Server Error" ++ crlf
    ++ u "Content-Type: text/plain" ++ crlf
    ++ crlf
    ++ u "Error forwarding request to local API: " ++ text.

(** The [data] of a request frame is no HTTP request: it has no blank
    line, or its start line has fewer than three parts. *)
Definition malformed (raw_request : str) : bool :=
  match find N.eqb (crlf ++ crlf) raw_request with
  | None => true
  | Some i =>
      let request_line := hd [] (split N.eqb crlf (take i raw_request)) in
      (List.length (split N.eqb (u " ") request_line) <? 3)%nat
  end.

(** What one frame makes the client do: at most one call to the local
    service, then at most one write to the tunnel. *)
Definition one_at_a_time (work : list action) : Prop :=
  work = []
  \/ (exists r, work = [CallLocal r])
  \/ (exists m, work = [Send m])
  \/ (exists r m, work = [CallLocal r; Send m]).

(** What arrives with one frame on the tunnel connection: the
    signature and payload octets that lines 329-361 have read; the text
    [str(e)] of the exception, should a call into a library raise
    before the local service is called; the chunk at which writing to
    the tunnel fails, if any. *)
Record frame := {
  signature_data : bytes;
  json_data : bytes;
  error_text : str;
  fail_at : option N
}.

Section WithLibraries.
Context `{Libraries}.

(** The local service, as the client meets it. *)
Variable local_api : http_request -> local_result.

(** Lines 22-28 *)
Definition create_signature (self : t) (data : bytes) : str :=
  hmac_sha256_hexdigest (secret_key self) data.

(** Lines 30-37 *)
Definition verify_signature (self : t) (data : bytes) (signature : str)
  : option bool :=
  let expected_signature := hmac_sha256_hexdigest (secret_key self) data in
  Server.compare_digest signature expected_signature.

(** The body of the [try] of lines 73-219: the calls made to the local
    service, and the response text or [str(e)] of the exception. *)
Definition try_forward (self : t) (request_data : value) (lib_text : str)
  : list action * (str + str) :=
  match getitem request_data (u "data") with
  | Some (JStr raw_request) =>
      match find N.eqb (crlf ++ crlf) raw_request with
      | None => ([], inr no_header_end)
      | Some header_end_index =>
          let headers_part := take header_end_index raw_request in
          let body_part := drop (header_end_index + 4) raw_request in
          let lines := split N.eqb crlf headers_part in
          let request_line := hd [] lines in
          match split N.eqb (u " ") request_line with
          | method :: path :: http_version :: _ =>
              let headers := parse_headers (tl lines) [] in
              let api_url := rstrip_slash (local_api_url self) ++ path in
              let content_type :=
                match Dict.lookup (JStr (u "Content-Type")) headers with
                | Some v => v
                | None => []
                end in
              let body :=
                if contains N.eqb (u "multipart/form-data") content_type
                then
                  match encode SurrogateEscape raw_request with
                  | Some request_bytes =>
                      Some (Some (drop (header_end_index + 4) request_bytes))
                  | None => None
                  end
                else
                  match body_part with
                  | [] => Some None
                  | _ => option_map Some (encode Strict body_part)
                  end in
              match body with
              | None => ([], inr lib_text)
              | Some data =>
                  let request := {| method := method; url := api_url;
                                    headers := headers; data := data |} in
                  ([CallLocal request],
                   match local_api request with
                   | Responded response => inl (response_text response)
                   | Failed text => inr text
                   end)
              end
          | _ => ([], inr bad_request_line)
          end
      end
  | _ => ([], inr lib_text)
  end.

(** [forward_request_to_local_api], lines 71-235.  No response comes
    back when [request_data['id']] raises, at line 74 and again in the
    handler at line 233. *)
Definition forward_request_to_local_api (self : t) (request_data : value)
    (lib_text : str) : list action * option value :=
  match getitem request_data (u "id") with
  | None => ([], None)
  | Some id =>
      let '(calls, r) := try_forward self request_data lib_text in
      (calls,
       Some (JObj [(u "request_id", id);
                   (u "data", JStr match r with
                                   | inl text => text
                                   | inr text => error_response text
                                   end)]))
  end.

(** Lines 242-251 and 50-61: sign and frame a payload. *)
Definition make_message (self : t) (payload : value) : option bytes :=
  match encode Strict (json_dumps payload) with
  | None => None
  | Some json_data =>
      match encode Strict (create_signature self json_data) with
      | None => None
      | Some signature_bytes =>
          match Server.to_bytes4 (len signature_bytes) with
          | None => None
          | Some prefix => Some (prefix ++ signature_bytes ++ json_data)
          end
      end
  end.

(** [send_response_to_server], lines 237-278 *)
Definition send_response_to_server (self : t) (response_data : value)
    (fail_at : option N) : list action :=
  match make_message self response_data with
  | None => []
  | Some message =>
      match Chunked.send_all message fail_at with
      | Some (chunks, _, _) => [Send (concat chunks)]
      | None => []
      end
  end.

(** [handle_request], lines 280-296 *)
Definition handle_request (self : t) (request_data : value) (f : frame)
  : list action :=
  let '(calls, r) :=
    forward_request_to_local_api self request_data (error_text f) in
  match r with
  | Some response_data =>
      calls ++ send_response_to_server self response_data (fail_at f)
  | None => calls
  end.

(** [register_with_server], lines 39-69 *)
Definition register_with_server (self : t) (now : Q) (ok : bool)
  : list action :=
  let register_data :=
    JObj [(u "type", JStr (u "register"));
          (u "client_id", JStr (client_id self));
          (u "timestamp", JNum now)] in
  match make_message self register_data with
  | Some message => if ok then [Send message] else []
  | None => []
  end.

(** [receive_messages], lines 323-385, over the frames that arrive
    before the connection ends. *)
Fixpoint receive_messages (self : t) (frames : list frame) : list action :=
  match frames with
  | [] => []
  | f :: rest =>
      match decode Strict (signature_data f) with
      | None => []
      | Some signature =>
      match verify_signature self (json_data f) signature with
      | None => []
      | Some false => receive_messages self rest
      | Some true =>
      match decode Strict (json_data f) with
      | None => []
      | Some text =>
      match json_loads text with
      | OtherError => []
      | JSONDecodeError => receive_messages self rest
      | Loaded request_data =>
          (* lines 375-376 *)
          handle_request self request_data f ++ receive_messages self rest
      end end end end
  end.

(** [connect_to_server], lines 298-321, once the connection is open. *)
Definition connect_to_server (self : t) (now : Q) (ok : bool)
    (frames : list frame) : list action :=
  register_with_server self now ok ++ receive_messages self frames.

End WithLibraries.
End Client.

(* ================================================================== *)
(** * Concrete payloads and a fragment of the libraries *)
(* ================================================================== *)

(** A handful of payloads with the texts [json.dumps] gives them and
    the digests [hmac] gives those texts under the key [secret]; the
    instance below is the libraries restricted to these payloads.  The
    examples and counterexamples run on it. *)
Module Examples.
Import Py Json.

Definition dq : str := [34%N].
(** A quoted word of a JSON text. *)
Definition q (s : string) : str := dq ++ u s ++ dq.

Definition key : bytes := b "secret".

Definition id1 : str := u "7f3c2a10-5b1e-4c8d-9a6f-0123456789ab".
Definition id2 : str := u "7f3c2a10-5b1e-4c8d-9a6f-0123456789ac".
Definition peer : value := JArr [JStr (u "203.0.113.9"); JNum 40000].

Definition get_health : str :=
  u "GET /health HTTP/1.1" ++ crlf ++ u "Host: example" ++ crlf ++ crlf.
Definition get_status : str :=
  u "GET /status HTTP/1.1" ++ crlf ++ u "Host: example" ++ crlf ++ crlf.
Definition post_chunked_head : str :=
  u "POST /upload HTTP/1.1" ++ crlf ++ u "Host: example" ++ crlf
    ++ u "Transfer-Encoding: chunked" ++ crlf ++ crlf.
Definition get_truncated : str :=
  u "GET /health HTTP/1.1" ++ crlf ++ u "Host: example" ++ crlf.
Definition ok_response : str :=
  u "HTTP/1.1 200 OK" ++ crlf ++ u "Content-Length: 2" ++ crlf ++ crlf
    ++ u "ok".

Definition request (id : str) (t : Q) (data : str) : value :=
  JObj [(u "id", JStr id); (u "timestamp", JNum t); (u "data", JStr data);
        (u "client_addr", peer)].
Definition response (id data : str) : value :=
  JObj [(u "request_id", JStr id); (u "data", JStr data)].

Definition register : value :=
  JObj [(u "type", JStr (u "register")); (u "client_id", JStr (u "c1"));
        (u "timestamp", JNum 1000)].
Definition request1 : value := request id1 1001 get_health.
Definition request2 : value := request id2 1002 get_status.
Definition chunked : value := request id1 1001 post_chunked_head.
Definition truncated : value := request id1 1001 get_truncated.
Definition response1 : value := response id1 ok_response.
Definition response2 : value := response id2 ok_response.
Definition headers_only : str :=
  u "HTTP/1.1 200 OK" ++ crlf ++ u "Content-Type: application/octet-stream"
    ++ crlf ++ crlf.
Definition response_binary : value := response id1 headers_only.
Definition error500 : value :=
  response id1 (Client.error_response Client.no_header_end).

Definition register_text : str :=
  u "{" ++ q "type" ++ u ": " ++ q "register" ++ u ", " ++ q "client_id"
    ++ u ": " ++ q "c1" ++ u ", " ++ q "timestamp" ++ u ": 1000.0}".
Definition register_digest : str :=
  u "a306b18be3cfe21aea87440b0dc395d5fc0c19928ac9e1946f42170830384382".

Definition request1_text : str :=
  u "{" ++ q "id" ++ u ": " ++ q "7f3c2a10-5b1e-4c8d-9a6f-0123456789ab"
    ++ u ", " ++ q "timestamp" ++ u ": 1001.0, " ++ q "data" ++ u ": "
    ++ q "GET /health HTTP/1.1\r\nHost: example\r\n\r\n" ++ u ", "
    ++ q "client_addr" ++ u ": [" ++ q "203.0.113.9" ++ u ", 40000]}".
Definition request1_digest : str :=
  u "e659a485b7687f96c2d416442e99790475a8b10a356b82cb3aedeb784ac7566f".

Definition request2_text : str :=
  u "{" ++ q "id" ++ u ": " ++ q "7f3c2a10-5b1e-4c8d-9a6f-0123456789ac"
    ++ u ", " ++ q "timestamp" ++ u ": 1002.0, " ++ q "data" ++ u ": "
    ++ q "GET /status HTTP/1.1\r\nHost: example\r\n\r\n" ++ u ", "
    ++ q "client_addr" ++ u ": [" ++ q "203.0.113.9" ++ u ", 40000]}".
Definition request2_digest : str :=
  u "41341814e0949c96e50bb0c22008d45792c1bd95c6483bec1cfe5a3f2dc2c057".

Definition chunked_text : str :=
  u "{" ++ q "id" ++ u ": " ++ q "7f3c2a10-5b1e-4c8d-9a6f-0123456789ab"
    ++ u ", " ++ q "timestamp" ++ u ": 1001.0, " ++ q "data" ++ u ": "
    ++ q "POST /upload HTTP/1.1\r\nHost: example\r\nTransfer-Encoding: chunked\r\n\r\n"
    ++ u ", " ++ q "client_addr" ++ u ": [" ++ q "203.0.113.9"
    ++ u ", 40000]}".
Definition chunked_digest : str :=
  u "65a9341057a25bbb48d65eceba86b51f4f43c10b8735b0dd69cad969f74953e3".

Definition truncated_text : str :=
  u "{" ++ q "id" ++ u ": " ++ q "7f3c2a10-5b1e-4c8d-9a6f-0123456789ab"
    ++ u ", " ++ q "timestamp" ++ u ": 1001.0, " ++ q "data" ++ u ": "
    ++ q "GET /health HTTP/1.1\r\nHost: example\r\n" ++ u ", "
    ++ q "client_addr" ++ u ": [" ++ q "203.0.113.9" ++ u ", 40000]}".
Definition truncated_digest : str :=
  u "b925100e5ba0863e5d2e70cc47fecf3f5f5b63698a12510a9e6cbf5ff71221a7".

Definition response1_text : str :=
  u "{" ++ q "request_id" ++ u ": "
    ++ q "7f3c2a10-5b1e-4c8d-9a6f-0123456789ab" ++ u ", " ++ q "data"
    ++ u ": " ++ q "HTTP/1.1 200 OK\r\nContent-Length: 2\r\n\r\nok"
    ++ u "}".
Definition response1_digest : str :=
  u "64ebccadd7b92cfc665d2f2089ab6ea97b354e8a7f66b5d37ccd398de5de4926".

Definition response2_text : str :=
  u "{" ++ q "request_id" ++ u ": "
    ++ q "7f3c2a10-5b1e-4c8d-9a6f-0123456789ac" ++ u ", " ++ q "data"
    ++ u ": " ++ q "HTTP/1.1 200 OK\r\nContent-Length: 2\r\n\r\nok"
    ++ u "}".
Definition response2_digest : str :=
  u "2491b7f7978ed70f7901f3cc30280ce11e4499178b7d71a58b71acf0116c7527".

Definition response_binary_text : str :=
  u "{" ++ q "request_id" ++ u ": "
    ++ q "7f3c2a10-5b1e-4c8d-9a6f-0123456789ab" ++ u ", " ++ q "data"
    ++ u ": "
    ++ q "HTTP/1.1 200 OK\r\nContent-Type: application/octet-stream\r\n\r\n"
    ++ u "}".
Definition response_binary_digest : str :=
  u "aac0caa3520e1b1ee1da48a26c0899117007a31e698d1e760a4bb7fe8c83714b".

Definition error500_text : str :=
  u "{" ++ q "request_id" ++ u ": "
    ++ q "7f3c2a10-5b1e-4c8d-9a6f-0123456789ab" ++ u ", " ++ q "data"
    ++ u ": "
    ++ q "HTTP/1.1 500 Internal Server Error\r\nContent-Type: text/plain\r\n\r\nError forwarding request to local API: \u65e0\u6548\u7684HTTP\u8bf7\u6c42\uff0c\u672a\u627e\u5230\u5934\u90e8\u7ed3\u675f\u6807\u8bb0"
    ++ u "}".
Definition error500_digest : str :=
  u "1b7b536777c629acd93461c53a4c5571c55e0b18d70437c87aa0a3748e6c2364".


Definition payloads : list (value * str * str) :=
  [(register, register_text, register_digest);
   (request1, request1_text, request1_digest);
   (request2, request2_text, request2_digest);
   (chunked, chunked_text, chunked_digest);
   (truncated, truncated_text, truncated_digest);
   (response1, response1_text, response1_digest);
   (response2, response2_text, response2_digest);
   (response_binary, response_binary_text, response_binary_digest);
   (error500, error500_text, error500_digest)].

(** Identity of two values, field by field, to find one in the table. *)
Fixpoint same (a c : value) : bool :=
  match a, c with
  | JNull, JNull => true
  | JBool x, JBool y => Bool.eqb x y
  | JNum x, JNum y => Qeq_bool x y
  | JStr x, JStr y => str_eqb x y
  | JArr x, JArr y =>
      (fix go (l m : list value) : bool :=
         match l, m with
         | [], [] => true
         | v :: l', w :: m' => same v w && go l' m'
         | _, _ => false
         end) x y
  | JObj x, JObj y =>
      (fix go (l m : list (str * value)) : bool :=
         match l, m with
         | [], [] => true
         | (k, v) :: l', (k', w) :: m' => str_eqb k k' && same v w && go l' m'
         | _, _ => false
         end) x y
  | _, _ => false
  end.

Definition dumps (v : value) : str :=
  match List.find (fun p => same v (fst (fst p))) payloads with
  | Some p => snd (fst p)
  | None => u "null"
  end.

Definition loads (text : str) : loads_result :=
  match List.find (fun p => str_eqb text (snd (fst p))) payloads with
  | Some p => Loaded (fst (fst p))
  | None => JSONDecodeError
  end.

Definition bytes_eqb : bytes -> bytes -> bool := seq_eqb byte_eqb.

Definition no_digest : str := repeat 48%N 64.

Definition hexdigest (k msg : bytes) : str :=
  if bytes_eqb k key then
    match List.find (fun p => bytes_eqb msg (map chr8 (snd (fst p)))) payloads with
    | Some p => snd p
    | None => no_digest
    end
  else no_digest.

(** [int] on plain decimal numerals. *)
Fixpoint numeral (s : str) (acc : N) : option N :=
  match s with
  | [] => Some acc
  | c :: s' =>
      if ((48 <=? c) && (c <=? 57))%N
      then numeral s' (acc * 10 + (c - 48))%N
      else None
  end.

Definition int (s : str) : option Z :=
  match s with
  | [] => None
  | _ => option_map Z.of_N (numeral s 0)
  end.

#[local] Instance fragment : Libraries := {
  hmac_sha256_hexdigest := hexdigest;
  json_loads := loads;
  json_dumps := dumps;
  int_of_str := int
}.

(** A signed frame as it travels: the digest and the text, in octets. *)
Definition wire (s : str) : bytes := map chr8 s.

Definition frame_of (digest text : str) : Server.frame :=
  {| Server.signature_data := wire digest;
     Server.json_data := wire text;
     Server.now := 1003%Q;
     Server.fail_at := None |}.

Definition web (data : bytes) (id : str) : Server.web_input :=
  {| Server.stream := data;
     Server.peername := peer;
     Server.uuid4 := id;
     Server.time_request := 1001%Q;
     Server.time_forward := 1001%Q;
     Server.tunnel_ok := true;
     Server.web_ok := true |}.

Definition server0 : Server.t := Server.init key.

(** Connection 1 registers as client [c1]. *)
Definition registered : list Server.event :=
  [Server.TunnelOpen 1; Server.TunnelFrame 1 (frame_of register_digest register_text)].

(** Then the public connection 10 sends [GET /health]. *)
Definition one_pending : list Server.event :=
  registered ++ [Server.WebRequest 10 (web (wire get_health) id1)].

(** A frame whose signature was made for another payload. *)
Definition forged : Server.frame := frame_of response1_digest register_text.

(** The chunks that follow the header block [post_chunked_head]. *)
Definition chunked_body : bytes :=
  b "5" ++ crlf_b ++ b "hello" ++ crlf_b ++ b "0" ++ crlf_b ++ crlf_b.

(** The server after connection 1 has registered, and after the public
    connection 10 has sent its request as well. *)
Definition server1 : Server.t := Server.run (H := fragment) server0 registered.
Definition server2 : Server.t := Server.run (H := fragment) server0 one_pending.

(** The client, and two local services: one answers [ok] to every
    call, the other answers with the single octet [0xFF]. *)
Definition tunnel_client : Client.t :=
  {| Client.secret_key := key;
     Client.local_api_url := u "http://localhost:5001";
     Client.client_id := u "c1" |}.

Definition healthy (_ : Client.http_request) : Client.local_result :=
  Client.Responded
    {| Client.status := 200;
       Client.reason := u "OK";
       Client.response_headers := [(u "Content-Length", u "2")];
       Client.response_body := b "ok" |}.

Definition binary (_ : Client.http_request) : Client.local_result :=
  Client.Responded
    {| Client.status := 200;
       Client.reason := u "OK";
       Client.response_headers :=
         [(u "Content-Type", u "application/octet-stream")];
       Client.response_body := [xff] |}.

Definition to_client (digest text : str) : Client.frame :=
  {| Client.signature_data := wire digest;
     Client.json_data := wire text;
     Client.error_text := [];
     Client.fail_at := None |}.

Definition call (path : string) : Client.http_request :=
  {| Client.method := u "GET";
     Client.url := u "http://localhost:5001" ++ u path;
     Client.headers := [(JStr (u "Host"), u "example")];
     Client.data := None |}.

(** A frame on the wire: the length of the signature in four octets,
    the signature, the payload. *)
Definition framed (digest text : str) : bytes :=
  [x00; x00; x00; x40] ++ wire digest ++ wire text.

(** Lines 172-176 of the server and 329-333 of the client on a whole
    message: the signature length, the signature, the rest. *)
Definition unframe (message : bytes) : bytes * bytes :=
  let signature_length :=
    fold_left (fun n x => (n * 256 + ord x)%N) (take 4 message) 0%N in
  (slice 4 signature_length message, drop (4 + signature_length) message).

(** One request through the whole tunnel, with a client registered on
    connection 1: what the public connection 10 has received once the
    server has handled its request, the client the frame sent to it,
    and the server the frame sent back. *)
Definition through_tunnel
    (local_api : Client.http_request -> Client.local_result)
    (request : bytes) : bytes :=
  let st := Server.handle_web_request (H := fragment) server1 10 (web request id1) in
  let '(signature, payload) := unframe (Server.sent (Server.conns st 1)) in
  let work :=
    Client.receive_messages (H := fragment) local_api tunnel_client
      [{| Client.signature_data := signature;
          Client.json_data := payload;
          Client.error_text := [];
          Client.fail_at := None |}] in
  match work with
  | [Client.CallLocal _; Client.Send message] =>
      let '(signature, payload) := unframe message in
      let st := fst (Server.handle_frame (H := fragment) st 1
                       {| Server.signature_data := signature;
                          Server.json_data := payload;
                          Server.now := 1003%Q;
                          Server.fail_at := None |}) in
      Server.sent (Server.conns st 10)
  | _ => []
  end.

(** The octets after the first blank line of an HTTP message. *)
Definition body_of (message : bytes) : option bytes :=
  match find byte_eqb (crlf_b ++ crlf_b) message with
  | Some i => Some (drop (i + 4) message)
  | None => None
  end.

End Examples.


(* ================================================================== *)
(** * Reading a frame: the loops of [handle_client] and [receive_messages] *)
(* ================================================================== *)

(** Both classes read a frame with the same code (server lines 170-204,
    client lines 327-361; only the size asked of [read] differs). *)
Module Framing.
Import Py Json.

(** Octets that are ASCII text. *)
Definition ascii_octets (s : bytes) : Prop :=
  Forall (fun x => (ord x < 0x80)%N) s.

(** [int.from_bytes(data, byteorder='big')] *)
Definition from_bytes (data : bytes) : N :=
  fold_left (fun n x => (n * 256 + ord x)%N) data 0%N.

(** Server lines 172-177, client lines 329-334, on the octets [stream]
    that the connection delivers before it ends: the signature, and
    the octets that follow it.  [None] is [IncompleteReadError]. *)
Definition read_head (stream : bytes) : option (bytes * bytes) :=
  match Server.readexactly 4 stream with
  | None => None
  | Some length_data =>
      let signature_length := from_bytes length_data in
      let stream := drop 4 stream in
      match Server.readexactly signature_length stream with
      | None => None
      | Some signature_data =>
          Some (signature_data, drop signature_length stream)
      end
  end.

(** How the inner loop ends: the buffer parses (line 196), [read]
    returns [b''] (line 187), an exception is printed (lines 200-202). *)
Inductive ending := Parsed | EndOfInput | Raised.

Section WithLibraries.
Context `{Libraries}.

(** Server lines 181-204, client lines 338-361.  [reads] holds what the
    successive calls of [reader.read] return, up to the end of the
    input, where [read] returns [b'']; [buffer] is [json_data_buffer].
    The result: the buffer, how the loop ended, the reads not made. *)
Fixpoint read_json (reads : list bytes) (buffer : bytes)
  : bytes * ending * list bytes :=
  match reads with
  | [] => (buffer, EndOfInput, [])
  | [] :: rest => (buffer, EndOfInput, rest)
  | chunk :: rest =>
      let buffer := buffer ++ chunk in
      match decode Strict buffer with
      | None => (buffer, Raised, rest)
      | Some json_str =>
          match json_loads json_str with
          | Loaded _ => (buffer, Parsed, rest)
          | JSONDecodeError => read_json rest buffer
          | OtherError => (buffer, Raised, rest)
          end
      end
  end.

End WithLibraries.
End Framing.

(* ================================================================== *)
(** * Parts of [forward_request_to_local_api] *)
(* ================================================================== *)

Module ClientParts.
Import Py Json Client.

(** Lines 80-105 on their own: the index of the blank line, the first
    two parts of the start line and the header dictionary.  [None]
    when one of the two [ValueError]s is raised. *)
Definition parse_request (raw_request : str)
  : option (N * str * str * Dict.t str) :=
  match find N.eqb (crlf ++ crlf) raw_request with
  | None => None
  | Some header_end_index =>
      let headers_part := take header_end_index raw_request in
      let lines := split N.eqb crlf headers_part in
      match split N.eqb (u " ") (hd [] lines) with
      | method :: path :: _ :: _ =>
          Some (header_end_index, method, path, parse_headers (tl lines) [])
      | _ => None
      end
  end.

(** Lines 133-134 *)
Definition is_multipart (headers : Dict.t str) : bool :=
  contains N.eqb (u "multipart/form-data")
    match Dict.lookup (JStr (u "Content-Type")) headers with
    | Some v => v
    | None => []
    end.

(** The [data] argument of [session.request]: lines 137-139 for a
    multipart request, line 177 for another.  [None] when [encode]
    raises. *)
Definition request_body (raw_request : str) (header_end_index : N)
    (headers : Dict.t str) : option (option bytes) :=
  if is_multipart headers then
    match encode SurrogateEscape raw_request with
    | Some request_bytes =>
        Some (Some (drop (header_end_index + 4) request_bytes))
    | None => None
    end
  else
    match drop (header_end_index + 4) raw_request with
    | [] => Some None
    | body_part => option_map Some (encode Strict body_part)
    end.

(** The call of lines 141-146 and 173-178. *)
Definition local_request (self : t) (method path : str) (headers : Dict.t str)
    (data : option bytes) : http_request :=
  {| method := method;
     url := rstrip_slash (local_api_url self) ++ path;
     headers := headers;
     data := data |}.

End ClientParts.

(* ================================================================== *)
(** * More payloads *)
(* ================================================================== *)

(** The libraries of [Examples.fragment] with more payloads, their
    texts and digests again those of [json.dumps] and [hmac]. *)
Module Scenarios.
Import Py Json Examples.

(** A response whose [data] is a number, and a request without [id]. *)
Definition response_number : value :=
  JObj [(u "request_id", JStr id1); (u "data", JNum 5)].
Definition request_anonymous : value :=
  JObj [(u "timestamp", JNum 1001); (u "data", JStr get_health)].

Definition response_number_text : str :=
  u "{" ++ q "request_id" ++ u ": "
    ++ q "7f3c2a10-5b1e-4c8d-9a6f-0123456789ab" ++ u ", " ++ q "data"
    ++ u ": 5}".
Definition response_number_digest : str :=
  u "ea6c112670d05c0137e095e2b78d7d76d001dc4e7af63ad12669d9916de45859".

Definition request_anonymous_text : str :=
  u "{" ++ q "timestamp" ++ u ": 1001.0, " ++ q "data" ++ u ": "
    ++ q "GET /health HTTP/1.1\r\nHost: example\r\n\r\n" ++ u "}".
Definition request_anonymous_digest : str :=
  u "8bf323ada0b596ecc49991259be8200082844bb0bec0f205c392eef80ae1c55c".

(** A payload that is no object. *)
Definition array : value := JArr [JNum 1].
Definition array_text : str := u "[1]".
Definition array_digest : str :=
  u "d832580a6b785bddc42cfd5e19af6afc8bb83961067968ee9bb8d7bdf45df058".

Definition more_payloads : list (value * str * str) :=
  [(response_number, response_number_text, response_number_digest);
   (request_anonymous, request_anonymous_text, request_anonymous_digest);
   (array, array_text, array_digest)].

Definition dumps (v : value) : str :=
  match List.find (fun p => same v (fst (fst p))) more_payloads with
  | Some p => snd (fst p)
  | None => Examples.dumps v
  end.

Definition loads (text : str) : loads_result :=
  match List.find (fun p => str_eqb text (snd (fst p))) more_payloads with
  | Some p => Loaded (fst (fst p))
  | None => Examples.loads text
  end.

Definition hexdigest (k msg : bytes) : str :=
  if bytes_eqb k key then
    match List.find (fun p => bytes_eqb msg (map chr8 (snd (fst p))))
                    more_payloads with
    | Some p => snd p
    | None => Examples.hexdigest k msg
    end
  else no_digest.

#[local] Instance extended : Libraries := {
  hmac_sha256_hexdigest := hexdigest;
  json_loads := loads;
  json_dumps := dumps;
  int_of_str := int
}.

(** A local service that cannot be reached. *)
Definition unreachable (_ : Client.http_request) : Client.local_result :=
  Client.Failed (u "Cannot connect to host localhost:5001").

(** A public request with a multipart body of two octets that are no
    UTF-8, and one with the same body under another content type. *)
Definition upload_head (content_type : string) : str :=
  u "POST /upload HTTP/1.1" ++ crlf ++ u "Content-Type: " ++ u content_type
    ++ crlf ++ u "Content-Length: 2" ++ crlf ++ crlf.
Definition multipart_head : str := upload_head "multipart/form-data; boundary=x".
Definition octet_stream_head : str := upload_head "application/octet-stream".

End Scenarios.

(* ================================================================== *)
(** * The connections of the registry *)
(* ================================================================== *)

(** The server listens on two ports: a connection belongs to
    [handle_web_request] or to [handle_client], and each handler runs
    on its own connection. *)
Module Registry.
Import Py Json Server.

Section WithLibraries.
Context `{Libraries}.

(** [public w] tells that the connection [w] arrived at the HTTP port. *)
Variable public : writer -> bool.

(** Every record of the registry holds a tunnel connection that has
    not been closed, and every pending record a public connection. *)
Definition registry_open (st : t) : Prop :=
  wf st
  /\ (forall client_id client_writer last_seen,
        In (client_id, (client_writer, last_seen)) (clients st) ->
        public client_writer = false
        /\ closed (conns st client_writer) = false)
  /\ (forall request_id handler_info,
        In (request_id, handler_info) (pending_requests st) ->
        public (web_writer handler_info) = true).

(** The steps that can happen: a handler runs on a connection of its
    own port, and the loop of [handle_client] takes a frame only while
    its connection is open, that is, before its [finally] block. *)
Definition admissible (st : t) (e : event) : Prop :=
  match e with
  | WebRequest w _ => public w = true
  | TunnelFrame w _ => public w = false /\ closed (conns st w) = false
  | TunnelOpen w | TunnelEOF w | TunnelError w => public w = false
  | Sweep _ => True
  end.

Fixpoint admissible_trace (st : t) (trace : list event) : Prop :=
  match trace with
  | [] => True
  | e :: rest => admissible st e /\ admissible_trace (step st e) rest
  end.

End WithLibraries.
End Registry.

(* ================================================================== *)
(** * The client's loop on the octets of the tunnel connection *)
(* ================================================================== *)

(** [asyncio.StreamReader] on a connection whose peer sends the octets
    [stream] and then closes. *)
Module Reader.
Import Py.

(** [await reader.read(n)]: at least one octet and at most [n], as
    many as have arrived by then, which the run at hand settles as [k];
    [b''] when nothing is left.  The result: the data, and what is left
    of the stream. *)
Definition read (n k : N) (stream : bytes) : bytes * bytes :=
  let m := N.max 1 (N.min n k) in
  (take m stream, drop m stream).

(** What successive calls of [read(n)] return until nothing is left,
    the calls taking as many octets as [sizes] says, one after the
    other, and all there is, up to [n], once [sizes] is used up.  Every
    call takes an octet, so as many calls as octets are enough. *)
Fixpoint reads (fuel : nat) (n : N) (sizes : list N) (stream : bytes)
  : list bytes :=
  match fuel, stream with
  | S fuel', _ :: _ =>
      let '(chunk, rest) := read n (hd n sizes) stream in
      chunk :: reads fuel' n (tl sizes) rest
  | _, _ => []
  end.

End Reader.

Module ClientLoop.
Import Py Json Framing ClientParts.

(** What the run settles for one turn of the loop of
    [receive_messages]: in what pieces the payload arrives, and what a
    [Client.frame] holds besides the octets. *)
Record turn := {
  sizes : list N;
  error_text : str;
  fail_at : option N
}.

(** A turn of which the run settles nothing: every read takes all
    there is, up to its limit, and no write fails. *)
Definition idle : turn := {| sizes := []; error_text := []; fail_at := None |}.

Section WithLibraries.
Context `{Libraries}.

(** Lines 327-361, turn after turn: the frames that the loop takes
    from the octets [stream].  Where the buffer of one turn ends the
    next turn starts.  The loop goes on whatever it does with a frame,
    unless that raises; [Client.receive_messages] stops there too. *)
Fixpoint read_frames (fuel : nat) (stream : bytes) (turns : list turn)
  : list Client.frame :=
  match fuel with
  | O => []
  | S fuel' =>
      match read_head stream with
      | None => []
      | Some (signature_data, rest) =>
          let t := hd idle turns in
          let '(json_data, _, unread) :=
            read_json (Reader.reads (List.length rest) 8192 (sizes t) rest) [] in
          {| Client.signature_data := signature_data;
             Client.json_data := json_data;
             Client.error_text := error_text t;
             Client.fail_at := fail_at t |}
            :: read_frames fuel' (concat unread) (tl turns)
      end
  end.

Variable local_api : Client.http_request -> Client.local_result.

(** [receive_messages], lines 323-385, on the octets that the tunnel
    connection delivers before it ends.  A turn takes four octets at
    least, so as many turns as octets are enough. *)
Definition receive_messages (self : Client.t) (stream : bytes)
    (turns : list turn) : list Client.action :=
  Client.receive_messages local_api self
    (read_frames (List.length stream) stream turns).

(** The octets [octets] are a frame, validly signed for [self], whose
    payload parses to [request_data] and arrives in the reads [chunks]:
    each read brings an octet at least and 8192 at most, and no buffer
    short of the whole payload parses. *)
Definition request_frame (self : Client.t) (octets : bytes)
    (chunks : list bytes) (request_data : value) : Prop :=
  exists prefix signature_data signature text,
    octets = prefix ++ signature_data ++ concat chunks
    /\ Server.to_bytes4 (Chunked.len signature_data) = Some prefix
    /\ decode Strict signature_data = Some signature
    /\ Client.verify_signature self (concat chunks) signature = Some true
    /\ decode Strict (concat chunks) = Some text
    /\ json_loads text = Loaded request_data
    /\ chunks <> []
    /\ Forall (fun chunk => (1 <= Chunked.len chunk <= 8192)%N) chunks
    /\ (forall m, (0 < m < List.length chunks)%nat ->
          exists t, decode Strict (concat (firstn m chunks)) = Some t
                    /\ json_loads t = JSONDecodeError).

(** The request has an [id], its [data] parses as an HTTP request and
    its body can be encoded: the client makes the call [call], and
    [message] is the frame of the response with what the local service
    returns. *)
Definition answered (self : Client.t) (request_data : value)
    (call : Client.http_request) (message : bytes) : Prop :=
  exists id raw_request header_end_index method path headers data,
    getitem request_data (u "id") = Some id
    /\ getitem request_data (u "data") = Some (JStr raw_request)
    /\ parse_request raw_request
       = Some (header_end_index, method, path, headers)
    /\ request_body raw_request header_end_index headers = Some data
    /\ call = local_request self method path headers data
    /\ Client.make_message self
         (JObj [(u "request_id", id);
                (u "data",
                 JStr match local_api call with
                      | Client.Responded r => Client.response_text r
                      | Client.Failed text => Client.error_response text
                      end)])
       = Some message.

End WithLibraries.
End ClientLoop.
(* ================================================================== *)
(** * Lemmas: sequences, dictionaries, the sending loop *)
(* ================================================================== *)

Unset Implicit Arguments.

Module PyFacts.
Import Py.

Lemma take_firstn {A} (n : N) (s : list A) : take n s = firstn (N.to_nat n) s.
Proof.
  revert n; induction s as [|x s IH]; intro n; simpl.
  - now rewrite firstn_nil.
  - destruct (N.eqb_spec n 0) as [->|Hn]; [reflexivity|].
    replace (N.to_nat n) with (S (N.to_nat (N.pred n))) by lia.
    simpl. now rewrite IH.
Qed.

Lemma drop_skipn {A} (n : N) (s : list A) : drop n s = skipn (N.to_nat n) s.
Proof.
  revert n; induction s as [|x s IH]; intro n; simpl.
  - now rewrite skipn_nil.
  - destruct (N.eqb_spec n 0) as [->|Hn]; [reflexivity|].
    replace (N.to_nat n) with (S (N.to_nat (N.pred n))) by lia.
    simpl. now rewrite IH.
Qed.

Lemma take_drop {A} (n : N) (s : list A) : take n s ++ drop n s = s.
Proof. rewrite take_firstn, drop_skipn. apply firstn_skipn. Qed.

Lemma drop_drop {A} (n m : N) (s : list A) :
  drop m (drop n s) = drop (n + m) s.
Proof.
  rewrite !drop_skipn, skipn_skipn. f_equal. lia.
Qed.

Lemma length_take {A} (n : N) (s : list A) :
  Chunked.len (take n s) = N.min n (Chunked.len s).
Proof.
  unfold Chunked.len. rewrite take_firstn, length_firstn. lia.
Qed.

Lemma length_drop {A} (n : N) (s : list A) :
  Chunked.len (drop n s) = (Chunked.len s - n)%N.
Proof.
  unfold Chunked.len. rewrite drop_skipn, length_skipn. lia.
Qed.

Lemma drop_all {A} (n : N) (s : list A) :
  (Chunked.len s <= n)%N -> drop n s = [].
Proof.
  unfold Chunked.len; intro Hle. rewrite drop_skipn.
  apply skipn_all2. lia.
Qed.

(** Only the [strict] handler makes decoding fail. *)
Lemma decode_total (e : errors) (s : bytes) :
  e <> Strict -> exists t, decode e s = Some t.
Proof.
  intro He. unfold decode.
  induction (utf8_items s) as [|[c|bs] l (t & IH)]; cbn [decode_items].
  - now exists [].
  - rewrite IH. now eexists.
  - destruct e; [contradiction | exact (ex_intro _ t IH) |].
    rewrite IH. now eexists.
Qed.

End PyFacts.

Module ChunkedFacts.
Import Py Chunked PyFacts.

(** With as many iterations as octets are left, the loop ends: it
    never runs out of iterations. *)
Lemma send_chunks_ends (fuel : nat) (content : bytes) (total_sent k : N)
    (fail_at : option N) :
  (len content - total_sent <= N.of_nat fuel)%N ->
  send_chunks fuel content total_sent k fail_at <> None.
Proof.
  revert total_sent k.
  induction fuel as [|fuel IH]; intros total_sent k Hfuel.
  - simpl. destruct (N.ltb_spec total_sent (len content)); [lia | discriminate].
  - simpl. destruct (N.ltb_spec total_sent (len content)) as [Hlt|]; [|discriminate].
    destruct (match fail_at with Some j => (j =? k)%N | None => false end);
      [discriminate|].
    set (chunk := slice total_sent chunk_size content).
    assert (Hlen : (1 <= len chunk)%N).
    { unfold chunk, slice. rewrite length_take, length_drop.
      unfold chunk_size. lia. }
    specialize (IH (total_sent + len chunk)%N (N.succ k)).
    destruct (send_chunks fuel content (total_sent + len chunk) (N.succ k) fail_at)
      as [[[chunks out] ok]|]; [discriminate|].
    exfalso; apply IH; [lia | reflexivity].
Qed.

(** What the loop has written is a prefix of what was left to send,
    and all of it when the loop ran to its end. *)
Lemma send_chunks_prefix (fuel : nat) (content : bytes) (total_sent k : N)
    (fail_at : option N) chunks out ok :
  send_chunks fuel content total_sent k fail_at = Some (chunks, out, ok) ->
  exists rest, drop total_sent content = concat chunks ++ rest
               /\ (ok = true -> rest = []).
Proof.
  revert total_sent k chunks out ok.
  induction fuel as [|fuel IH]; intros total_sent k chunks out ok; simpl.
  - destruct (N.ltb_spec total_sent (len content)) as [|Hge]; [discriminate|].
    intros [= <- <- <-]. exists []. split; [|reflexivity].
    simpl. now apply drop_all.
  - destruct (N.ltb_spec total_sent (len content)) as [Hlt|Hge].
    + destruct (match fail_at with Some j => (j =? k)%N | None => false end).
      * intros [= <- <- <-]. exists (drop total_sent content).
        split; [reflexivity | discriminate].
      * set (chunk := slice total_sent chunk_size content).
        destruct (send_chunks fuel content (total_sent + len chunk) (N.succ k) fail_at)
          as [[[chunks' out'] ok']|] eqn:Hrec; [|discriminate].
        intros [= <- <- <-].
        destruct (IH _ _ _ _ _ Hrec) as (rest & Hrest & Hok).
        exists rest. split; [|exact Hok].
        simpl. rewrite <- app_assoc, <- Hrest.
        unfold chunk, slice.
        rewrite <- drop_drop, length_take, length_drop.
        set (left := drop total_sent content).
        assert (Hmin : drop (N.min chunk_size (len content - total_sent)) left
                       = drop chunk_size left).
        { destruct (N.le_ge_cases chunk_size (len content - total_sent)).
          - now rewrite N.min_l.
          - rewrite N.min_r by assumption.
            rewrite !drop_all; [reflexivity | |];
              unfold left; rewrite length_drop; lia. }
        rewrite Hmin. symmetry. apply take_drop.
    + intros [= <- <- <-]. exists []. split; [|reflexivity].
      simpl. now apply drop_all.
Qed.

Lemma send_chunks_unfailing (fuel : nat) (content : bytes) (total_sent k : N)
    chunks out ok :
  send_chunks fuel content total_sent k None = Some (chunks, out, ok) ->
  ok = true.
Proof.
  revert total_sent k chunks out ok.
  induction fuel as [|fuel IH]; intros total_sent k chunks out ok; simpl.
  - destruct (total_sent <? len content)%N; [discriminate|].
    now intros [= _ _ <-].
  - destruct (total_sent <? len content)%N; [|now intros [= _ _ <-]].
    destruct (send_chunks fuel content _ (N.succ k) None)
      as [[[chunks' out'] ok']|] eqn:Hrec; [|discriminate].
    intros [= _ _ <-]. eapply IH; eassumption.
Qed.


Lemma send_all_verbatim (content : bytes) :
  exists chunks out,
    send_all content None = Some (chunks, out, true)
    /\ concat chunks = content.
Proof.
  unfold send_all.
  destruct (send_chunks (List.length content) content 0 0 None)
    as [[[chunks out] ok]|] eqn:Hrun.
  - assert (Hok : ok = true) by (eapply send_chunks_unfailing; eassumption).
    subst ok. exists chunks, out. split; [reflexivity|].
    destruct (send_chunks_prefix _ _ _ _ _ _ _ _ Hrun) as (rest & Hrest & Hnil).
    rewrite (Hnil eq_refl), app_nil_r in Hrest.
    rewrite drop_skipn in Hrest. simpl in Hrest. now symmetry.
  - exfalso. revert Hrun. apply send_chunks_ends. unfold len. lia.
Qed.

End ChunkedFacts.

Module DictFacts.
Import Py Json Dict.

Lemma str_eqb_eq (s t : str) : str_eqb s t = true <-> s = t.
Proof.
  unfold str_eqb. revert t; induction s as [|c s IH]; intros [|d t]; simpl;
    try (split; [discriminate | discriminate || congruence]); [tauto|].
  rewrite andb_true_iff, N.eqb_eq, IH.
  split; [intros [-> ->]; reflexivity | intros [= -> ->]; auto].
Qed.

Lemma str_eqb_refl (s : str) : str_eqb s s = true.
Proof. now apply str_eqb_eq. Qed.

(** [==] between keys is symmetric and transitive, and reflexive on
    the values that can be keys. *)
Lemma str_eqb_sym (s t : str) : str_eqb s t = str_eqb t s.
Proof.
  destruct (str_eqb s t) eqn:E.
  - apply str_eqb_eq in E; subst. now rewrite str_eqb_refl.
  - destruct (str_eqb t s) eqn:E'; [|reflexivity].
    apply str_eqb_eq in E'; subst. now rewrite str_eqb_refl in E.
Qed.

Lemma key_eqb_sym (a c : value) : key_eqb a c = key_eqb c a.
Proof.
  unfold key_eqb.
  destruct a as [|[]| | | |], c as [|[]| | | |]; cbn [as_number];
    try reflexivity; try apply Qeq_bool_comm.
  apply str_eqb_sym.
Qed.

Lemma key_eqb_refl (a : value) : hashable a = true -> key_eqb a a = true.
Proof.
  unfold key_eqb.
  destruct a as [|[]| | | |]; cbn [as_number hashable];
    try reflexivity; try discriminate; intros _.
  - apply Qeq_bool_refl.
  - apply str_eqb_refl.
Qed.

Lemma key_eqb_trans (a c d : value) :
  key_eqb a c = true -> key_eqb c d = true -> key_eqb a d = true.
Proof.
  unfold key_eqb.
  destruct (as_number a) as [x|] eqn:Ha, (as_number c) as [y|] eqn:Hc;
    try discriminate.
  - destruct (as_number d) as [z|]; [|discriminate].
    rewrite !Qeq_bool_iff. intros Hxy Hyz. now rewrite Hxy.
  - destruct (as_number d) as [z|]; [discriminate|].
    destruct a, c; try discriminate; destruct d; try discriminate; try reflexivity.
    rewrite !str_eqb_eq. congruence.
Qed.

Lemma key_eqb_false_l (a c d : value) :
  key_eqb a c = true -> key_eqb a d = false -> key_eqb c d = false.
Proof.
  intros Hac Had. destruct (key_eqb c d) eqn:Hcd; [|reflexivity].
  now rewrite (key_eqb_trans _ _ _ Hac Hcd) in Had.
Qed.

Section Facts.
Context {V : Type}.
Implicit Types (d : Dict.t V) (k : value) (v : V).

Lemma lookup_eqv k k' d :
  key_eqb k k' = true -> lookup k d = lookup k' d.
Proof.
  intro Hkk. induction d as [|[k0 v0] d IH]; simpl; [reflexivity|].
  destruct (key_eqb k k0) eqn:E.
  - rewrite key_eqb_sym in Hkk.
    now rewrite (key_eqb_trans _ _ _ Hkk E).
  - now rewrite (key_eqb_false_l _ _ _ Hkk E).
Qed.

Lemma lookup_set_same k k' v d :
  key_eqb k k' = true -> lookup k (set k' v d) = Some v.
Proof.
  intro Hkk. induction d as [|[k0 v0] d IH]; simpl.
  - now rewrite Hkk.
  - destruct (key_eqb k' k0) eqn:E; simpl.
    + now rewrite (key_eqb_trans _ _ _ Hkk E).
    + destruct (key_eqb k k0) eqn:E'; [|exact IH].
      rewrite key_eqb_sym in Hkk.
      now rewrite (key_eqb_trans _ _ _ Hkk E') in E.
Qed.

Lemma lookup_set_other k k' v d :
  key_eqb k k' = false -> lookup k (set k' v d) = lookup k d.
Proof.
  intro Hkk. induction d as [|[k0 v0] d IH]; simpl.
  - now rewrite Hkk.
  - destruct (key_eqb k' k0) eqn:E; simpl.
    + destruct (key_eqb k k0) eqn:E'; [|reflexivity].
      rewrite key_eqb_sym in E.
      now rewrite (key_eqb_trans _ _ _ E' E) in Hkk.
    + destruct (key_eqb k k0); [reflexivity | exact IH].
Qed.

Lemma lookup_del_other k k' d :
  key_eqb k k' = false -> lookup k (del k' d) = lookup k d.
Proof.
  intro Hkk. induction d as [|[k0 v0] d IH]; simpl; [reflexivity|].
  destruct (key_eqb k' k0) eqn:E; simpl.
  - destruct (key_eqb k k0) eqn:E'; [|reflexivity].
    rewrite key_eqb_sym in E.
    now rewrite (key_eqb_trans _ _ _ E' E) in Hkk.
  - destruct (key_eqb k k0); [reflexivity | exact IH].
Qed.

Lemma lookup_del_none k k' d :
  lookup k d = None -> lookup k (del k' d) = None.
Proof.
  induction d as [|[k0 v0] d IH]; simpl; [reflexivity|].
  destruct (key_eqb k k0) eqn:E; [discriminate|]. intro Hd.
  destruct (key_eqb k' k0); simpl; [exact Hd|].
  rewrite E. now apply IH.
Qed.

Lemma lookup_del_same k d : wf d -> lookup k (del k d) = None.
Proof.
  induction d as [|[k0 v0] d IH]; simpl; [reflexivity|].
  intros (_ & Hfresh & Hwf).
  destruct (key_eqb k k0) eqn:E; simpl.
  - now rewrite (lookup_eqv _ _ _ E).
  - rewrite E. now apply IH.
Qed.

Lemma wf_set k v d : hashable k = true -> wf d -> wf (set k v d).
Proof.
  intro Hk. induction d as [|[k0 v0] d IH]; simpl.
  - auto.
  - intros (Hh & Hfresh & Hwf).
    destruct (key_eqb k k0) eqn:E; simpl; [auto|].
    repeat split; auto.
    rewrite lookup_set_other; [exact Hfresh|].
    now rewrite key_eqb_sym.
Qed.

Lemma wf_del k d : wf d -> wf (del k d).
Proof.
  induction d as [|[k0 v0] d IH]; simpl; [auto|].
  intros (Hh & Hfresh & Hwf).
  destruct (key_eqb k k0); simpl; [exact Hwf|].
  repeat split; auto using lookup_del_none.
Qed.

Lemma in_del x k d : In x (del k d) -> In x d.
Proof.
  induction d as [|[k0 v0] d IH]; simpl; [auto|].
  destruct (key_eqb k k0); simpl; [auto|].
  intros [<-|Hin]; auto.
Qed.

Lemma lookup_app k d d' :
  lookup k (d ++ d') =
  match lookup k d with Some v => Some v | None => lookup k d' end.
Proof.
  induction d as [|[k0 v0] d IH]; simpl; [reflexivity|].
  destruct (key_eqb k k0); [reflexivity | exact IH].
Qed.

Lemma wf_remove_middle d k v d' : wf (d ++ (k, v) :: d') -> wf (d ++ d').
Proof.
  induction d as [|[k0 v0] d IH]; simpl.
  - intros (_ & _ & Hwf). exact Hwf.
  - intros (Hh & Hfresh & Hwf). repeat split; auto.
    rewrite lookup_app in *.
    destruct (lookup k0 d); [discriminate|].
    simpl in Hfresh. destruct (key_eqb k0 k); [discriminate | exact Hfresh].
Qed.

Lemma del_middle d k v d' :
  wf (d ++ (k, v) :: d') -> del k (d ++ (k, v) :: d') = d ++ d'.
Proof.
  induction d as [|[k0 v0] d IH]; simpl.
  - intros (Hh & _ & _). now rewrite key_eqb_refl.
  - intros (_ & Hfresh & Hwf).
    rewrite lookup_app in Hfresh.
    destruct (lookup k0 d); [discriminate|].
    simpl in Hfresh.
    rewrite key_eqb_sym.
    destruct (key_eqb k0 k); [discriminate|].
    now rewrite IH.
Qed.

(** A dictionary with the same keys in the same order. *)
Lemma lookup_none_keys {W : Type} k d (d2 : Dict.t W) :
  map fst d = map fst d2 -> lookup k d = None -> lookup k d2 = None.
Proof.
  revert d2; induction d as [|[k0 v0] d IH]; intros [|[k2 v2] d2]; simpl;
    try discriminate; [auto|].
  intros [= -> Hkeys].
  destruct (key_eqb k k2); [discriminate | now apply IH].
Qed.

Lemma wf_keys {W : Type} d (d2 : Dict.t W) :
  map fst d = map fst d2 -> wf d -> wf d2.
Proof.
  revert d2; induction d as [|[k0 v0] d IH]; intros [|[k2 v2] d2]; simpl;
    try discriminate; [auto|].
  intros [= -> Hkeys] (Hh & Hfresh & Hwf).
  repeat split; eauto using lookup_none_keys.
Qed.

End Facts.
End DictFacts.

Module Utf8Facts.
Import Py.
Local Open Scope N_scope.

Ltac arith := zify; Z.to_euclidean_division_equations; lia.

Lemma ord_bound (x : byte) : ord x <= 255.
Proof. apply Byte.to_N_bounded. Qed.

Lemma chr8_ord (x : byte) : chr8 (ord x) = x.
Proof. unfold chr8, ord. now rewrite Byte.of_to_N. Qed.

Lemma is_cont_range (x : byte) :
  is_cont x = true <-> 0x80 <= ord x <= 0xBF.
Proof.
  unfold is_cont. rewrite andb_true_iff, !N.leb_le. tauto.
Qed.

(** ** The encoder undoes each decoded character *)

Lemma encode1_ascii (b1 : byte) :
  ord b1 < 0x80 -> encode1 (ord b1) = Some [b1].
Proof.
  intro H1. unfold encode1.
  destruct (N.ltb_spec (ord b1) 0x80); [|lia].
  now rewrite chr8_ord.
Qed.

Lemma encode1_two (b1 b2 : byte) :
  0xC2 <= ord b1 < 0xE0 -> 0x80 <= ord b2 <= 0xBF ->
  encode1 (ord b1 * 64 + ord b2 - 0x3080) = Some [b1; b2].
Proof.
  intros H1 H2. unfold encode1.
  set (c := ord b1 * 64 + ord b2 - 0x3080).
  assert (Hc : 0x80 <= c < 0x800 /\ 0xC0 + c / 64 = ord b1
               /\ 0x80 + c mod 64 = ord b2) by (subst c; arith).
  destruct Hc as (Hr & -> & ->).
  destruct (N.ltb_spec c 0x80); [lia|].
  destruct (N.ltb_spec c 0x800); [|lia].
  now rewrite !chr8_ord.
Qed.

Lemma encode1_three (b1 b2 b3 : byte) :
  0xE0 <= ord b1 < 0xF0 -> 0x80 <= ord b2 <= 0xBF -> 0x80 <= ord b3 <= 0xBF ->
  (ord b2 < 0xA0 -> ord b1 <> 0xE0) ->
  (0xA0 <= ord b2 -> ord b1 <> 0xED) ->
  encode1 (ord b1 * 4096 + ord b2 * 64 + ord b3 - 0xE2080) = Some [b1; b2; b3].
Proof.
  intros H1 H2 H3 Hlow Hsur. unfold encode1.
  set (c := ord b1 * 4096 + ord b2 * 64 + ord b3 - 0xE2080).
  assert (Hc : 0x800 <= c < 0x10000 /\ (c < 0xD800 \/ 0xDFFF < c)
               /\ 0xE0 + c / 4096 = ord b1
               /\ 0x80 + (c / 64) mod 64 = ord b2
               /\ 0x80 + c mod 64 = ord b3) by (subst c; arith).
  destruct Hc as (Hr & Hs & -> & -> & ->).
  destruct (N.ltb_spec c 0x80); [lia|].
  destruct (N.ltb_spec c 0x800); [lia|].
  destruct (N.leb_spec 0xD800 c), (N.leb_spec c 0xDFFF); cbn [andb]; try lia;
    (destruct (N.ltb_spec c 0x10000); [|lia]); now rewrite !chr8_ord.
Qed.

Lemma encode1_four (b1 b2 b3 b4 : byte) :
  0xF0 <= ord b1 < 0xF5 -> 0x80 <= ord b2 <= 0xBF -> 0x80 <= ord b3 <= 0xBF ->
  0x80 <= ord b4 <= 0xBF ->
  (ord b2 < 0x90 -> ord b1 <> 0xF0) ->
  (0x90 <= ord b2 -> ord b1 <> 0xF4) ->
  encode1 (ord b1 * 262144 + ord b2 * 4096 + ord b3 * 64 + ord b4 - 0x3C82080)
  = Some [b1; b2; b3; b4].
Proof.
  intros H1 H2 H3 H4 Hlow Hhigh. unfold encode1.
  set (c := ord b1 * 262144 + ord b2 * 4096 + ord b3 * 64 + ord b4 - 0x3C82080).
  assert (Hc : 0x10000 <= c < 0x110000
               /\ 0xF0 + c / 262144 = ord b1
               /\ 0x80 + (c / 4096) mod 64 = ord b2
               /\ 0x80 + (c / 64) mod 64 = ord b3
               /\ 0x80 + c mod 64 = ord b4) by (subst c; arith).
  destruct Hc as (Hr & -> & -> & -> & ->).
  destruct (N.ltb_spec c 0x80); [lia|].
  destruct (N.ltb_spec c 0x800); [lia|].
  destruct (N.leb_spec 0xD800 c), (N.leb_spec c 0xDFFF); cbn [andb]; try lia;
    (destruct (N.ltb_spec c 0x10000); [lia|]);
    (destruct (N.ltb_spec c 0x110000); [|lia]); now rewrite !chr8_ord.
Qed.

(** ** The decoder accounts for every octet *)

Lemma sound_cons (i : item) (rest s : bytes) :
  well_read i -> s = octets i ++ rest -> sound rest ->
  Forall well_read (i :: utf8_items rest)
  /\ concat (map octets (i :: utf8_items rest)) = s.
Proof.
  intros Hi -> [Hall Hcat]. split; [now constructor|].
  cbn [map concat]. now rewrite Hcat.
Qed.

Lemma well_read_bad1 (b1 : byte) : 0x80 <= ord b1 -> well_read (Bad [b1]).
Proof. intro H1. split; [discriminate | repeat constructor; assumption]. Qed.

Lemma well_read_bad2 (b1 b2 : byte) :
  0x80 <= ord b1 -> 0x80 <= ord b2 -> well_read (Bad [b1; b2]).
Proof. intros H1 H2. split; [discriminate | repeat constructor; assumption]. Qed.

Lemma well_read_bad3 (b1 b2 b3 : byte) :
  0x80 <= ord b1 -> 0x80 <= ord b2 -> 0x80 <= ord b3 ->
  well_read (Bad [b1; b2; b3]).
Proof. intros H1 H2 H3. split; [discriminate | repeat constructor; assumption]. Qed.

Lemma sound_char (c : codepoint) (e rest : bytes) :
  encode1 c = Some e -> sound rest ->
  Forall well_read (Char c :: utf8_items rest)
  /\ concat (map octets (Char c :: utf8_items rest)) = e ++ rest.
Proof.
  intros He Hrest. apply sound_cons; [| |exact Hrest].
  - cbn [well_read]. now rewrite He.
  - cbn [octets]. now rewrite He.
Qed.

Lemma utf8_items_sound (s : bytes) : sound s.
Proof.
  assert (Hlen : forall n s, (List.length s <= n)%nat -> sound s).
  { clear s. induction n as [|n IH]; intros s Hn.
    - destruct s; [split; constructor | cbn in Hn; lia].
    - destruct s as [|b1 r1]; [split; constructor|].
      assert (IH1 : sound r1) by (apply IH; cbn in Hn; lia).
      unfold sound. cbn [utf8_items]. cbv zeta.
      destruct (N.ltb_spec (ord b1) 0x80) as [A1|A1].
      { apply (sound_char (ord b1) [b1] r1); [now apply encode1_ascii | exact IH1]. }
      destruct (N.ltb_spec (ord b1) 0xC2) as [A2|A2].
      { apply (sound_cons (Bad [b1]) r1); [now apply well_read_bad1 | reflexivity | exact IH1]. }
      destruct (N.ltb_spec (ord b1) 0xE0) as [A3|A3].
      { (* two octets *)
        destruct r1 as [|b2 r2].
        - apply (sound_cons (Bad [b1]) []);
            [now apply well_read_bad1 | reflexivity | split; constructor].
        - destruct (is_cont b2) eqn:C2.
          + apply is_cont_range in C2.
            apply (sound_char _ [b1; b2] r2); [now apply encode1_two|].
            apply IH. cbn in Hn |- *. lia.
          + apply (sound_cons (Bad [b1]) (b2 :: r2));
              [now apply well_read_bad1 | reflexivity | exact IH1]. }
      destruct (N.ltb_spec (ord b1) 0xF0) as [A4|A4].
      { (* three octets *)
        destruct r1 as [|b2 r2].
        - apply (sound_cons (Bad [b1]) []);
            [now apply well_read_bad1 | reflexivity | split; constructor].
        - assert (IH2 : sound r2) by (apply IH; cbn in Hn |- *; lia).
          destruct (is_cont b2) eqn:C2; cbn [negb orb];
            [|apply (sound_cons (Bad [b1]) (b2 :: r2));
              [now apply well_read_bad1 | reflexivity | exact IH1]].
          apply is_cont_range in C2.
          destruct (if ord b2 <? 0xA0 then ord b1 =? 0xE0 else ord b1 =? 0xED)
            eqn:R2;
            [apply (sound_cons (Bad [b1]) (b2 :: r2));
             [now apply well_read_bad1 | reflexivity | exact IH1]|].
          assert (Hlow : ord b2 < 0xA0 -> ord b1 <> 0xE0).
          { intros Hlt. destruct (N.ltb_spec (ord b2) 0xA0); [|lia].
            now apply N.eqb_neq. }
          assert (Hsur : 0xA0 <= ord b2 -> ord b1 <> 0xED).
          { intros Hge. destruct (N.ltb_spec (ord b2) 0xA0); [lia|].
            now apply N.eqb_neq. }
          destruct r2 as [|b3 r3].
          + apply (sound_cons (Bad [b1; b2]) []);
              [apply well_read_bad2; lia | reflexivity | split; constructor].
          + destruct (is_cont b3) eqn:C3.
            * apply is_cont_range in C3.
              apply (sound_char _ [b1; b2; b3] r3);
                [apply encode1_three; assumption || lia|].
              apply IH. cbn in Hn |- *. lia.
            * apply (sound_cons (Bad [b1; b2]) (b3 :: r3));
                [apply well_read_bad2; lia | reflexivity | exact IH2]. }
      destruct (N.ltb_spec (ord b1) 0xF5) as [A5|A5].
      { (* four octets *)
        destruct r1 as [|b2 r2].
        - apply (sound_cons (Bad [b1]) []);
            [now apply well_read_bad1 | reflexivity | split; constructor].
        - assert (IH2 : sound r2) by (apply IH; cbn in Hn |- *; lia).
          destruct (is_cont b2) eqn:C2; cbn [negb orb];
            [|apply (sound_cons (Bad [b1]) (b2 :: r2));
              [now apply well_read_bad1 | reflexivity | exact IH1]].
          apply is_cont_range in C2.
          destruct (if ord b2 <? 0x90 then ord b1 =? 0xF0 else ord b1 =? 0xF4)
            eqn:R2;
            [apply (sound_cons (Bad [b1]) (b2 :: r2));
             [now apply well_read_bad1 | reflexivity | exact IH1]|].
          assert (Hlow : ord b2 < 0x90 -> ord b1 <> 0xF0).
          { intros Hlt. destruct (N.ltb_spec (ord b2) 0x90); [|lia].
            now apply N.eqb_neq. }
          assert (Hhigh : 0x90 <= ord b2 -> ord b1 <> 0xF4).
          { intros Hge. destruct (N.ltb_spec (ord b2) 0x90); [lia|].
            now apply N.eqb_neq. }
          destruct r2 as [|b3 r3].
          + apply (sound_cons (Bad [b1; b2]) []);
              [apply well_read_bad2; lia | reflexivity | split; constructor].
          + assert (IH3 : sound r3) by (apply IH; cbn in Hn |- *; lia).
            destruct (is_cont b3) eqn:C3; cbn [negb];
              [|apply (sound_cons (Bad [b1; b2]) (b3 :: r3));
                [apply well_read_bad2; lia | reflexivity | exact IH2]].
            apply is_cont_range in C3.
            destruct r3 as [|b4 r4].
            * apply (sound_cons (Bad [b1; b2; b3]) []);
                [apply well_read_bad3; lia | reflexivity | split; constructor].
            * destruct (is_cont b4) eqn:C4.
              -- apply is_cont_range in C4.
                 apply (sound_char _ [b1; b2; b3; b4] r4);
                   [apply encode1_four; assumption || lia|].
                 apply IH. cbn in Hn |- *. lia.
              -- apply (sound_cons (Bad [b1; b2; b3]) (b4 :: r4));
                   [apply well_read_bad3; lia | reflexivity | exact IH3]. }
      apply (sound_cons (Bad [b1]) r1);
        [apply well_read_bad1; lia | reflexivity | exact IH1]. }
  apply (Hlen (List.length s)). lia.
Qed.

(** ** Encoding what was decoded *)

Lemma encode_app (e : errors) (s t : str) (a c : bytes) :
  encode e s = Some a -> encode e t = Some c -> encode e (s ++ t) = Some (a ++ c).
Proof.
  revert a; induction s as [|x s IH]; intros a; cbn [encode app].
  - intros [= <-] Ht. exact Ht.
  - intros Hs Ht.
    destruct (encode1 x) as [bs|].
    + destruct (encode e s) as [a'|]; [|discriminate]. cbn in Hs.
      injection Hs as <-. rewrite (IH a' eq_refl Ht). cbn.
      now rewrite app_assoc.
    + destruct e; [discriminate | now apply IH |].
      destruct ((0xDC80 <=? x) && (x <=? 0xDCFF)); [|discriminate].
      destruct (encode SurrogateEscape s) as [a'|]; [|discriminate]. cbn in Hs.
      injection Hs as <-. now rewrite (IH a' eq_refl Ht).
Qed.

Lemma encode_escaped (bs : bytes) :
  Forall (fun x => 0x80 <= ord x) bs ->
  encode SurrogateEscape (map (fun x => 0xDC00 + ord x) bs) = Some bs.
Proof.
  induction 1 as [|x bs Hx _ IH]; [reflexivity|].
  cbn [map encode]. pose proof (ord_bound x) as Hb.
  set (c := 0xDC00 + ord x).
  assert (Hc : 0xDC80 <= c <= 0xDCFF /\ c - 0xDC00 = ord x) by (subst c; lia).
  destruct Hc as (Hr & Hsub).
  assert (Hnone : encode1 c = None).
  { unfold encode1.
    destruct (N.ltb_spec c 0x80); [lia|].
    destruct (N.ltb_spec c 0x800); [lia|].
    destruct (N.leb_spec 0xD800 c), (N.leb_spec c 0xDFFF); cbn [andb];
      try lia; reflexivity. }
  rewrite Hnone.
  destruct (N.leb_spec 0xDC80 c), (N.leb_spec c 0xDCFF); cbn [andb]; try lia.
  rewrite IH, Hsub, chr8_ord. reflexivity.
Qed.

(** Under [surrogateescape] the items decode to a string that encodes
    back to their octets. *)
Lemma escape_items (l : list item) :
  Forall well_read l ->
  exists s, decode_items SurrogateEscape l = Some s
            /\ encode SurrogateEscape s = Some (concat (map octets l)).
Proof.
  induction 1 as [|[c|bs] l Hi _ (s & Hdec & Henc)].
  - now exists [].
  - exists (c :: s). cbn [decode_items map concat octets encode].
    rewrite Hdec. split; [reflexivity|].
    cbn [well_read] in Hi. destruct (encode1 c) as [e|]; [|contradiction].
    now rewrite Henc.
  - exists (map (fun x => 0xDC00 + ord x) bs ++ s).
    cbn [decode_items map concat octets]. rewrite Hdec. split; [reflexivity|].
    apply encode_app; [|exact Henc].
    apply encode_escaped. apply Hi.
Qed.

(** The characters among the items, and their octets. *)
Lemma ignore_items (l : list item) :
  Forall well_read l ->
  exists s kept,
    decode_items Ignore l = Some s
    /\ encode SurrogateEscape s = Some kept
    /\ (List.length kept <= List.length (concat (map octets l)))%nat
    /\ (decode_items Strict l = None ->
        (List.length kept < List.length (concat (map octets l)))%nat)
    /\ (decode_items Strict l <> None ->
        decode_items Strict l = Some s /\ kept = concat (map octets l)).
Proof.
  induction 1 as [|[c|bs] l Hi _ (s & kept & Hdec & Henc & Hle & Hlt & Heq)].
  - exists [], []. cbn.
    split; [reflexivity|]. split; [reflexivity|]. split; [lia|].
    split; [discriminate | intros _; split; reflexivity].
  - cbn [well_read] in Hi. destruct (encode1 c) as [e|] eqn:He; [|contradiction].
    exists (c :: s), (e ++ kept).
    cbn [decode_items map concat octets encode].
    rewrite Hdec, He, Henc. cbn [option_map].
    split; [reflexivity|]. split; [reflexivity|].
    split; [rewrite !length_app; lia|].
    destruct (decode_items Strict l) as [s'|]; cbn [option_map].
    + split; [discriminate|]. intros _.
      destruct Heq as [[= ->] ->]; [discriminate|]. split; reflexivity.
    + split; [|intro Hne; now elim Hne]. intros _.
      rewrite !length_app. specialize (Hlt eq_refl). lia.
  - exists s, kept. cbn [decode_items map concat octets].
    destruct Hi as [Hne _].
    split; [exact Hdec|]. split; [exact Henc|].
    split; [rewrite length_app; lia|].
    split; [|intro Hno; now elim Hno]. intros _.
    rewrite length_app. destruct bs; [contradiction|]. cbn [List.length]. lia.
Qed.

(** The [surrogateescape] pair of the request path loses nothing:
    every octet string decodes, and encodes back to itself. *)
Lemma surrogateescape_round_trip (s : bytes) :
  exists t, decode SurrogateEscape s = Some t
            /\ encode SurrogateEscape t = Some s.
Proof.
  destruct (utf8_items_sound s) as [Hall Hcat].
  destruct (escape_items _ Hall) as (t & Hdec & Henc).
  exists t. split; [exact Hdec|]. now rewrite Henc, Hcat.
Qed.

(** Decoding with [ignore] and encoding again gives the octets back
    exactly when they are valid UTF-8; otherwise octets are lost. *)
Lemma ignore_round_trip (s : bytes) :
  exists t kept,
    decode Ignore s = Some t
    /\ encode SurrogateEscape t = Some kept
    /\ (decode Strict s <> None -> kept = s)
    /\ (decode Strict s = None -> (List.length kept < List.length s)%nat).
Proof.
  destruct (utf8_items_sound s) as [Hall Hcat].
  destruct (ignore_items _ Hall) as (t & kept & Hdec & Henc & _ & Hlt & Heq).
  exists t, kept. unfold decode. rewrite Hcat in *.
  split; [exact Hdec|]. split; [exact Henc|].
  split; [|exact Hlt]. intro Hok. now destruct (Heq Hok).
Qed.

End Utf8Facts.

(* ================================================================== *)
(** * Lemmas: the server *)
(* ================================================================== *)

Module ServerFacts.
Import Py Json Server.

(** ** Field by field: what the small state updates leave alone *)

Lemma fold_say_fields (out : list log_entry) (st : t) :
  secret_key (fold_left say out st) = secret_key st
  /\ clients (fold_left say out st) = clients st
  /\ pending_requests (fold_left say out st) = pending_requests st
  /\ conns (fold_left say out st) = conns st
  /\ log (fold_left say out st) = log st ++ out.
Proof.
  revert st; induction out as [|e out IH]; intro st; simpl.
  - now rewrite app_nil_r.
  - destruct (IH (say st e)) as (Hk & Hc & Hp & Hn & Hl).
    rewrite Hk, Hc, Hp, Hn, Hl; simpl.
    rewrite <- app_assoc. auto.
Qed.

Lemma pending_say (st : t) (e : log_entry) :
  pending_requests (say st e) = pending_requests st.
Proof. reflexivity. Qed.

Lemma clients_say (st : t) (e : log_entry) : clients (say st e) = clients st.
Proof. reflexivity. Qed.

Lemma conns_say (st : t) (e : log_entry) : conns (say st e) = conns st.
Proof. reflexivity. Qed.

Lemma conns_same (st : t) (w : writer) (c : conn) :
  conns (with_conn st w c) w = c.
Proof. simpl. now rewrite Nat.eqb_refl. Qed.

Lemma conns_other (st : t) (w w' : writer) (c : conn) :
  w' <> w -> conns (with_conn st w c) w' = conns st w'.
Proof.
  intro Hne; simpl.
  destruct (Nat.eqb_spec w' w); [contradiction | reflexivity].
Qed.

Lemma closed_close (st : t) (w : writer) : closed (conns (close st w) w) = true.
Proof. unfold close. now rewrite conns_same. Qed.

Lemma sent_close (st : t) (w w' : writer) :
  sent (conns (close st w) w') = sent (conns st w').
Proof.
  unfold close; simpl.
  destruct (Nat.eqb_spec w' w) as [->|]; reflexivity.
Qed.

Lemma sent_write_same (st : t) (w : writer) (data : bytes) :
  sent (conns (write st w data) w) = sent (conns st w) ++ data.
Proof. unfold write. now rewrite conns_same. Qed.

Section WithLibraries.
Context `{Libraries}.

Lemma make_message_key (st st' : t) (request_data : value) :
  secret_key st' = secret_key st ->
  make_message st' request_data = make_message st request_data.
Proof.
  intro Hk. unfold make_message, create_signature. now rewrite Hk.
Qed.



(** ** The response path of [handle_client] *)

(** What [deliver] does to the connections and the dictionaries. *)
Lemma deliver_fields (st : t) (request_id response_data : value)
    (ww : writer) (fail_at : option N) :
  let st' := deliver st request_id response_data ww fail_at in
  secret_key st' = secret_key st
  /\ clients st' = clients st
  /\ pending_requests st' = pending_requests st
  /\ closed (conns st' ww) = true
  /\ (forall x, x <> ww -> conns st' x = conns st x).
Proof.
  assert (Hclose : forall st2 : t,
             secret_key st2 = secret_key st -> clients st2 = clients st ->
             pending_requests st2 = pending_requests st ->
             (forall x, x <> ww -> conns st2 x = conns st x) ->
             secret_key (close st2 ww) = secret_key st
             /\ clients (close st2 ww) = clients st
             /\ pending_requests (close st2 ww) = pending_requests st
             /\ closed (conns (close st2 ww) ww) = true
             /\ (forall x, x <> ww -> conns (close st2 ww) x = conns st x)).
  { intros st2 Hk2 Hc2 Hp2 Hn2. repeat split; simpl; try congruence.
    - now rewrite Nat.eqb_refl.
    - intros x Hx. rewrite <- (Hn2 x Hx).
      destruct (Nat.eqb_spec x ww); [contradiction | reflexivity]. }
  unfold deliver.
  destruct (get_default response_data (u "data") (JStr []))
    as [[|b0|q0|data|l0|items0]|]; try (now apply Hclose).
  destruct (encode SurrogateEscape data) as [response_content|];
    try (now apply Hclose).
  destruct (Chunked.send_all response_content fail_at) as [[[chunks out] ok]|];
    try (now apply Hclose).
  set (st1 := write (say st _) ww (concat chunks)).
  destruct (fold_say_fields (map progress out) st1) as (Hk & Hc & Hp & Hn & _).
  destruct ok; apply Hclose; simpl; try assumption;
    intros x Hx; rewrite Hn; simpl;
    (destruct (Nat.eqb_spec x ww); [contradiction | reflexivity]).
Qed.

(** With a [data] string that encodes and no failing write, [deliver]
    appends exactly the encoded octets. *)
Lemma deliver_verbatim (st : t) (request_id response_data : value)
    (ww : writer) (data : str) (content : bytes) :
  get_default response_data (u "data") (JStr []) = Some (JStr data) ->
  encode SurrogateEscape data = Some content ->
  sent (conns (deliver st request_id response_data ww None) ww)
  = sent (conns st ww) ++ content.
Proof.
  intros Hdata Henc. unfold deliver. rewrite Hdata, Henc.
  destruct (ChunkedFacts.send_all_verbatim content) as (chunks & out & Hrun & Hcat).
  rewrite Hrun, Hcat.
  rewrite sent_close.
  set (st1 := write (say st _) ww content).
  destruct (fold_say_fields (map progress out) st1) as (_ & _ & _ & Hn & _).
  simpl. rewrite Hn. unfold st1. now rewrite sent_write_same.
Qed.

(** [handle_frame] on a frame that got past the checks, by cases on
    the payload. *)
Lemma handle_frame_accepted (st : t) (w : writer) (f : frame)
    (response_data : value) :
  accepted st f response_data ->
  handle_frame st w f =
    match get response_data (u "type") with
    | None => (connection_failed st w, false)
    | Some type =>
        if eq_str type (u "register") then
          match get response_data (u "client_id") with
          | None => (connection_failed st w, false)
          | Some client_id =>
              if hashable client_id then
                (say (with_clients st (Dict.set client_id (w, now f) (clients st)))
                     (LogRegistered client_id), true)
              else (connection_failed st w, false)
          end
        else
          let st1 := with_clients st (touch w (now f) (clients st)) in
          match get response_data (u "request_id") with
          | None => (connection_failed st1 w, false)
          | Some request_id =>
              if hashable request_id then
                match Dict.lookup request_id (pending_requests st1) with
                | Some handler_info =>
                    (say (deliver (with_pending st1
                                     (Dict.del request_id (pending_requests st1)))
                                  request_id response_data
                                  (web_writer handler_info) (fail_at f))
                         (LogDone request_id), true)
                | None => (st1, true)
                end
              else (connection_failed st1 w, false)
          end
    end.
Proof.
  intros (signature & text & Hsig & Hver & Htext & Hload).
  unfold handle_frame. now rewrite Hsig, Hver, Htext, Hload.
Qed.

(** A frame that got past the checks, is no registration and names a
    pending id: the record goes, the public connection is closed, and
    the [data] string, encoded, is what it is sent when no write fails. *)
Lemma pending_response_delivered (st : t) (w : writer) (f : frame)
    (response_data type request_id : value) (handler_info : pending) :
  accepted st f response_data ->
  get response_data (u "type") = Some type ->
  eq_str type (u "register") = false ->
  get response_data (u "request_id") = Some request_id ->
  hashable request_id = true ->
  Dict.lookup request_id (pending_requests st) = Some handler_info ->
  let st' := fst (handle_frame st w f) in
  snd (handle_frame st w f) = true
  /\ pending_requests st' = Dict.del request_id (pending_requests st)
  /\ clients st' = touch w (now f) (clients st)
  /\ closed (conns st' (web_writer handler_info)) = true
  /\ (forall data content,
        get_default response_data (u "data") (JStr []) = Some (JStr data) ->
        encode SurrogateEscape data = Some content ->
        fail_at f = None ->
        sent (conns st' (web_writer handler_info))
        = sent (conns st (web_writer handler_info)) ++ content).
Proof.
  intros Hacc Htype Hreg Hrid Hhash Hpend st'; subst st'.
  rewrite (handle_frame_accepted _ _ _ _ Hacc), Htype, Hreg, Hrid, Hhash.
  cbn zeta. change (pending_requests (with_clients st _)) with (pending_requests st).
  rewrite Hpend.
  set (st2 := with_pending _ _).
  destruct (deliver_fields st2 request_id response_data
              (web_writer handler_info) (fail_at f))
    as (_ & Hc & Hp & Hclosed & _).
  cbn [fst snd]. rewrite pending_say, conns_say, clients_say.
  repeat split.
  - rewrite Hp. reflexivity.
  - rewrite Hc. reflexivity.
  - exact Hclosed.
  - intros data content Hdata Henc Hfail. rewrite Hfail.
    now rewrite (deliver_verbatim st2 _ _ _ _ _ Hdata Henc).
Qed.

(** C4, as amended.  Whether the tunnel connection ever registered
    plays no part in the response path: a validly signed response frame
    from a connection [w] that no client record holds is acted upon
    like any other.  Its pending record is removed, its [data] is
    written to the pending public connection, which is then closed, and
    the registry is left as it was. *)
Theorem unregistered_response_delivered (st : t) (w : writer) (f : frame)
    (response_data type request_id : value) (handler_info : pending)
    (data : str) (content : bytes) :
  (forall client_id client_writer last_seen,
      In (client_id, (client_writer, last_seen)) (clients st) ->
      client_writer <> w) ->
  accepted st f response_data ->
  get response_data (u "type") = Some type ->
  eq_str type (u "register") = false ->
  get response_data (u "request_id") = Some request_id ->
  hashable request_id = true ->
  Dict.lookup request_id (pending_requests st) = Some handler_info ->
  get_default response_data (u "data") (JStr []) = Some (JStr data) ->
  encode SurrogateEscape data = Some content ->
  fail_at f = None ->
  let st' := fst (handle_frame st w f) in
  sent (conns st' (web_writer handler_info))
  = sent (conns st (web_writer handler_info)) ++ content
  /\ closed (conns st' (web_writer handler_info)) = true
  /\ pending_requests st' = Dict.del request_id (pending_requests st)
  /\ clients st' = clients st.
Proof.
  intros Hunreg Hacc Htype Hreg Hrid Hhash Hpend Hdata Henc Hfail st'.
  destruct (pending_response_delivered st w f response_data type request_id
              handler_info Hacc Htype Hreg Hrid Hhash Hpend)
    as (_ & Hp & Hc & Hclosed & Hsent).
  subst st'.
  split; [now apply (Hsent data content)|].
  split; [exact Hclosed|]. split; [exact Hp|].
  rewrite Hc.
  clear -Hunreg. induction (clients st) as [|[k [cw ls]] d IH]; simpl; [reflexivity|].
  destruct (Nat.eqb_spec cw w) as [->|Hne].
  - exfalso. eapply Hunreg; [left; reflexivity | reflexivity].
  - f_equal. apply IH. intros k' cw' ls' Hin. eapply Hunreg. right. exact Hin.
Qed.

(** ** The end of a tunnel connection *)

Lemma drop_clients_fields (w : writer) (l : Dict.t (writer * time)) (st : t) :
  let st' := fold_left (drop_client w) l st in
  secret_key st' = secret_key st
  /\ pending_requests st' = pending_requests st
  /\ conns st' = conns st.
Proof.
  revert st; induction l as [|[k [cw ls]] l IH]; intro st; simpl; [auto|].
  destruct (Nat.eqb cw w).
  - destruct (IH (say (with_clients st (Dict.del k (clients st))) (LogCleaned k)))
      as (Hk & Hp & Hn). auto.
  - apply IH.
Qed.

Lemma drop_clients_filter (w : writer) (l pre : Dict.t (writer * time)) (st : t) :
  Dict.wf (pre ++ l) ->
  clients st = pre ++ l ->
  clients (fold_left (drop_client w) l st) = pre ++ filter (held_by_other w) l.
Proof.
  revert pre st; induction l as [|[k [cw ls]] l IH]; intros pre st Hwf Hst.
  - exact Hst.
  - cbn [fold_left drop_client filter].
    change (held_by_other w (k, (cw, ls))) with (negb (Nat.eqb cw w)).
    destruct (Nat.eqb cw w); cbn [negb].
    + apply IH.
      * eapply DictFacts.wf_remove_middle; eassumption.
      * rewrite clients_say. cbn [clients with_clients]. rewrite Hst.
        now apply DictFacts.del_middle.
    + replace (pre ++ (k, (cw, ls)) :: filter (held_by_other w) l)
        with ((pre ++ [(k, (cw, ls))]) ++ filter (held_by_other w) l)
        by (now rewrite <- app_assoc).
      apply IH; rewrite <- app_assoc; assumption.
Qed.

(** The [finally] block: the records held by [w] go, the others stay
    in their order; the pending table is not touched; [w] is closed. *)
Lemma finally_cleanup_spec (st : t) (w : writer) :
  Dict.wf (clients st) ->
  let st' := finally_cleanup st w in
  clients st' = filter (held_by_other w) (clients st)
  /\ pending_requests st' = pending_requests st
  /\ secret_key st' = secret_key st
  /\ closed (conns st' w) = true
  /\ (forall x, sent (conns st' x) = sent (conns st x))
  /\ (forall x, x <> w -> conns st' x = conns st x).
Proof.
  intros Hwf st'; subst st'; unfold finally_cleanup.
  destruct (drop_clients_fields w (clients st) st) as (Hk & Hp & Hn).
  repeat split.
  - change (clients (close ?s w)) with (clients s).
    now apply (drop_clients_filter w (clients st) [] st).
  - exact Hp.
  - exact Hk.
  - apply closed_close.
  - intro x. now rewrite sent_close, Hn.
  - intros x Hx. unfold close. rewrite conns_other by assumption. now rewrite Hn.
Qed.

Lemma touch_keys (w : writer) (now : time) (d : Dict.t (writer * time)) :
  map fst (touch w now d) = map fst d.
Proof.
  induction d as [|[k [cw ls]] d IH]; simpl; [reflexivity|].
  destruct (Nat.eqb cw w); simpl; now rewrite ?IH.
Qed.

Lemma touch_filter (w : writer) (now : time) (d : Dict.t (writer * time)) :
  filter (held_by_other w) (touch w now d) = filter (held_by_other w) d.
Proof.
  induction d as [|[k [cw ls]] d IH]; simpl; [reflexivity|].
  destruct (Nat.eqb cw w) eqn:E; cbn [filter].
  - change (held_by_other w (k, (w, now))) with (negb (Nat.eqb w w)).
    change (held_by_other w (k, (cw, ls))) with (negb (Nat.eqb cw w)).
    now rewrite Nat.eqb_refl, E.
  - change (held_by_other w (k, (cw, ls))) with (negb (Nat.eqb cw w)).
    rewrite E. cbn [negb]. now rewrite IH.
Qed.

Lemma wf_touch (w : writer) (now : time) (d : Dict.t (writer * time)) :
  Dict.wf d -> Dict.wf (touch w now d).
Proof. apply DictFacts.wf_keys. symmetry. apply touch_keys. Qed.

(** Where [handle_frame] ends the handler, it has run the exception
    path, at most after refreshing [last_seen]. *)
Lemma handle_frame_failed (st : t) (w : writer) (f : frame) :
  snd (handle_frame st w f) = false ->
  fst (handle_frame st w f) = connection_failed st w
  \/ fst (handle_frame st w f)
     = connection_failed (with_clients st (touch w (now f) (clients st))) w.
Proof.
  unfold handle_frame.
  repeat match goal with
         | |- context [match ?x with _ => _ end] => destruct x
         end;
    cbn [fst snd]; intro Hend; try discriminate Hend; auto.
Qed.

Lemma drop_clients_incl (w : writer) (l : Dict.t (writer * time)) (st : t) :
  incl (clients (fold_left (drop_client w) l st)) (clients st).
Proof.
  revert st; induction l as [|[k [cw ls]] l IH]; intro st;
    cbn [fold_left drop_client]; [apply incl_refl|].
  destruct (Nat.eqb cw w); [|apply IH].
  eapply incl_tran; [apply IH|].
  intros x Hx. eapply DictFacts.in_del. exact Hx.
Qed.

(** What the exception path of [handle_client] leaves alone. *)
Lemma connection_failed_fields (st : t) (w : writer) :
  pending_requests (connection_failed st w) = pending_requests st
  /\ (forall x, sent (conns (connection_failed st w) x) = sent (conns st x))
  /\ incl (clients (connection_failed st w)) (clients st)
  /\ closed (conns (connection_failed st w) w) = true.
Proof.
  unfold connection_failed, finally_cleanup.
  destruct (drop_clients_fields w (clients (say st LogClientError))
              (say st LogClientError)) as (_ & Hp & Hn).
  split; [exact Hp|]. split; [intro x; now rewrite sent_close, Hn|].
  split; [|apply closed_close].
  apply (drop_clients_incl w (clients st) (say st LogClientError)).
Qed.

Lemma drop_clients_log (w : writer) (l : Dict.t (writer * time)) (st : t) :
  exists more, log (fold_left (drop_client w) l st) = log st ++ more.
Proof.
  revert st; induction l as [|[k [cw ls]] l IH]; intro st; cbn [fold_left].
  - exists []. now rewrite app_nil_r.
  - cbn [drop_client]. destruct (Nat.eqb cw w).
    + destruct (IH (say (with_clients st (Dict.del k (clients st))) (LogCleaned k)))
        as (more & ->).
      exists (LogCleaned k :: more). cbn [log say with_clients].
      now rewrite <- app_assoc.
    + apply IH.
Qed.

(** What the [except] and [finally] clauses of lines 275-285 leave
    behind. *)
Lemma connection_failed_seen (st st0 : t) (w : writer) :
  pending_requests st0 = pending_requests st ->
  conns st0 = conns st ->
  closed (conns (connection_failed st0 w) w) = true
  /\ pending_requests (connection_failed st0 w) = pending_requests st
  /\ (forall x, sent (conns (connection_failed st0 w) x) = sent (conns st x))
  /\ In LogClientError (log (connection_failed st0 w)).
Proof.
  intros Hp Hn.
  destruct (connection_failed_fields st0 w) as (Hp' & Hs' & _ & Hc').
  split; [exact Hc'|]. split; [now rewrite Hp'|].
  split; [intro x; now rewrite Hs', Hn|].
  unfold connection_failed, finally_cleanup.
  change (log (close ?s w)) with (log s).
  destruct (drop_clients_log w (clients (say st0 LogClientError))
              (say st0 LogClientError)) as (more & ->).
  cbn [log say]. apply in_or_app. left. apply in_or_app. right. now left.
Qed.

(** C8, as amended.  What becomes of a validly signed frame, by its
    payload.  A payload that is no UTF-8 text, or on which [json.loads]
    raises another error than [JSONDecodeError], raises: the handler
    ends with the error printed and its connection closed, and the
    pending table is as before.  A payload that is no JSON is printed
    as such and passed over.  A payload that parses and is no
    registration: when it is no object, or its [request_id] cannot be a
    dictionary key, it raises as above; when its [request_id] is
    pending, the record is removed and the public connection closed,
    and the [data] string, encoded, is what that connection is sent
    when no write fails; when its [request_id] is not pending (also
    for a second response to an id already answered) the pending table
    and the connections stay as they are and nothing is printed. *)
Theorem response_frame_correlated (st : t) (w : writer) (f : frame)
    (signature : str) :
  decode Strict (signature_data f) = Some signature ->
  verify_signature st (json_data f) signature = Some true ->
  let st' := fst (handle_frame st w f) in
  let go_on := snd (handle_frame st w f) in
  let raised :=
    go_on = false
    /\ closed (conns st' w) = true
    /\ pending_requests st' = pending_requests st
    /\ (forall x, sent (conns st' x) = sent (conns st x))
    /\ In LogClientError (log st') in
  match decode Strict (json_data f) with
  | None => raised
  | Some text =>
      match json_loads text with
      | OtherError => raised
      | JSONDecodeError => go_on = true /\ st' = say st LogJsonError
      | Loaded response_data =>
          is_register response_data = false ->
          match get response_data (u "request_id") with
          | None => raised
          | Some request_id =>
              if hashable request_id then
                match Dict.lookup request_id (pending_requests st) with
                | Some handler_info =>
                    go_on = true
                    /\ pending_requests st'
                       = Dict.del request_id (pending_requests st)
                    /\ (Dict.wf (pending_requests st) ->
                        Dict.lookup request_id (pending_requests st') = None)
                    /\ closed (conns st' (web_writer handler_info)) = true
                    /\ (forall data content,
                          get_default response_data (u "data") (JStr [])
                            = Some (JStr data) ->
                          encode SurrogateEscape data = Some content ->
                          fail_at f = None ->
                          sent (conns st' (web_writer handler_info))
                          = sent (conns st (web_writer handler_info)) ++ content)
                | None =>
                    go_on = true
                    /\ pending_requests st' = pending_requests st
                    /\ conns st' = conns st
                    /\ log st' = log st
                end
              else raised
          end
      end
  end.
Proof.
  intros Hsig Hver. cbv zeta.
  assert (Hraised : forall st0,
             pending_requests st0 = pending_requests st ->
             conns st0 = conns st ->
             handle_frame st w f = (connection_failed st0 w, false) ->
             snd (handle_frame st w f) = false
             /\ closed (conns (fst (handle_frame st w f)) w) = true
             /\ pending_requests (fst (handle_frame st w f)) = pending_requests st
             /\ (forall x, sent (conns (fst (handle_frame st w f)) x)
                           = sent (conns st x))
             /\ In LogClientError (log (fst (handle_frame st w f)))).
  { intros st0 Hp Hn ->. cbn [fst snd]. split; [reflexivity|].
    now apply connection_failed_seen. }
  destruct (decode Strict (json_data f)) as [text|] eqn:Htext.
  2:{ apply (Hraised st); try reflexivity.
      unfold handle_frame. now rewrite Hsig, Hver, Htext. }
  destruct (json_loads text) as [response_data| |] eqn:Hload.
  - intro Hreg.
    assert (Hacc : accepted st f response_data)
      by (exists signature, text; repeat split; assumption).
    unfold is_register in Hreg.
    destruct (get response_data (u "request_id")) as [request_id|] eqn:Hrid.
    + destruct (get response_data (u "type")) as [type|] eqn:Htype.
      2:{ destruct response_data; discriminate. }
      destruct (hashable request_id) eqn:Hhash.
      * destruct (Dict.lookup request_id (pending_requests st))
          as [handler_info|] eqn:Hl.
        -- destruct (pending_response_delivered st w f response_data type
                       request_id handler_info Hacc Htype Hreg Hrid Hhash Hl)
             as (Hgo & Hp & _ & Hclosed & Hsent).
           repeat split; try assumption.
           intro Hwf. rewrite Hp. now apply DictFacts.lookup_del_same.
        -- rewrite (handle_frame_accepted _ _ _ _ Hacc), Htype, Hreg, Hrid, Hhash.
           cbn zeta.
           change (pending_requests (with_clients st _)) with (pending_requests st).
           rewrite Hl. repeat split.
      * apply (Hraised (with_clients st (touch w (now f) (clients st))));
          try reflexivity.
        now rewrite (handle_frame_accepted _ _ _ _ Hacc), Htype, Hreg, Hrid, Hhash.
    + apply (Hraised st); try reflexivity.
      rewrite (handle_frame_accepted _ _ _ _ Hacc).
      destruct response_data; try reflexivity. discriminate.
  - unfold handle_frame. rewrite Hsig, Hver, Htext, Hload. now split.
  - apply (Hraised st); try reflexivity.
    unfold handle_frame. now rewrite Hsig, Hver, Htext, Hload.
Qed.

(** C3, as amended.  A frame whose signature does not verify is dropped
    before any field of the payload is looked at: the pending table
    stays as it was, no connection is written to and no client record
    is created.  When the comparison of the signatures says [False],
    the failure is printed and that is all: the tunnel connection is
    not closed and the loop goes on to the next frame.  The connection
    is closed only when the signature cannot be compared at all (it is
    not UTF-8, or not ASCII), which raises and ends the handler. *)
Theorem bad_signature_dropped (st : t) (w : writer) (f : frame) :
  ~ (exists signature,
        decode Strict (signature_data f) = Some signature
        /\ verify_signature st (json_data f) signature = Some true) ->
  let st' := fst (handle_frame st w f) in
  pending_requests st' = pending_requests st
  /\ (forall x, sent (conns st' x) = sent (conns st x))
  /\ incl (clients st') (clients st)
  /\ ((exists signature,
          decode Strict (signature_data f) = Some signature
          /\ verify_signature st (json_data f) signature = Some false) ->
      handle_frame st w f = (say st LogBadSignature, true)
      /\ closed (conns st' w) = closed (conns st w))
  /\ (~ (exists signature,
            decode Strict (signature_data f) = Some signature
            /\ verify_signature st (json_data f) signature = Some false) ->
      snd (handle_frame st w f) = false /\ closed (conns st' w) = true).
Proof.
  intros Hbad st'; subst st'.
  destruct (connection_failed_fields st w) as (Hp & Hs & Hc & Hcl).
  unfold handle_frame.
  destruct (decode Strict (signature_data f)) as [signature|].
  - destruct (verify_signature st (json_data f) signature) as [[]|] eqn:Hver.
    + exfalso. apply Hbad. now exists signature.
    + cbn [fst snd].
      split; [reflexivity|]. split; [reflexivity|]. split; [apply incl_refl|].
      split; [intros _; split; reflexivity|].
      intro Hno. exfalso. apply Hno. now exists signature.
    + cbn [fst snd].
      split; [exact Hp|]. split; [exact Hs|]. split; [exact Hc|].
      split; [|intros _; split; [reflexivity | exact Hcl]].
      intros (signature' & [= <-] & Hfalse). rewrite Hver in Hfalse.
      discriminate Hfalse.
  - cbn [fst snd].
    split; [exact Hp|]. split; [exact Hs|]. split; [exact Hc|].
    split; [|intros _; split; [reflexivity | exact Hcl]].
    intros (signature' & Hnone & _). discriminate Hnone.
Qed.

(** C7, as amended.  When the handler of a tunnel connection [w] ends,
    for whatever reason, every client record that holds [w] is removed
    (the others stay, in their order) and [w] is closed; the pending
    table is left exactly as it was, whichever connection its requests
    were forwarded over, and no public connection is written to. *)
Theorem connection_end_cleanup (st : t) (e : event) (w : writer) :
  wf st ->
  ends st e w ->
  let st' := step st e in
  clients st' = filter (held_by_other w) (clients st)
  /\ closed (conns st' w) = true
  /\ pending_requests st' = pending_requests st
  /\ (forall x, sent (conns st' x) = sent (conns st x))
  /\ (forall x, x <> w -> closed (conns st' x) = closed (conns st x)).
Proof.
  intros [Hwf _] Hends st'; subst st'.
  assert (Hfin : forall st1 : t,
             Dict.wf (clients st1) ->
             filter (held_by_other w) (clients st1)
             = filter (held_by_other w) (clients st) ->
             pending_requests st1 = pending_requests st ->
             conns st1 = conns st ->
             clients (finally_cleanup st1 w) = filter (held_by_other w) (clients st)
             /\ closed (conns (finally_cleanup st1 w) w) = true
             /\ pending_requests (finally_cleanup st1 w) = pending_requests st
             /\ (forall x, sent (conns (finally_cleanup st1 w) x) = sent (conns st x))
             /\ (forall x, x <> w ->
                   closed (conns (finally_cleanup st1 w) x) = closed (conns st x))).
  { intros st1 Hwf1 Hf Hp Hn.
    destruct (finally_cleanup_spec st1 w Hwf1) as (Hc' & Hp' & _ & Hcl & Hs & Ho).
    split; [congruence|]. split; [exact Hcl|]. split; [congruence|]. split.
    - intro x. now rewrite Hs, Hn.
    - intros x Hx. now rewrite (Ho x Hx), Hn. }
  destruct Hends as [-> | [-> | (f & -> & Hend)]]; cbn [step].
  - now apply Hfin.
  - now apply Hfin.
  - destruct (handle_frame_failed st w f Hend) as [-> | ->]; apply Hfin;
      try reflexivity; try assumption.
    + now apply wf_touch.
    + apply touch_filter.
Qed.

(** ** Every step, case by case *)

(** The five ways a turn of the loop of [handle_client] can go. *)
Lemma handle_frame_cases (st : t) (w : writer) (f : frame) :
  let st' := fst (handle_frame st w f) in
  let st1 := with_clients st (touch w (now f) (clients st)) in
  (st' = say st LogBadSignature \/ st' = say st LogJsonError)
  \/ (st' = connection_failed st w \/ st' = connection_failed st1 w)
  \/ (exists response_data client_id,
        accepted st f response_data /\ hashable client_id = true
        /\ st' = say (with_clients st
                        (Dict.set client_id (w, now f) (clients st)))
                     (LogRegistered client_id))
  \/ st' = st1
  \/ (exists response_data request_id handler_info,
        accepted st f response_data
        /\ is_register response_data = false
        /\ get response_data (u "request_id") = Some request_id
        /\ hashable request_id = true
        /\ Dict.lookup request_id (pending_requests st) = Some handler_info
        /\ st' = say (deliver (with_pending st1
                                 (Dict.del request_id (pending_requests st)))
                              request_id response_data
                              (web_writer handler_info) (fail_at f))
                     (LogDone request_id)).
Proof.
  cbv zeta. unfold handle_frame.
  destruct (decode Strict (signature_data f)) as [signature|] eqn:Hsig; [|auto].
  destruct (verify_signature st (json_data f) signature) as [[]|] eqn:Hver;
    [|auto|auto].
  destruct (decode Strict (json_data f)) as [text|] eqn:Htext; [|auto].
  destruct (json_loads text) as [response_data| |] eqn:Hload; [|auto|auto].
  assert (Hacc : accepted st f response_data)
    by (exists signature, text; auto).
  destruct (get response_data (u "type")) as [type|] eqn:Htype; [|auto].
  destruct (eq_str type (u "register")) eqn:Hreg.
  - destruct (get response_data (u "client_id")) as [client_id|]; [|auto].
    destruct (hashable client_id) eqn:Hh; [|auto].
    right; right; left. exists response_data, client_id. auto.
  - destruct (get response_data (u "request_id")) as [request_id|] eqn:Hrid;
      [|auto].
    destruct (hashable request_id) eqn:Hh; [|auto].
    change (pending_requests (with_clients st _)) with (pending_requests st).
    destruct (Dict.lookup request_id (pending_requests st)) as [handler_info|] eqn:Hl.
    + do 4 right. exists response_data, request_id, handler_info.
      repeat split; auto.
      unfold is_register. now rewrite Htype.
    + auto.
Qed.

Lemma forget_clients_fields (l : list value) (st : t) :
  let st' := fold_left forget_client l st in
  secret_key st' = secret_key st
  /\ pending_requests st' = pending_requests st
  /\ conns st' = conns st
  /\ (Dict.wf (clients st) -> Dict.wf (clients st')).
Proof.
  revert st; induction l as [|k l IH]; intro st; cbn [fold_left]; [auto|].
  destruct (IH (forget_client st k)) as (Hk & Hp & Hn & Hwf).
  repeat split; auto.
  intro Hst. apply Hwf. cbn. now apply DictFacts.wf_del.
Qed.

(** [handle_web_request] leaves the registry alone and at most adds one
    record to the pending table; it closes no connection but its own. *)
Lemma handle_web_request_fields (st : t) (w : writer) (i : web_input) :
  let st' := handle_web_request st w i in
  secret_key st' = secret_key st
  /\ clients st' = clients st
  /\ (pending_requests st' = pending_requests st
      \/ exists id handler_info,
           hashable id = true
           /\ pending_requests st'
              = Dict.set id handler_info (pending_requests st))
  /\ (forall x, x <> w -> closed (conns st' x) = closed (conns st x)).
Proof.
  cbv zeta. unfold handle_web_request.
  destruct (read_request _ _ _ _) as [out r].
  destruct (fold_say_fields out st) as (Hk & Hc & Hp & Hn & _).
  set (st0 := fold_left say out st) in *.
  assert (Hclosed : forall (st2 : t) ok data,
             (forall x, closed (conns st2 x) = closed (conns st x)) ->
             forall x, x <> w ->
               closed (conns (close (try_write st2 w ok data) w) x)
               = closed (conns st x)).
  { intros st2 ok data Hsame x Hx. rewrite <- Hsame.
    unfold close, try_write, write. destruct ok; cbn [conns with_conn];
      destruct (Nat.eqb_spec x w); try contradiction; reflexivity. }
  assert (Hn0 : forall x, closed (conns st0 x) = closed (conns st x))
    by (intro x; now rewrite Hn).
  destruct r as [request_data|].
  - unfold forward_to_client.
    destruct (make_message st0 request_data) as [[json_size message]|].
    + cbn [clients say]. rewrite Hc.
      destruct (clients st) as [|[k0 [client_writer ls0]] d0].
      * repeat split; try (destruct (web_ok i); cbn; assumption).
        -- left. destruct (web_ok i); cbn; assumption.
        -- apply Hclosed. exact Hn0.
      * assert (Hwritten : forall x,
                   closed (conns (write (say (say st0 (LogJsonSize json_size))
                                             (LogMessageSize (len message)))
                                        client_writer message) x)
                   = closed (conns st x)).
        { intro x. rewrite <- Hn0. unfold write. cbn [conns with_conn say].
          destruct (Nat.eqb_spec x client_writer) as [->|]; reflexivity. }
        destruct (tunnel_ok i).
        -- destruct (getitem request_data (u "id")) as [id|].
           ++ destruct (hashable id) eqn:Hh.
              ** repeat split; try (cbn; assumption).
                 --- right. eexists id, _. split; [exact Hh|].
                     cbn. now rewrite Hp.
                 --- intros x Hx. cbn [conns say with_pending].
                     apply Hwritten.
              ** repeat split; try (destruct (web_ok i); cbn; assumption).
                 --- left. destruct (web_ok i); cbn; assumption.
                 --- apply Hclosed. intro x. cbn [conns say]. apply Hwritten.
           ++ repeat split; try (destruct (web_ok i); cbn; assumption).
              ** left. destruct (web_ok i); cbn; assumption.
              ** apply Hclosed. intro x. cbn [conns say]. apply Hwritten.
        -- repeat split; try (destruct (web_ok i); cbn; assumption).
           ++ left. destruct (web_ok i); cbn; assumption.
           ++ apply Hclosed. exact Hn0.
    + repeat split; try (destruct (web_ok i); cbn; assumption).
      * left. destruct (web_ok i); cbn; assumption.
      * apply Hclosed. exact Hn0.
  - repeat split; try (destruct (web_ok i); cbn; assumption).
    + left. destruct (web_ok i); cbn; assumption.
    + apply Hclosed. exact Hn0.
Qed.

Lemma finally_cleanup_fields (st : t) (w : writer) :
  let st' := finally_cleanup st w in
  secret_key st' = secret_key st
  /\ pending_requests st' = pending_requests st
  /\ (forall x, x <> w -> conns st' x = conns st x).
Proof.
  cbv zeta. unfold finally_cleanup.
  destruct (drop_clients_fields w (clients st) st) as (Hk & Hp & Hn).
  repeat split; try assumption.
  intros x Hx. unfold close. rewrite conns_other by assumption. now rewrite Hn.
Qed.

(** A step removes the pending record of [k] only if it is a frame that
    answers [k]. *)
Lemma step_keeps_pending (st : t) (e : event) (k : value) :
  Dict.mem k (pending_requests st) = true ->
  Dict.mem k (pending_requests (step st e)) = false ->
  answers st e k.
Proof.
  intros Hin Hout.
  assert (Hsame : forall st' : t,
             pending_requests st' = pending_requests st ->
             Dict.mem k (pending_requests st') = false -> False)
    by (intros st' Hp; rewrite Hp, Hin; discriminate).
  destruct e as [w i|w|w f|w|w|current_time]; cbn [step] in Hout.
  - exfalso.
    destruct (handle_web_request_fields st w i) as (_ & _ & [Hp|Hp] & _).
    + exact (Hsame _ Hp Hout).
    + destruct Hp as (id & handler_info & _ & Hp). rewrite Hp in Hout.
      unfold Dict.mem in *.
      destruct (key_eqb k id) eqn:E.
      * now rewrite DictFacts.lookup_set_same in Hout.
      * rewrite DictFacts.lookup_set_other in Hout by assumption.
        rewrite Hout in Hin. discriminate.
  - exfalso. exact (Hsame _ eq_refl Hout).
  - destruct (handle_frame_cases st w f)
      as [[Hst|Hst] | [[Hst|Hst] | [Hst | [Hst | Hst]]]].
    + exfalso. rewrite Hst in Hout. exact (Hsame _ eq_refl Hout).
    + exfalso. rewrite Hst in Hout. exact (Hsame _ eq_refl Hout).
    + exfalso. rewrite Hst in Hout. unfold connection_failed in Hout.
      destruct (finally_cleanup_fields (say st LogClientError) w) as (_ & Hp & _).
      exact (Hsame _ Hp Hout).
    + exfalso. rewrite Hst in Hout. unfold connection_failed in Hout.
      match type of Hout with
      | context [finally_cleanup ?s w] =>
          destruct (finally_cleanup_fields s w) as (_ & Hp & _)
      end.
      exact (Hsame _ Hp Hout).
    + exfalso. destruct Hst as (rd & cid & _ & _ & Hst).
      rewrite Hst in Hout. exact (Hsame _ eq_refl Hout).
    + exfalso. rewrite Hst in Hout. exact (Hsame _ eq_refl Hout).
    + destruct Hst as (rd & rid & handler_info & Hacc & Hreg & Hrid & Hh & Hl & Hst).
      exists w, f, rd, rid. repeat split; try assumption.
      destruct (key_eqb k rid) eqn:E; [reflexivity|exfalso].
      rewrite Hst, pending_say in Hout.
      match type of Hout with
      | context [deliver ?s ?a ?b ?c ?d] =>
          destruct (deliver_fields s a b c d) as (_ & _ & Hp & _)
      end.
      rewrite Hp in Hout. cbn [pending_requests with_pending] in Hout.
      unfold Dict.mem in *.
      rewrite DictFacts.lookup_del_other in Hout by assumption.
      rewrite Hout in Hin. discriminate.
  - exfalso. unfold connection_closed in Hout.
    match type of Hout with
    | context [finally_cleanup ?s w] =>
        destruct (finally_cleanup_fields s w) as (_ & Hp & _)
    end.
    exact (Hsame _ Hp Hout).
  - exfalso. unfold connection_failed in Hout.
    match type of Hout with
    | context [finally_cleanup ?s w] =>
        destruct (finally_cleanup_fields s w) as (_ & Hp & _)
    end.
    exact (Hsame _ Hp Hout).
  - exfalso. unfold cleanup_inactive_clients in Hout.
    match type of Hout with
    | context [fold_left forget_client ?l st] =>
        destruct (forget_clients_fields l st) as (_ & Hp & _)
    end.
    exact (Hsame _ Hp Hout).
Qed.

(** A step closes the connection [ww] only if it concerns [ww]. *)
Lemma step_keeps_open (st : t) (e : event) (ww : writer) :
  closed (conns st ww) = false ->
  closed (conns (step st e) ww) = true ->
  concerns st e ww.
Proof.
  intros Hopen Hclosed.
  assert (Hsame : forall st' : t,
             (ww <> ww -> False) ->
             closed (conns st' ww) = closed (conns st ww) ->
             closed (conns st' ww) = true -> False)
    by (intros st' _ Hn; rewrite Hn, Hopen; discriminate).
  assert (Hfin : forall (st1 : t) w,
             conns st1 = conns st ->
             closed (conns (finally_cleanup st1 w) ww) = true -> w = ww).
  { intros st1 w Hn Hc. destruct (Nat.eq_dec w ww) as [|Hne]; [assumption|exfalso].
    destruct (finally_cleanup_fields st1 w) as (_ & _ & Ho).
    rewrite Ho, Hn, Hopen in Hc by auto. discriminate. }
  destruct e as [w i|w|w f|w|w|current_time]; cbn [step] in Hclosed.
  - left. cbn. destruct (Nat.eq_dec w ww) as [|Hne]; [assumption|exfalso].
    destruct (handle_web_request_fields st w i) as (_ & _ & _ & Ho).
    rewrite Ho, Hopen in Hclosed by auto. discriminate.
  - exfalso. cbn in Hclosed. rewrite Hopen in Hclosed. discriminate.
  - destruct (handle_frame_cases st w f)
      as [[Hst|Hst] | [[Hst|Hst] | [Hst | [Hst | Hst]]]].
    + exfalso. rewrite Hst in Hclosed. cbn in Hclosed. congruence.
    + exfalso. rewrite Hst in Hclosed. cbn in Hclosed. congruence.
    + left. cbn. rewrite Hst in Hclosed. eapply Hfin; [|exact Hclosed]. reflexivity.
    + left. cbn. rewrite Hst in Hclosed. eapply Hfin; [|exact Hclosed]. reflexivity.
    + exfalso. destruct Hst as (rd & cid & _ & _ & Hst).
      rewrite Hst in Hclosed. cbn in Hclosed. congruence.
    + exfalso. rewrite Hst in Hclosed. cbn in Hclosed. congruence.
    + destruct Hst as (rd & rid & handler_info & Hacc & Hreg & Hrid & Hh & Hl & Hst).
      right. exists rid, handler_info. repeat split; try assumption.
      * exists w, f, rd, rid. repeat split; try assumption.
        now apply DictFacts.key_eqb_refl.
      * destruct (Nat.eq_dec (web_writer handler_info) ww) as [|Hne];
          [assumption|exfalso].
        rewrite Hst, conns_say in Hclosed.
        match type of Hclosed with
        | context [deliver ?s ?a ?b ?c ?d] =>
            destruct (deliver_fields s a b c d) as (_ & _ & _ & _ & Ho)
        end.
        rewrite Ho in Hclosed by auto. cbn in Hclosed. congruence.
  - left. cbn. eapply Hfin; [|exact Hclosed]. reflexivity.
  - left. cbn. eapply Hfin; [|exact Hclosed]. reflexivity.
  - exfalso. unfold cleanup_inactive_clients in Hclosed.
    match type of Hclosed with
    | context [fold_left forget_client ?l st] =>
        destruct (forget_clients_fields l st) as (_ & _ & Hn & _)
    end.
    rewrite Hn, Hopen in Hclosed. discriminate.
Qed.

(** C10.  A pending record goes only when a validly signed frame names
    its id, and the public connection it holds is closed only by a step
    that concerns it: no sweep, no deadline and no teardown of a tunnel
    connection does either.  So along any trace without such a frame
    the record stays in the table, and along any trace without a step
    that concerns the public connection, that connection stays open. *)
Theorem pending_record_persists (st : t) (k : value) (handler_info : pending) :
  Dict.lookup k (pending_requests st) = Some handler_info ->
  closed (conns st (web_writer handler_info)) = false ->
  (forall e, Dict.mem k (pending_requests (step st e)) = false -> answers st e k)
  /\ (forall e, closed (conns (step st e) (web_writer handler_info)) = true ->
                concerns st e (web_writer handler_info))
  /\ (forall trace,
        never (fun s e => answers s e k) st trace ->
        Dict.mem k (pending_requests (run st trace)) = true)
  /\ (forall trace,
        never (fun s e => concerns s e (web_writer handler_info)) st trace ->
        closed (conns (run st trace) (web_writer handler_info)) = false).
Proof.
  intros Hl Hopen.
  assert (Hin : Dict.mem k (pending_requests st) = true)
    by (unfold Dict.mem; now rewrite Hl).
  clear Hl. generalize dependent (web_writer handler_info). intros ww Hopen.
  repeat split.
  - intro e. now apply step_keeps_pending.
  - intro e. now apply step_keeps_open.
  - intro trace. clear Hopen. revert st Hin.
    induction trace as [|e trace IH]; intros st Hin Hnever; [exact Hin|].
    destruct Hnever as [Hno Hnever]. cbn [run fold_left]. apply IH; [|exact Hnever].
    destruct (Dict.mem k (pending_requests (step st e))) eqn:E; [reflexivity|].
    exfalso. apply Hno. now apply step_keeps_pending.
  - intro trace. clear Hin. revert st Hopen.
    induction trace as [|e trace IH]; intros st Hopen Hnever; [exact Hopen|].
    destruct Hnever as [Hno Hnever]. cbn [run fold_left]. apply IH; [|exact Hnever].
    destruct (closed (conns (step st e) ww)) eqn:E; [|reflexivity].
    exfalso. apply Hno. now apply step_keeps_open.
Qed.

(** ** The public side *)

Lemma read_request_shape (stream : bytes) (id : str) (now : time)
    (peername : value) out request_data :
  read_request stream id now peername = (out, Some request_data) ->
  getitem request_data (u "id") = Some (JStr id).
Proof.
  unfold read_request.
  repeat match goal with
         | |- context [match ?x with _ => _ end] => destruct x
         end; intros [= _ <-]; reflexivity.
Qed.

(** What [handle_web_request] writes to its own connection is one of
    its four canned answers or nothing. *)
Lemma handle_web_request_writes (st : t) (w : writer) (i : web_input) :
  (forall client_id client_writer last_seen,
      In (client_id, (client_writer, last_seen)) (clients st) ->
      client_writer <> w) ->
  exists data,
    In data own_responses
    /\ sent (conns (handle_web_request st w i) w) = sent (conns st w) ++ data.
Proof.
  intro Hpublic. unfold handle_web_request.
  destruct (read_request _ _ _ _) as [out r].
  destruct (fold_say_fields out st) as (Hk & Hc & Hp & Hn & _).
  set (st0 := fold_left say out st) in *.
  assert (Hanswer : forall (st2 : t) ok data,
             In data own_responses ->
             sent (conns st2 w) = sent (conns st w) ->
             exists data',
               In data' own_responses
               /\ sent (conns (close (try_write st2 w ok data) w) w)
                  = sent (conns st w) ++ data').
  { intros st2 ok data Hin Hs. rewrite sent_close. destruct ok; cbn [try_write].
    - exists data. split; [exact Hin|]. now rewrite sent_write_same, Hs.
    - exists []. split; [now left|]. now rewrite Hs, app_nil_r. }
  assert (Hs0 : sent (conns st0 w) = sent (conns st w)) by now rewrite Hn.
  destruct r as [request_data|].
  - unfold forward_to_client.
    destruct (make_message st0 request_data) as [[json_size message]|].
    + cbn [clients say]. rewrite Hc.
      destruct (clients st) as [|[k0 [client_writer ls0]] d0] eqn:Hcl.
      * apply Hanswer; [cbn; tauto | exact Hs0].
      * assert (Hne : client_writer <> w)
          by (eapply Hpublic; left; reflexivity).
        assert (Hwritten :
                 sent (conns (write (say (say st0 (LogJsonSize json_size))
                                         (LogMessageSize (len message)))
                                    client_writer message) w)
                 = sent (conns st w)).
        { rewrite <- Hs0. unfold write. cbn [conns with_conn say].
          destruct (Nat.eqb_spec w client_writer); [congruence | reflexivity]. }
        destruct (tunnel_ok i).
        -- destruct (getitem request_data (u "id")) as [id|].
           ++ destruct (hashable id).
              ** exists []. split; [now left|]. rewrite app_nil_r.
                 cbn [conns say with_pending]. exact Hwritten.
              ** apply Hanswer; [cbn; tauto | exact Hwritten].
           ++ apply Hanswer; [cbn; tauto | exact Hwritten].
        -- apply Hanswer; [cbn; tauto | exact Hs0].
    + apply Hanswer; [cbn; tauto | exact Hs0].
  - apply Hanswer; [cbn; tauto | exact Hs0].
Qed.

(** A request that was read and framed, with a client registered and
    the tunnel taking the write, is forwarded to the first client and
    recorded as pending; the public connection stays as it is. *)
Lemma web_request_forwarded (st : t) (w : writer) (i : web_input)
    out request_data json_size message client_id client_writer last_seen others :
  client_writer <> w ->
  read_request (stream i) (uuid4 i) (time_request i) (peername i)
    = (out, Some request_data) ->
  make_message st request_data = Some (json_size, message) ->
  clients st = (client_id, (client_writer, last_seen)) :: others ->
  tunnel_ok i = true ->
  let st' := handle_web_request st w i in
  sent (conns st' client_writer) = sent (conns st client_writer) ++ message
  /\ Dict.lookup (JStr (uuid4 i)) (pending_requests st')
     = Some {| web_writer := w; timestamp := time_forward i |}
  /\ conns st' w = conns st w.
Proof.
  intros Hne Hread Hmsg Hcl Hok st'.
  subst st'. unfold handle_web_request. rewrite Hread.
  destruct (fold_say_fields out st) as (Hk & Hc & Hp & Hn & _).
  set (st0 := fold_left say out st) in *.
  unfold forward_to_client.
  rewrite (make_message_key st st0 request_data Hk), Hmsg.
  cbn [clients say]. rewrite Hc, Hcl, Hok.
  rewrite (read_request_shape _ _ _ _ _ _ Hread). cbn [hashable].
  cbn [conns pending_requests say with_pending write with_conn].
  rewrite Nat.eqb_refl, Hn, Hp.
  destruct (Nat.eqb_spec w client_writer) as [E|_]; [congruence|].
  repeat split.
  apply DictFacts.lookup_set_same. apply DictFacts.key_eqb_refl. reflexivity.
Qed.

(** C5, as amended.  The server has no case for [Transfer-Encoding]:
    a request that declares a chunked body is handled like any other.
    It is never answered [501]: what the server writes to the public
    connection is nothing, a [500] or the [503].  Its header block is
    read, and when no [Content-Length] line gives a length nothing of
    the body is; that block alone is the [data] of the request frame,
    which, with a client registered and the tunnel taking the write, is
    forwarded to the first client of the registry and recorded as
    pending, while the public connection is left as it was. *)
Theorem chunked_request_not_rejected (st : t) (w : writer) (i : web_input) :
  declares_chunked (stream i) = true ->
  (forall client_id client_writer last_seen,
      In (client_id, (client_writer, last_seen)) (clients st) ->
      client_writer <> w) ->
  let st' := handle_web_request st w i in
  (exists data,
      In data own_responses
      /\ sent (conns st' w) = sent (conns st w) ++ data
      /\ startswith byte_eqb (b "HTTP/1.1 501") data = false)
  /\ (exists headers_data rest headers_str data,
        readuntil (2 ^ 20) (crlf_b ++ crlf_b) (stream i) = Some (headers_data, rest)
        /\ decode Ignore headers_data = Some headers_str
        /\ decode SurrogateEscape headers_data = Some data
        /\ (scan_content_length (split N.eqb crlf headers_str) = Some 0%Z ->
            let request_data :=
              JObj [(u "id", JStr (uuid4 i));
                    (u "timestamp", JNum (time_request i));
                    (u "data", JStr data);
                    (u "client_addr", peername i)] in
            forall json_size message client_id client_writer last_seen others,
              make_message st request_data = Some (json_size, message) ->
              clients st = (client_id, (client_writer, last_seen)) :: others ->
              tunnel_ok i = true ->
              sent (conns st' client_writer)
              = sent (conns st client_writer) ++ message
              /\ Dict.lookup (JStr (uuid4 i)) (pending_requests st')
                 = Some {| web_writer := w; timestamp := time_forward i |}
              /\ conns st' w = conns st w)).
Proof.
  intros Hchunked Hpublic st'. split.
  - destruct (handle_web_request_writes st w i Hpublic) as (data & Hin & Hsent).
    exists data. repeat split; [exact Hin | exact Hsent |].
    cbn in Hin.
    destruct Hin as [<-|[<-|[<-|[<-|[]]]]]; vm_compute; reflexivity.
  - unfold declares_chunked in Hchunked.
    destruct (readuntil (2 ^ 20) (crlf_b ++ crlf_b) (stream i))
      as [[headers_data rest]|] eqn:Hread; [|discriminate].
    destruct (decode Ignore headers_data) as [headers_str|] eqn:Hstr;
      [|discriminate].
    destruct (PyFacts.decode_total SurrogateEscape headers_data) as (data & Hdata);
      [discriminate|].
    exists headers_data, rest, headers_str, data.
    split; [first [exact Hread | reflexivity]|].
    split; [exact Hstr|]. split; [exact Hdata|].
    intros Hscan request_data json_size message client_id client_writer
           last_seen others Hmsg Hcl Hok.
    apply (web_request_forwarded st w i
             [LogContentLength 0; LogBodySize 0] request_data
             json_size message client_id client_writer last_seen others);
      try assumption.
    + eapply Hpublic. rewrite Hcl. left. reflexivity.
    + unfold read_request. rewrite Hread, Hstr, Hscan.
      cbn [Z.ltb Z.compare]. rewrite app_nil_r, Hdata. reflexivity.
Qed.

(** ** Reachable states *)

Lemma wf_init (key : bytes) : wf (init key).
Proof. split; exact I. Qed.

Lemma wf_finally_cleanup (st : t) (w : writer) :
  wf st -> wf (finally_cleanup st w).
Proof.
  intros [Hc Hp].
  destruct (finally_cleanup_spec st w Hc) as (Hc' & Hp' & _).
  split; [|now rewrite Hp'].
  rewrite Hc'. clear -Hc.
  induction (clients st) as [|[k v] d IH]; cbn [filter]; [exact I|].
  destruct Hc as (Hh & Hfresh & Hwf).
  assert (Hnone : forall d' : Dict.t (writer * time),
             Dict.lookup k d' = None ->
             Dict.lookup k (filter (held_by_other w) d') = None).
  { clear. induction d' as [|[k' v'] d' IH']; cbn [filter Dict.lookup]; [auto|].
    destruct (key_eqb k k') eqn:E; [discriminate|]. intro Hd.
    destruct (held_by_other w (k', v')); cbn [Dict.lookup];
      rewrite ?E; auto. }
  destruct (held_by_other w (k, v)); [|now apply IH].
  cbn [Dict.wf]. auto.
Qed.

(** Every step keeps both dictionaries well formed. *)
Lemma step_wf (st : t) (e : event) : wf st -> wf (step st e).
Proof.
  intros [Hc Hp].
  destruct e as [w i|w|w f|w|w|current_time]; cbn [step].
  - destruct (handle_web_request_fields st w i) as (_ & Hc' & Hp' & _).
    split; [now rewrite Hc'|].
    destruct Hp' as [->| (id & handler_info & Hh & ->)]; [assumption|].
    now apply DictFacts.wf_set.
  - split; assumption.
  - destruct (handle_frame_cases st w f)
      as [[->| ->] | [[->| ->] | [Hst | [->| Hst]]]].
    + split; assumption.
    + split; assumption.
    + apply wf_finally_cleanup. split; assumption.
    + apply wf_finally_cleanup. split; [now apply wf_touch | assumption].
    + destruct Hst as (rd & cid & _ & Hh & ->).
      split; [|assumption]. cbn. now apply DictFacts.wf_set.
    + split; [now apply wf_touch | assumption].
    + destruct Hst as (rd & rid & handler_info & _ & _ & _ & _ & _ & ->).
      match goal with
      | |- context [deliver ?s ?a ?b ?c ?d] =>
          destruct (deliver_fields s a b c d) as (_ & Hc' & Hp' & _)
      end.
      split.
      * rewrite clients_say, Hc'. cbn. now apply wf_touch.
      * rewrite pending_say, Hp'. cbn. now apply DictFacts.wf_del.
  - apply wf_finally_cleanup. split; assumption.
  - apply wf_finally_cleanup. split; assumption.
  - unfold cleanup_inactive_clients.
    match goal with
    | |- context [fold_left forget_client ?l st] =>
        destruct (forget_clients_fields l st) as (_ & Hp' & _ & Hc')
    end.
    split; [now apply Hc' | now rewrite Hp'].
Qed.

Lemma run_wf (trace : list event) (st : t) : wf st -> wf (run st trace).
Proof.
  revert st; induction trace as [|e trace IH]; intros st Hwf; [exact Hwf|].
  cbn [run fold_left]. apply IH. now apply step_wf.
Qed.

End WithLibraries.

(** ** The theorems at work on the payloads of [Examples] *)

Import Examples.

Lemma accepted_response1 (st : t) :
  secret_key st = key ->
  accepted (H := fragment) st (frame_of response1_digest response1_text) response1.
Proof.
  intro Hk. exists response1_digest, response1_text.
  unfold verify_signature. rewrite Hk. repeat split; vm_compute; reflexivity.
Qed.

Lemma server2_public :
  forall client_id client_writer last_seen,
    In (client_id, (client_writer, last_seen)) (clients server2) ->
    client_writer <> 2.
Proof.
  intros client_id client_writer last_seen Hin. vm_compute in Hin.
  destruct Hin as [[= _ <- _]|[]]. discriminate.
Qed.

Lemma server1_public :
  forall client_id client_writer last_seen,
    In (client_id, (client_writer, last_seen)) (clients server1) ->
    client_writer <> 10.
Proof.
  intros client_id client_writer last_seen Hin. vm_compute in Hin.
  destruct Hin as [[= _ <- _]|[]]. discriminate.
Qed.



(** C3 refuted: a frame signed for another payload arrives on the
    tunnel connection 1.  Verification fails, yet the connection is not
    closed, and the registration that follows on it is accepted. *)
Lemma bad_signature_keeps_connection :
  let st := run (H := fragment) server0
              [TunnelOpen 1; TunnelFrame 1 forged;
               TunnelFrame 1 (frame_of register_digest register_text)] in
  verify_signature (H := fragment) server0 (json_data forged) response1_digest
  = Some false
  /\ closed (conns (step (H := fragment) server0 (TunnelFrame 1 forged)) 1) = false
  /\ closed (conns st 1) = false
  /\ clients st = [(JStr (u "c1"), (1, 1003%Q))].
Proof. vm_compute. repeat split. Qed.

(** C3 as amended, at work on the same frame. *)
Lemma bad_signature_dropped_witness :
  handle_frame (H := fragment) server0 1 forged = (say server0 LogBadSignature, true)
  /\ closed (conns (fst (handle_frame (H := fragment) server0 1 forged)) 1) = false.
Proof.
  assert (Hsig : decode Strict (signature_data forged) = Some response1_digest)
    by (vm_compute; reflexivity).
  assert (Hver : verify_signature (H := fragment) server0 (json_data forged)
                   response1_digest = Some false)
    by (vm_compute; reflexivity).
  assert (Hbad : ~ (exists signature,
                       decode Strict (signature_data forged) = Some signature
                       /\ verify_signature (H := fragment) server0
                            (json_data forged) signature = Some true)).
  { intros (signature & Hs & Ht). rewrite Hsig in Hs. injection Hs as <-.
    rewrite Hver in Ht. discriminate Ht. }
  destruct (bad_signature_dropped (H := fragment) server0 1 forged Hbad)
    as (_ & _ & _ & Hfalse & _).
  apply Hfalse. exists response1_digest. split; assumption.
Defined.

(** A signature that is no UTF-8 text cannot be compared: the handler
    ends and the connection is closed. *)
Lemma unreadable_signature_ends_handler :
  let r := handle_frame (H := fragment) server0 1
             {| signature_data := [xff]; json_data := wire register_text;
                now := 1003%Q; fail_at := None |} in
  snd r = false /\ closed (conns (fst r) 1) = true /\ clients (fst r) = [].
Proof. vm_compute. repeat split. Qed.

(** C4 refuted: connection 1 registers and is forwarded the request of
    the public connection 10; connection 2, which never registered,
    sends the signed response.  The server writes it to connection 10. *)
Lemma unregistered_response_acted_upon :
  let st := run (H := fragment) server0
              (one_pending
                 ++ [TunnelOpen 2;
                     TunnelFrame 2 (frame_of response1_digest response1_text)]) in
  map (fun item => fst (snd item)) (clients st) = [1]
  /\ sent (conns st 10) = wire ok_response
  /\ closed (conns st 10) = true.
Proof. vm_compute. repeat split. Qed.

(** C4 as amended, at work on that frame. *)
Lemma unregistered_response_delivered_witness :
  let st' := fst (handle_frame (H := fragment) server2 2
                    (frame_of response1_digest response1_text)) in
  sent (conns st' 10) = wire ok_response
  /\ closed (conns st' 10) = true
  /\ pending_requests st' = []
  /\ clients st' = clients server2.
Proof.
  intro st'.
  pose proof (unregistered_response_delivered (H := fragment) server2 2
                (frame_of response1_digest response1_text)
                response1 JNull (JStr id1)
                {| web_writer := 10; timestamp := 1001%Q |}
                ok_response (wire ok_response)
                server2_public
                (accepted_response1 server2 eq_refl)
                eq_refl eq_refl eq_refl eq_refl) as W.
  destruct W as (Hs & Hc & Hp & Hcl);
    try (vm_compute; reflexivity).
  subst st'. split; [exact Hs|]. split; [exact Hc|]. split; [|exact Hcl].
  rewrite Hp. vm_compute. reflexivity.
Defined.

(** C5 refuted: with a client registered on connection 1, the public
    connection 10 sends a [POST] that declares a chunked body.  Nothing
    is written back to it, [501] or else; the header block goes out to
    the client in a request frame and the request is recorded as
    pending. *)
Lemma chunked_request_forwarded :
  let i := web (wire post_chunked_head ++ chunked_body) id1 in
  let st' := handle_web_request (H := fragment) server1 10 i in
  declares_chunked (stream i) = true
  /\ sent (conns st' 10) = []
  /\ closed (conns st' 10) = false
  /\ sent (conns st' 1)
     = [x00; x00; x00; x40] ++ wire chunked_digest ++ wire chunked_text
  /\ Dict.mem (JStr id1) (pending_requests st') = true.
Proof. vm_compute. repeat split. Qed.

(** C5 as amended, at work on that request. *)
Lemma chunked_request_not_rejected_witness :
  let i := web (wire post_chunked_head ++ chunked_body) id1 in
  let st' := handle_web_request (H := fragment) server1 10 i in
  exists data,
    In data own_responses
    /\ sent (conns st' 10) = sent (conns server1 10) ++ data
    /\ startswith byte_eqb (b "HTTP/1.1 501") data = false.
Proof.
  intros i st'.
  assert (Hchunked : declares_chunked (stream i) = true)
    by (vm_compute; reflexivity).
  exact (proj1 (chunked_request_not_rejected (H := fragment) server1 10 i
                  Hchunked server1_public)).
Defined.

(** C7 refuted: the request of the public connection 10 has been
    forwarded over the tunnel connection 1, which then ends.  The
    client record goes; the pending record stays and connection 10
    stays open. *)
Lemma pending_survives_teardown :
  let st := run (H := fragment) server0 (one_pending ++ [TunnelEOF 1]) in
  clients st = []
  /\ closed (conns st 1) = true
  /\ Dict.lookup (JStr id1) (pending_requests st)
     = Some {| web_writer := 10; timestamp := 1001%Q |}
  /\ closed (conns st 10) = false.
Proof. vm_compute. repeat split. Qed.

(** C7 as amended, at work on that end of connection 1. *)
Lemma connection_end_cleanup_witness :
  let st' := step (H := fragment) server2 (TunnelEOF 1) in
  clients st' = filter (held_by_other 1) (clients server2)
  /\ closed (conns st' 1) = true
  /\ pending_requests st' = pending_requests server2.
Proof.
  intro st'.
  assert (Hwf : wf server2) by (apply run_wf, wf_init).
  assert (Hends : ends (H := fragment) server2 (TunnelEOF 1) 1) by (left; reflexivity).
  destruct (connection_end_cleanup (H := fragment) server2 (TunnelEOF 1) 1 Hwf Hends)
    as (Hc & Hcl & Hp & _).
  exact (conj Hc (conj Hcl Hp)).
Defined.

(** C8 refuted: a signed response arrives for an id that is not
    pending.  It is dropped, and nothing is printed. *)
Lemma unknown_response_not_logged :
  let f := frame_of response2_digest response2_text in
  let st' := fst (handle_frame (H := fragment) server2 1 f) in
  verify_signature (H := fragment) server2 (json_data f) response2_digest = Some true
  /\ Dict.mem (JStr id2) (pending_requests server2) = false
  /\ pending_requests st' = pending_requests server2
  /\ log st' = log server2.
Proof. vm_compute. repeat split. Qed.

(** C8 as amended, at work: the response for the pending id, and then
    the same response once more. *)
Lemma response_frame_correlated_witness :
  let f := frame_of response1_digest response1_text in
  let st' := fst (handle_frame (H := fragment) server2 1 f) in
  let st'' := fst (handle_frame (H := fragment) st' 1 f) in
  (pending_requests st' = Dict.del (JStr id1) (pending_requests server2)
   /\ closed (conns st' 10) = true
   /\ sent (conns st' 10) = sent (conns server2 10) ++ wire ok_response)
  /\ (pending_requests st'' = pending_requests st'
      /\ conns st'' = conns st'
      /\ log st'' = log st').
Proof.
  intros f st' st''.
  assert (Hsig : decode Strict (signature_data f) = Some response1_digest)
    by (vm_compute; reflexivity).
  assert (Htext : decode Strict (json_data f) = Some response1_text)
    by (vm_compute; reflexivity).
  assert (Hload : json_loads (Libraries := fragment) response1_text
                  = Loaded response1)
    by (vm_compute; reflexivity).
  assert (Hver1 : verify_signature (H := fragment) server2 (json_data f)
                    response1_digest = Some true)
    by (vm_compute; reflexivity).
  assert (Hver2 : verify_signature (H := fragment) st' (json_data f)
                    response1_digest = Some true)
    by (vm_compute; reflexivity).
  pose proof (response_frame_correlated (H := fragment) server2 1 f
                response1_digest Hsig Hver1) as W1.
  pose proof (response_frame_correlated (H := fragment) st' 1 f
                response1_digest Hsig Hver2) as W2.
  cbv zeta in W1, W2. rewrite Htext, Hload in W1, W2.
  specialize (W1 eq_refl). specialize (W2 eq_refl).
  change (get response1 (u "request_id")) with (Some (JStr id1)) in W1, W2.
  cbn [hashable] in W1, W2.
  replace (Dict.lookup (JStr id1) (pending_requests server2))
    with (Some {| web_writer := 10; timestamp := 1001%Q |}) in W1
    by (vm_compute; reflexivity).
  replace (Dict.lookup (JStr id1) (pending_requests st')) with (@None pending) in W2
    by (vm_compute; reflexivity).
  destruct W1 as (_ & Hp & _ & Hcl & Hs).
  destruct W2 as (_ & Hp2 & Hn2 & Hl2).
  split.
  - split; [exact Hp|]. split; [exact Hcl|].
    apply (Hs ok_response (wire ok_response)); vm_compute; reflexivity.
  - exact (conj Hp2 (conj Hn2 Hl2)).
Defined.

(** C10 at work: the request of connection 10 is pending; a sweep long
    after, the end of the tunnel connection and a new tunnel connection
    leave the record in the table and connection 10 open. *)
Lemma pending_record_persists_witness :
  let trace := [Sweep 5000%Q; TunnelEOF 1; TunnelOpen 3] in
  let st := run (H := fragment) server2 trace in
  Dict.mem (JStr id1) (pending_requests st) = true
  /\ closed (conns st 10) = false.
Proof.
  intros trace st.
  assert (Hl : Dict.lookup (JStr id1) (pending_requests server2)
               = Some {| web_writer := 10; timestamp := 1001%Q |})
    by (vm_compute; reflexivity).
  assert (Hopen : closed (conns server2 10) = false) by (vm_compute; reflexivity).
  destruct (pending_record_persists (H := fragment) server2 (JStr id1) _ Hl Hopen)
    as (_ & _ & Hrecord & Hconn).
  split.
  - apply Hrecord. cbn [never].
    repeat split; intros (w & f & rd & rid & Heq & _); discriminate Heq.
  - apply (Hconn trace). cbn [never].
    repeat split;
      (intros [Hon | (k & h & (w & f & rd & rid & Heq & _) & _)];
       [cbn in Hon; try contradiction; discriminate Hon | discriminate Heq]).
Defined.

End ServerFacts.

(* ================================================================== *)
(** * Lemmas: the client *)
(* ================================================================== *)

Module ClientFacts.
Import Py Json Client.

Section WithLibraries.
Context `{Libraries}.
Variable local_api : http_request -> local_result.

(** ** Requests that are no HTTP requests *)

(** The two [ValueError]s are the only ways a malformed request leaves
    the parser. *)
Lemma try_forward_malformed (self : t) (request_data : value)
    (raw_request lib_text : str) :
  getitem request_data (u "data") = Some (JStr raw_request) ->
  malformed raw_request = true ->
  exists text,
    (text = no_header_end \/ text = bad_request_line)
    /\ try_forward local_api self request_data lib_text = ([], inr text).
Proof.
  intros Hdata Hbad. unfold try_forward. rewrite Hdata.
  unfold malformed in Hbad.
  destruct (find N.eqb (crlf ++ crlf) raw_request) as [header_end_index|].
  - exists bad_request_line. split; [now right|].
    cbv zeta.
    destruct (split N.eqb (u " ")
                (hd [] (split N.eqb crlf (take header_end_index raw_request))))
      as [|method [|path [|http_version parts]]]; try reflexivity.
    cbn in Hbad. discriminate Hbad.
  - exists no_header_end. split; [now left | reflexivity].
Qed.

(** Without a failing write, a response that can be framed goes out
    whole, in one frame. *)
Lemma send_response_whole (self : t) (response_data : value) (message : bytes) :
  make_message self response_data = Some message ->
  send_response_to_server self response_data None = [Send message].
Proof.
  intro Hmsg. unfold send_response_to_server. rewrite Hmsg.
  destruct (ChunkedFacts.send_all_verbatim message) as (chunks & out & -> & ->).
  reflexivity.
Qed.

(** C6, as amended.  A request frame whose [data] is malformed as an
    HTTP request (no blank line, or a start line of fewer than three
    parts) is answered without a call to the local service, with a
    synthesised [HTTP/1.1 500] response, never a [400], and that
    response is what is sent back in the response frame for the
    request id. *)
Theorem malformed_request_answered_500 (self : t) (request_data id : value)
    (raw_request : str) (f : frame) :
  getitem request_data (u "id") = Some id ->
  getitem request_data (u "data") = Some (JStr raw_request) ->
  malformed raw_request = true ->
  exists text,
    let response_data :=
      JObj [(u "request_id", id); (u "data", JStr (error_response text))] in
    (text = no_header_end \/ text = bad_request_line)
    /\ forward_request_to_local_api local_api self request_data (error_text f)
       = ([], Some response_data)
    /\ startswith N.eqb (u "HTTP/1.1 500 Internal Server Error" ++ crlf)
                  (error_response text) = true
    /\ startswith N.eqb (u "HTTP/1.1 400") (error_response text) = false
    /\ handle_request local_api self request_data f
       = send_response_to_server self response_data (fail_at f)
    /\ (forall message,
          make_message self response_data = Some message ->
          fail_at f = None ->
          handle_request local_api self request_data f = [Send message]).
Proof.
  intros Hid Hdata Hbad.
  destruct (try_forward_malformed self request_data raw_request (error_text f)
              Hdata Hbad) as (text & Htext & Htry).
  exists text. cbv zeta.
  assert (Hfwd : forward_request_to_local_api local_api self request_data
                   (error_text f)
                 = ([], Some (JObj [(u "request_id", id);
                                    (u "data", JStr (error_response text))]))).
  { unfold forward_request_to_local_api. now rewrite Hid, Htry. }
  assert (Hreq : handle_request local_api self request_data f
                 = send_response_to_server self
                     (JObj [(u "request_id", id);
                            (u "data", JStr (error_response text))])
                     (fail_at f)).
  { unfold handle_request. now rewrite Hfwd. }
  repeat split; try assumption.
  intros message Hmsg Hfail. rewrite Hreq, Hfail.
  now apply send_response_whole.
Qed.

(** ** One request after the other *)

Lemma handle_request_shape (self : t) (request_data : value) (f : frame) :
  one_at_a_time (handle_request local_api self request_data f).
Proof.
  unfold handle_request, forward_request_to_local_api.
  destruct (getitem request_data (u "id")) as [id|]; [|now left].
  assert (Hcalls : fst (try_forward local_api self request_data (error_text f)) = []
                   \/ exists r,
                        fst (try_forward local_api self request_data (error_text f))
                        = [CallLocal r]).
  { unfold try_forward.
    repeat match goal with
           | |- context [match ?x with _ => _ end] => destruct x
           end; cbn [fst]; eauto. }
  destruct (try_forward local_api self request_data (error_text f)) as [calls r].
  cbn [fst] in Hcalls.
  set (response_data := JObj _).
  assert (Hsend : send_response_to_server self response_data (fail_at f) = []
                  \/ exists m,
                       send_response_to_server self response_data (fail_at f)
                       = [Send m]).
  { unfold send_response_to_server.
    destruct (make_message self response_data) as [message|]; [|now left].
    destruct (Chunked.send_all message (fail_at f)) as [[[chunks out] ok]|];
      eauto. }
  unfold one_at_a_time.
  destruct Hcalls as [-> | (r0 & ->)], Hsend as [-> | (m & ->)]; cbn [app]; eauto.
  right; right; right. eauto.
Qed.


End WithLibraries.

(** ** The theorems at work on the payloads of [Examples] *)

Import Examples.

(** C6 refuted: the request frame carries a request cut before its
    blank line.  The response frame carries a [500], not a [400]. *)
Lemma truncated_request_answered_500 :
  malformed get_truncated = true
  /\ receive_messages (H := fragment) healthy tunnel_client
       [to_client truncated_digest truncated_text]
     = [Send (framed error500_digest error500_text)]
  /\ getitem error500 (u "data")
     = Some (JStr (u "HTTP/1.1 500 Internal Server Error" ++ crlf
                     ++ u "Content-Type: text/plain" ++ crlf ++ crlf
                     ++ u "Error forwarding request to local API: "
                     ++ no_header_end)).
Proof. vm_compute. repeat split. Qed.

(** C6 as amended, at work on that frame. *)
Lemma malformed_request_answered_500_witness :
  handle_request (H := fragment) healthy tunnel_client truncated
    (to_client truncated_digest truncated_text)
  = [Send (framed error500_digest error500_text)].
Proof.
  destruct (malformed_request_answered_500 (H := fragment) healthy tunnel_client
              truncated (JStr id1) get_truncated
              (to_client truncated_digest truncated_text)
              eq_refl eq_refl eq_refl)
    as (text & [Htext|Htext] & Hfwd & _ & _ & _ & Hsent).
  - apply Hsent; [|reflexivity]. subst text. vm_compute. reflexivity.
  - exfalso. subst text. vm_compute in Hfwd. discriminate Hfwd.
Defined.


(** ** The response body, from the local service to the public side *)

(** Whatever the local service answers, the public connection is sent
    the head of the response and then the body as it comes out of the
    decoding of line 204 and the encoding of line 239 of the server:
    the body itself when it is valid UTF-8, fewer octets when it is
    not. *)
Lemma response_body_fidelity (st : Server.t) (request_id : value)
    (ww : Server.writer) (r : http_response) (head : bytes) :
  encode SurrogateEscape (response_head r) = Some head ->
  let response_data :=
    JObj [(u "request_id", request_id); (u "data", JStr (response_text r))] in
  exists body,
    Server.sent (Server.conns (Server.deliver st request_id response_data ww None) ww)
    = Server.sent (Server.conns st ww) ++ head ++ body
    /\ (decode Strict (response_body r) <> None -> body = response_body r)
    /\ (decode Strict (response_body r) = None ->
        (List.length body < List.length (response_body r))%nat).
Proof.
  intros Hhead response_data.
  destruct (Utf8Facts.ignore_round_trip (response_body r))
    as (t & kept & Hdec & Henc & Hsame & Hless).
  exists kept. split; [|split; assumption].
  apply (ServerFacts.deliver_verbatim st request_id response_data ww
           (response_text r)); [reflexivity|].
  unfold response_text. rewrite Hdec.
  now apply Utf8Facts.encode_app.
Qed.

(** A text body: the response of the local service reaches the public
    connection octet for octet ... *)
Lemma text_body_through_tunnel :
  through_tunnel healthy (wire get_health) = wire ok_response
  /\ body_of (through_tunnel healthy (wire get_health)) = Some (b "ok").
Proof. vm_compute. split; reflexivity. Qed.

(** C1 refuted by the code: the local service answers with a body
    that is not UTF-8, the one octet [0xFF].  What the public connection
    receives is the header block with an empty body: the octet went in
    the decoding of line 204 ([errors='ignore']), where the
    [surrogateescape] of the request path would have kept it. *)
Lemma binary_body_lost :
  decode Ignore [xff] = Some []
  /\ decode SurrogateEscape [xff] = Some [0xDCFF%N]
  /\ encode SurrogateEscape [0xDCFF%N] = Some [xff]
  /\ through_tunnel binary (wire get_health) = wire headers_only
  /\ body_of (through_tunnel binary (wire get_health)) = Some []
  /\ body_of (through_tunnel binary (wire get_health)) <> Some [xff].
Proof. vm_compute. repeat split. discriminate. Qed.

End ClientFacts.

(* ================================================================== *)
(** * Lemmas: frames on the wire *)
(* ================================================================== *)

Module FramingFacts.
Import Py Json Framing.
Local Open Scope N_scope.

Lemma ord_chr8 (n : N) : n < 256 -> ord (chr8 n) = n.
Proof.
  intro Hn. unfold chr8, ord.
  destruct (Byte.of_N n) as [x|] eqn:E.
  - now apply Byte.to_of_N.
  - apply Byte.of_N_None_iff in E. lia.
Qed.

Lemma take_app_exact {A} (a c : list A) : take (Chunked.len a) (a ++ c) = a.
Proof.
  rewrite PyFacts.take_firstn. unfold Chunked.len. rewrite Nat2N.id.
  rewrite firstn_app, Nat.sub_diag, firstn_all. cbn. apply app_nil_r.
Qed.

Lemma drop_app_exact {A} (a c : list A) : drop (Chunked.len a) (a ++ c) = c.
Proof.
  rewrite PyFacts.drop_skipn. unfold Chunked.len. rewrite Nat2N.id.
  rewrite skipn_app, Nat.sub_diag, skipn_all. reflexivity.
Qed.

Lemma len_app {A} (a c : list A) :
  Chunked.len (a ++ c) = Chunked.len a + Chunked.len c.
Proof. unfold Chunked.len. rewrite length_app. lia. Qed.

(** The four octets of [to_bytes] read back as the number. *)
Lemma from_to_bytes4 (n : N) (prefix : bytes) :
  Server.to_bytes4 n = Some prefix ->
  from_bytes prefix = n /\ Chunked.len prefix = 4.
Proof.
  unfold Server.to_bytes4. destruct (N.ltb_spec n (2 ^ 32)) as [Hn|]; [|discriminate].
  intros [= <-]. split; [|reflexivity].
  unfold from_bytes. cbn [fold_left].
  change (2 ^ 32) with 4294967296 in Hn.
  rewrite !ord_chr8 by Utf8Facts.arith.
  Utf8Facts.arith.
Qed.

(** Text in ASCII is encoded octet for character and decoded back. *)
Lemma ascii_encode (s : str) :
  is_ascii s = true -> encode Strict s = Some (map chr8 s).
Proof.
  induction s as [|c s IH]; cbn [is_ascii forallb encode map]; [reflexivity|].
  rewrite andb_true_iff, N.ltb_lt. intros [Hc Hs].
  unfold encode1. destruct (N.ltb_spec c 0x80); [|lia].
  unfold is_ascii in IH. now rewrite (IH Hs).
Qed.

Lemma ascii_decode (s : str) :
  is_ascii s = true -> decode Strict (map chr8 s) = Some s.
Proof.
  unfold decode.
  induction s as [|c s IH]; cbn [is_ascii forallb map utf8_items]; [reflexivity|].
  rewrite andb_true_iff, N.ltb_lt. intros [Hc Hs]. cbv zeta.
  rewrite ord_chr8 by lia.
  destruct (N.ltb_spec c 0x80); [|lia].
  cbn [decode_items]. unfold is_ascii in IH. now rewrite (IH Hs).
Qed.

Lemma read_head_framed (prefix signature_data rest : bytes) :
  Chunked.len prefix = 4 ->
  from_bytes prefix = Chunked.len signature_data ->
  read_head (prefix ++ signature_data ++ rest) = Some (signature_data, rest).
Proof.
  intros H4 Hlen. unfold read_head, Server.readexactly, Server.len.
  rewrite <- H4.
  assert (E1 : (Chunked.len prefix <=?
                Chunked.len (prefix ++ signature_data ++ rest)) = true)
    by (apply N.leb_le; rewrite len_app; lia).
  rewrite E1, take_app_exact, drop_app_exact. cbv zeta. rewrite Hlen.
  assert (E2 : (Chunked.len signature_data <=?
                Chunked.len (signature_data ++ rest)) = true)
    by (apply N.leb_le; rewrite len_app; lia).
  now rewrite E2, take_app_exact, drop_app_exact.
Qed.


Section WithLibraries.
Context `{Libraries}.

(** A frame built as both [forward_to_client] and
    [send_response_to_server] build it, read by the code of the other
    side, which holds the same key. *)
Lemma framed_read_back (key json_data signature_bytes prefix more : bytes) :
  is_ascii (hmac_sha256_hexdigest key json_data) = true ->
  encode Strict (hmac_sha256_hexdigest key json_data) = Some signature_bytes ->
  Server.to_bytes4 (Chunked.len signature_bytes) = Some prefix ->
  read_head ((prefix ++ signature_bytes ++ json_data) ++ more)
    = Some (signature_bytes, json_data ++ more)
  /\ decode Strict signature_bytes = Some (hmac_sha256_hexdigest key json_data)
  /\ Server.compare_digest (hmac_sha256_hexdigest key json_data)
                           (hmac_sha256_hexdigest key json_data) = Some true.
Proof.
  intros Hascii Henc Hpre.
  destruct (from_to_bytes4 _ _ Hpre) as [Hfrom H4].
  rewrite (ascii_encode _ Hascii) in Henc. injection Henc as <-.
  split; [|split].
  - rewrite <- !app_assoc. now apply read_head_framed.
  - now apply ascii_decode.
  - unfold Server.compare_digest. rewrite Hascii. cbn [andb].
    now rewrite DictFacts.str_eqb_refl.
Qed.

(** X1.  The frame that [forward_to_client] writes to the tunnel, read
    by the client with lines 329-334 of [receive_messages] whatever
    follows it on the connection: the four octets give the length of
    the signature, the signature read is the one that was written, the
    octets left start with the serialized request, and
    [verify_signature] of a client that holds the server's key accepts
    the pair, provided the digest is ASCII text, as a hexadecimal
    digest is. *)
Theorem request_frame_read_back (st : Server.t) (self : Client.t)
    (request_data : value) (json_size : N) (message more : bytes) :
  Server.make_message st request_data = Some (json_size, message) ->
  Client.secret_key self = Server.secret_key st ->
  (forall json_data,
      encode Strict (json_dumps request_data) = Some json_data ->
      is_ascii (Server.create_signature st json_data) = true) ->
  exists signature_data signature json_data,
    encode Strict (json_dumps request_data) = Some json_data
    /\ json_size = Chunked.len json_data
    /\ read_head (message ++ more) = Some (signature_data, json_data ++ more)
    /\ decode Strict signature_data = Some signature
    /\ Client.verify_signature self json_data signature = Some true.
Proof.
  unfold Server.make_message, Server.create_signature. intros Hm Hkey Hascii.
  destruct (encode Strict (json_dumps request_data)) as [json_data|] eqn:Ej;
    [|discriminate].
  specialize (Hascii json_data eq_refl).
  destruct (encode Strict (hmac_sha256_hexdigest (Server.secret_key st) json_data))
    as [signature_bytes|] eqn:Es; [|discriminate].
  unfold Server.len in Hm.
  destruct (Server.to_bytes4 (Chunked.len signature_bytes)) as [prefix|] eqn:Ep;
    [|discriminate].
  injection Hm as <- <-.
  destruct (framed_read_back _ _ _ _ more Hascii Es Ep) as (Hr & Hd & Hc).
  exists signature_bytes, (hmac_sha256_hexdigest (Server.secret_key st) json_data),
    json_data.
  unfold Client.verify_signature. rewrite Hkey.
  repeat split; assumption.
Qed.

(** X2.  The other direction: a frame that the client builds, for a
    response or for its registration, read by lines 172-177 of
    [handle_client]: the signature and the payload come back as
    written, and [verify_signature] of a server that holds the
    client's key accepts them. *)
Theorem response_frame_read_back (self : Client.t) (st : Server.t)
    (payload : value) (message more : bytes) :
  Client.make_message self payload = Some message ->
  Server.secret_key st = Client.secret_key self ->
  (forall json_data,
      encode Strict (json_dumps payload) = Some json_data ->
      is_ascii (Client.create_signature self json_data) = true) ->
  exists signature_data signature json_data,
    encode Strict (json_dumps payload) = Some json_data
    /\ read_head (message ++ more) = Some (signature_data, json_data ++ more)
    /\ decode Strict signature_data = Some signature
    /\ Server.verify_signature st json_data signature = Some true.
Proof.
  unfold Client.make_message, Client.create_signature. intros Hm Hkey Hascii.
  destruct (encode Strict (json_dumps payload)) as [json_data|] eqn:Ej;
    [|discriminate].
  specialize (Hascii json_data eq_refl).
  destruct (encode Strict (hmac_sha256_hexdigest (Client.secret_key self) json_data))
    as [signature_bytes|] eqn:Es; [|discriminate].
  unfold Client.len in Hm.
  destruct (Server.to_bytes4 (Chunked.len signature_bytes)) as [prefix|] eqn:Ep;
    [|discriminate].
  injection Hm as <-.
  destruct (framed_read_back _ _ _ _ more Hascii Es Ep) as (Hr & Hd & Hc).
  exists signature_bytes, (hmac_sha256_hexdigest (Client.secret_key self) json_data),
    json_data.
  unfold Server.verify_signature. rewrite Hkey.
  repeat split; assumption.
Qed.

(** While no buffer parses, the loop goes on reading. *)
Lemma read_json_continue (reads later : list bytes) (buffer : bytes) :
  Forall (fun chunk => chunk <> []) reads ->
  (forall k, (0 < k <= List.length reads)%nat ->
     exists t, decode Strict (buffer ++ concat (firstn k reads)) = Some t
               /\ json_loads t = JSONDecodeError) ->
  read_json (reads ++ later) buffer = read_json later (buffer ++ concat reads).
Proof.
  revert buffer. induction reads as [|chunk reads IH]; intros buffer Hne Hk.
  - cbn. now rewrite app_nil_r.
  - inversion Hne as [|? ? Hc Hrest]; subst.
    destruct chunk as [|x chunk]; [congruence|].
    destruct (Hk 1%nat) as (t & Ht & Hl); [cbn; lia|].
    cbn [firstn concat] in Ht. rewrite app_nil_r in Ht.
    cbn [app read_json]. cbn [app] in Ht. rewrite Ht, Hl.
    rewrite IH; [|assumption|].
    + cbn [concat]. now rewrite <- app_assoc.
    + intros k Hk'. destruct (Hk (S k)) as (t' & Ht' & Hl'); [cbn; lia|].
      exists t'. split; [|assumption].
      cbn [firstn concat] in Ht'. now rewrite <- app_assoc.
Qed.

(** X3.  The buffer that the loop of lines 181-204 leaves is the
    buffer it started from followed by whole reads: what one call of
    [reader.read] returns is never divided between this frame and the
    next.  When the loop ends at line 196 the buffer parses. *)
Theorem read_json_whole_reads (reads : list bytes) (buffer : bytes) :
  exists taken,
    reads = taken ++ snd (read_json reads buffer)
    /\ fst (fst (read_json reads buffer)) = buffer ++ concat taken
    /\ (snd (fst (read_json reads buffer)) = Parsed ->
        exists text response_data,
          decode Strict (buffer ++ concat taken) = Some text
          /\ json_loads text = Loaded response_data).
Proof.
  revert buffer. induction reads as [|chunk reads IH]; intro buffer.
  - exists []. cbn. rewrite app_nil_r. repeat split. discriminate.
  - destruct chunk as [|x chunk].
    + exists [[]]. cbn. rewrite app_nil_r. repeat split. discriminate.
    + cbn [read_json].
      destruct (decode Strict (buffer ++ x :: chunk)) as [text|] eqn:Ed.
      * destruct (json_loads text) as [v| |] eqn:El.
        -- exists [x :: chunk]. cbn. rewrite app_nil_r. repeat split.
           intros _. exists text, v. now split.
        -- destruct (IH (buffer ++ x :: chunk)) as (taken & Hr & Hb & Hp).
           exists ((x :: chunk) :: taken).
           change (concat ((x :: chunk) :: taken))
             with ((x :: chunk) ++ concat taken).
           rewrite app_assoc. split; [|now split].
           cbn [app]. now rewrite <- Hr.
        -- exists [x :: chunk]. cbn. rewrite app_nil_r. repeat split.
           discriminate.
      * exists [x :: chunk]. cbn. rewrite app_nil_r. repeat split.
        discriminate.
Qed.

(** X4.  A payload that arrives in several reads is put together
    again: when no shorter buffer parses, the loop ends at the read
    that completes the payload, with exactly the payload, and leaves
    the later reads to the next turn. *)
Theorem read_json_split_payload (reads later : list bytes) (last : bytes)
    (text : str) (response_data : value) :
  Forall (fun chunk => chunk <> []) reads ->
  last <> [] ->
  (forall k, (0 < k <= List.length reads)%nat ->
     exists t, decode Strict (concat (firstn k reads)) = Some t
               /\ json_loads t = JSONDecodeError) ->
  decode Strict (concat reads ++ last) = Some text ->
  json_loads text = Loaded response_data ->
  read_json (reads ++ last :: later) [] = (concat reads ++ last, Parsed, later).
Proof.
  intros Hne Hlast Hk Hd Hl.
  rewrite (read_json_continue reads (last :: later) [] Hne Hk).
  cbn [app]. destruct last as [|x last]; [congruence|].
  cbn [read_json]. now rewrite Hd, Hl.
Qed.

(** X5.  Without a buffer that parses the loop ends only when the peer
    closes the connection, and then holds everything that was sent. *)
Theorem read_json_until_closed (reads : list bytes) :
  Forall (fun chunk => chunk <> []) reads ->
  (forall k, (0 < k <= List.length reads)%nat ->
     exists t, decode Strict (concat (firstn k reads)) = Some t
               /\ json_loads t = JSONDecodeError) ->
  read_json reads [] = (concat reads, EndOfInput, []).
Proof.
  intros Hne Hk.
  rewrite <- (app_nil_r reads) at 1.
  now rewrite (read_json_continue reads [] [] Hne Hk).
Qed.

End WithLibraries.

Import Examples.

Lemma request_frame_read_back_witness :
  exists signature_data signature json_data,
    encode Strict (json_dumps (Libraries := fragment) request1) = Some json_data
    /\ Chunked.len (wire request1_text) = Chunked.len json_data
    /\ read_head (framed request1_digest request1_text ++ b "next")
       = Some (signature_data, json_data ++ b "next")
    /\ decode Strict signature_data = Some signature
    /\ Client.verify_signature (H := fragment) tunnel_client json_data signature
       = Some true.
Proof.
  assert (Hm : Server.make_message (H := fragment) server1 request1
               = Some (Chunked.len (wire request1_text),
                       framed request1_digest request1_text))
    by (vm_compute; reflexivity).
  assert (Hascii : forall json_data,
             encode Strict (json_dumps (Libraries := fragment) request1)
               = Some json_data ->
             is_ascii (Server.create_signature (H := fragment) server1 json_data)
               = true).
  { intros json_data Hj. vm_compute in Hj. injection Hj as <-.
    vm_compute. reflexivity. }
  exact (request_frame_read_back (H := fragment) server1 tunnel_client request1
           _ _ (b "next") Hm eq_refl Hascii).
Defined.

Lemma response_frame_read_back_witness :
  exists signature_data signature json_data,
    encode Strict (json_dumps (Libraries := fragment) response1) = Some json_data
    /\ read_head (framed response1_digest response1_text ++ b "next")
       = Some (signature_data, json_data ++ b "next")
    /\ decode Strict signature_data = Some signature
    /\ Server.verify_signature (H := fragment) server1 json_data signature
       = Some true.
Proof.
  assert (Hm : Client.make_message (H := fragment) tunnel_client response1
               = Some (framed response1_digest response1_text))
    by (vm_compute; reflexivity).
  assert (Hascii : forall json_data,
             encode Strict (json_dumps (Libraries := fragment) response1)
               = Some json_data ->
             is_ascii (Client.create_signature (H := fragment) tunnel_client
                         json_data) = true).
  { intros json_data Hj. vm_compute in Hj. injection Hj as <-.
    vm_compute. reflexivity. }
  exact (response_frame_read_back (H := fragment) tunnel_client server1 response1
           _ (b "next") Hm eq_refl Hascii).
Defined.

(** The registration arrives in three reads, and the start of another
    frame behind it. *)
Lemma read_json_split_payload_witness :
  read_json (H := fragment)
    ([take 10 (wire register_text); slice 10 10 (wire register_text)]
       ++ drop 20 (wire register_text) :: [b "next"]) []
  = (concat [take 10 (wire register_text); slice 10 10 (wire register_text)]
       ++ drop 20 (wire register_text),
     Parsed, [b "next"]).
Proof.
  apply (read_json_split_payload (H := fragment)
           [take 10 (wire register_text); slice 10 10 (wire register_text)]
           [b "next"] (drop 20 (wire register_text)) register_text register).
  - repeat constructor; vm_compute; discriminate.
  - vm_compute. discriminate.
  - intros k Hk.
    assert (Hc : k = 1%nat \/ k = 2%nat) by (cbn in Hk; lia).
    destruct Hc as [-> | ->]; eexists; split; vm_compute; reflexivity.
  - vm_compute. reflexivity.
  - vm_compute. reflexivity.
Defined.

(** Two registrations in one read parse as neither. *)
Lemma read_json_until_closed_witness :
  read_json (H := fragment) [wire register_text ++ wire register_text] []
  = (concat [wire register_text ++ wire register_text], EndOfInput, []).
Proof.
  apply (read_json_until_closed (H := fragment)
           [wire register_text ++ wire register_text]).
  - repeat constructor; vm_compute; discriminate.
  - intros k Hk.
    assert (Hc : k = 1%nat) by (cbn in Hk; lia).
    subst k. eexists; split; vm_compute; reflexivity.
Defined.

End FramingFacts.

(* ================================================================== *)
(** * Lemmas: the registry and the public side of the server *)
(* ================================================================== *)

Module RegistryFacts.
Import Py Json Server ServerFacts.

Lemma set_keys {V : Type} (k : value) (v : V) (d : Dict.t V) :
  map fst (Dict.set k v d)
  = if Dict.mem k d then map fst d else map fst d ++ [k].
Proof.
  unfold Dict.mem. induction d as [|[k' v'] d IH]; cbn; [reflexivity|].
  destruct (key_eqb k k'); cbn; [reflexivity|].
  rewrite IH. now destruct (Dict.lookup k d).
Qed.

Lemma forget_clients_log (l : list value) (st : t) :
  log (fold_left forget_client l st) = log st ++ map LogInactive l.
Proof.
  revert st. induction l as [|k l IH]; intro st; cbn [fold_left map].
  - now rewrite app_nil_r.
  - rewrite IH. cbn [log forget_client say]. now rewrite <- app_assoc.
Qed.

Lemma forget_clients_filter (p : value * (writer * time) -> bool)
    (l pre : Dict.t (writer * time)) (st : t) :
  Dict.wf (pre ++ l) ->
  clients st = pre ++ l ->
  clients (fold_left forget_client (map fst (filter p l)) st)
  = pre ++ filter (fun item => negb (p item)) l.
Proof.
  revert pre st; induction l as [|[k v] l IH]; intros pre st Hwf Hst.
  - exact Hst.
  - cbn [filter]. destruct (p (k, v)); cbn [negb map fold_left fst].
    + apply IH.
      * eapply DictFacts.wf_remove_middle; eassumption.
      * cbn [forget_client clients say with_clients]. rewrite Hst.
        now apply DictFacts.del_middle.
    + replace (pre ++ (k, v) :: filter (fun item => negb (p item)) l)
        with ((pre ++ [(k, v)]) ++ filter (fun item => negb (p item)) l)
        by (now rewrite <- app_assoc).
      apply IH; rewrite <- app_assoc; assumption.
Qed.

(** X6.  [cleanup_inactive_clients] removes exactly the records last
    seen more than 300 seconds before the reading of the clock, and
    prints one line for each, in their order.  The records that stay
    keep their order; one last seen exactly 300 seconds ago stays.
    Neither a connection nor the pending table is touched: the
    connection of a client that is swept is not closed. *)
Theorem sweep_removes_stale (st : t) (current_time : time) :
  Dict.wf (clients st) ->
  let st' := cleanup_inactive_clients st current_time in
  clients st'
  = filter (fun item => negb (inactive current_time item)) (clients st)
  /\ log st'
     = log st
       ++ map LogInactive (map fst (filter (inactive current_time) (clients st)))
  /\ pending_requests st' = pending_requests st
  /\ conns st' = conns st
  /\ (forall client_id client_writer last_seen,
        In (client_id, (client_writer, last_seen)) (clients st) ->
        (current_time - last_seen <= 300)%Q ->
        In (client_id, (client_writer, last_seen)) (clients st'))
  /\ (forall client_id client_writer last_seen,
        In (client_id, (client_writer, last_seen)) (clients st') ->
        (current_time - last_seen <= 300)%Q).
Proof.
  intros Hwf st'. subst st'. unfold cleanup_inactive_clients.
  destruct (forget_clients_fields
              (map fst (filter (inactive current_time) (clients st))) st)
    as (_ & Hp & Hn & _).
  pose proof (forget_clients_filter (inactive current_time) (clients st) [] st
                Hwf eq_refl) as Hc.
  cbn [app] in Hc.
  split; [exact Hc|]. split; [apply forget_clients_log|].
  split; [exact Hp|]. split; [exact Hn|]. rewrite Hc. split.
  - intros client_id client_writer last_seen Hin Hle.
    apply filter_In. split; [assumption|].
    cbn [inactive]. apply Qle_bool_iff in Hle. now rewrite Hle.
  - intros client_id client_writer last_seen Hin.
    apply filter_In in Hin. destruct Hin as [_ Hin]. cbn [inactive] in Hin.
    apply Qle_bool_iff. now destruct (Qle_bool (current_time - last_seen) 300).
Qed.

Section WithLibraries.
Context `{Libraries}.

(** X7.  A validly signed frame of type [register] binds its
    [client_id] to the connection it came on and to the reading of the
    clock.  An identifier already in the registry keeps its place and
    gets the new connection, whichever connection held it before; a
    new one goes last.  The other records, the pending table and all
    connections are as before: nothing is written back. *)
Theorem registration_recorded (st : t) (w : writer) (f : frame)
    (response_data type client_id : value) :
  accepted st f response_data ->
  get response_data (u "type") = Some type ->
  eq_str type (u "register") = true ->
  get response_data (u "client_id") = Some client_id ->
  hashable client_id = true ->
  let st' := fst (handle_frame st w f) in
  snd (handle_frame st w f) = true
  /\ Dict.lookup client_id (clients st') = Some (w, now f)
  /\ (forall k, key_eqb k client_id = false ->
        Dict.lookup k (clients st') = Dict.lookup k (clients st))
  /\ map fst (clients st')
     = (if Dict.mem client_id (clients st) then map fst (clients st)
        else map fst (clients st) ++ [client_id])
  /\ pending_requests st' = pending_requests st
  /\ conns st' = conns st
  /\ log st' = log st ++ [LogRegistered client_id].
Proof.
  intros Hacc Htype Hreg Hid Hh st'. subst st'.
  rewrite (handle_frame_accepted st w f response_data Hacc).
  rewrite Htype, Hreg, Hid, Hh. cbn [fst snd clients say with_clients].
  split; [reflexivity|]. split.
  - apply DictFacts.lookup_set_same. now apply DictFacts.key_eqb_refl.
  - split; [intros k Hk; now apply DictFacts.lookup_set_other|].
    split; [apply set_keys|]. repeat split.
Qed.

Lemma touch_first (w : writer) (now : time) (pre post : Dict.t (writer * time))
    (client_id : value) (last_seen : time) :
  (forall item, In item pre -> fst (snd item) <> w) ->
  touch w now (pre ++ (client_id, (w, last_seen)) :: post)
  = pre ++ (client_id, (w, now)) :: post.
Proof.
  induction pre as [|[k [cw ls]] pre IH]; intro Hpre; cbn [app touch].
  - now rewrite Nat.eqb_refl.
  - destruct (Nat.eqb_spec cw w) as [E|_].
    + exfalso. apply (Hpre (k, (cw, ls))); [now left | exact E].
    + f_equal. apply IH. intros item Hin. apply Hpre. now right.
Qed.

(** X8.  A validly signed frame that is no registration refreshes
    [last_seen] of one record only, the first of the registry that
    holds the connection the frame came on: a later record of the same
    connection keeps its old time, and so do the records of other
    connections.  This holds whether or not the frame answers a
    pending request. *)
Theorem response_refreshes_first_record (st : t) (w : writer) (f : frame)
    (response_data type request_id client_id : value) (last_seen : time)
    (pre post : Dict.t (writer * time)) :
  accepted st f response_data ->
  get response_data (u "type") = Some type ->
  eq_str type (u "register") = false ->
  get response_data (u "request_id") = Some request_id ->
  hashable request_id = true ->
  clients st = pre ++ (client_id, (w, last_seen)) :: post ->
  (forall item, In item pre -> fst (snd item) <> w) ->
  snd (handle_frame st w f) = true
  /\ clients (fst (handle_frame st w f))
     = pre ++ (client_id, (w, now f)) :: post.
Proof.
  intros Hacc Htype Hreg Hid Hh Hcl Hpre.
  rewrite (handle_frame_accepted st w f response_data Hacc).
  rewrite Htype, Hreg. cbv zeta. rewrite Hid, Hh.
  cbn [pending_requests with_clients].
  destruct (Dict.lookup request_id (pending_requests st)) as [handler_info|].
  - cbn [fst snd]. split; [reflexivity|]. rewrite clients_say.
    destruct (deliver_fields
                (with_pending (with_clients st (touch w (now f) (clients st)))
                   (Dict.del request_id (pending_requests st)))
                request_id response_data (web_writer handler_info) (fail_at f))
      as (_ & Hc & _).
    rewrite Hc. cbn [clients with_pending with_clients].
    rewrite Hcl. now apply touch_first.
  - cbn [fst snd clients with_clients]. split; [reflexivity|].
    rewrite Hcl. now apply touch_first.
Qed.

(** X24.  A validly signed frame ends the handler of its connection
    in these cases and no others: its payload is no UTF-8 text;
    [json.loads] raises another error than [JSONDecodeError] on it; it
    parses to a value that is no JSON object; it is a registration
    whose [client_id] cannot be a dictionary key; it is no
    registration and its [request_id] cannot be one.  (A payload that
    is no JSON is passed over and the loop goes on.)  In each of these
    cases the [finally] block runs: the connection is closed and its
    records leave the registry, and the pending table is as before. *)
Theorem signed_frame_ends_handler (st : t) (w : writer) (f : frame)
    (signature : str) :
  decode Strict (signature_data f) = Some signature ->
  verify_signature st (json_data f) signature = Some true ->
  (snd (handle_frame st w f) = false
   <-> match decode Strict (json_data f) with
       | None => True
       | Some text =>
           match json_loads text with
           | OtherError => True
           | JSONDecodeError => False
           | Loaded (JObj items) =>
               exists v,
                 (if is_register (JObj items)
                  then get (JObj items) (u "client_id")
                  else get (JObj items) (u "request_id")) = Some v
                 /\ hashable v = false
           | Loaded _ => True
           end
       end)
  /\ (snd (handle_frame st w f) = false ->
      Dict.wf (clients st) ->
      let st' := fst (handle_frame st w f) in
      clients st' = filter (held_by_other w) (clients st)
      /\ closed (conns st' w) = true
      /\ pending_requests st' = pending_requests st).
Proof.
  intros Hsig Hver. split.
  - destruct (decode Strict (json_data f)) as [text|] eqn:Htext.
    2:{ unfold handle_frame. rewrite Hsig, Hver, Htext. cbn [snd]. tauto. }
    destruct (json_loads text) as [response_data| |] eqn:Hload.
    2:{ unfold handle_frame. rewrite Hsig, Hver, Htext, Hload. cbn [snd].
        split; [discriminate | intros []]. }
    2:{ unfold handle_frame. rewrite Hsig, Hver, Htext, Hload. cbn [snd]. tauto. }
    assert (Hacc : accepted st f response_data)
      by (exists signature, text; repeat split; assumption).
    rewrite (handle_frame_accepted st w f response_data Hacc).
    unfold is_register.
    destruct response_data as [|b0|q0|s0|l0|items]; try (cbn; tauto).
    unfold get, get_default.
    set (type := match assoc (u "type") items with Some v => v | None => JNull end).
    set (cid := match assoc (u "client_id") items with Some v => v | None => JNull end).
    set (rid := match assoc (u "request_id") items with Some v => v | None => JNull end).
    destruct (eq_str type (u "register")).
    + destruct (hashable cid) eqn:Hh; cbn [snd]; split.
      * discriminate.
      * intros (v & [= <-] & Hv). congruence.
      * intros _. now exists cid.
      * reflexivity.
    + cbv zeta. destruct (hashable rid) eqn:Hh.
      * destruct (Dict.lookup rid _); cbn [snd]; split; try discriminate;
          intros (v & [= <-] & Hv); congruence.
      * cbn [snd]. split; [intros _; now exists rid | reflexivity].
  - intros Hend Hwf st'. subst st'.
    destruct (handle_frame_failed st w f Hend) as [-> | ->].
    + destruct (finally_cleanup_spec (say st LogClientError) w Hwf)
        as (Hc & Hp & _ & Hcl & _).
      unfold connection_failed. now rewrite Hc, Hp, Hcl.
    + set (st1 := with_clients st (touch w (now f) (clients st))).
      assert (Hwf1 : Dict.wf (clients (say st1 LogClientError)))
        by (cbn [clients say st1 with_clients]; now apply wf_touch).
      destruct (finally_cleanup_spec (say st1 LogClientError) w Hwf1)
        as (Hc & Hp & _ & Hcl & _).
      unfold connection_failed. rewrite Hc, Hp, Hcl.
      cbn [clients say st1 with_clients pending_requests].
      now rewrite touch_filter.
Qed.

End WithLibraries.

Import Examples.

Ltac accept_from_table digest text :=
  exists digest, text; repeat split; vm_compute; reflexivity.

(** The client [c1] was last seen at 1003: the sweep at 1303 keeps it,
    the sweep at 1304 removes it. *)
Lemma sweep_removes_stale_witness :
  clients (cleanup_inactive_clients server1 1303%Q) = clients server1
  /\ clients (cleanup_inactive_clients server1 1304%Q) = []
  /\ conns (cleanup_inactive_clients server1 1304%Q) = conns server1.
Proof.
  assert (Hwf : Dict.wf (clients server1)) by (vm_compute; auto).
  destruct (sweep_removes_stale server1 1303%Q Hwf) as (H1 & _).
  destruct (sweep_removes_stale server1 1304%Q Hwf) as (H2 & _ & _ & H3 & _).
  split; [rewrite H1; vm_compute; reflexivity|].
  split; [rewrite H2; vm_compute; reflexivity|exact H3].
Defined.

(** Connection 2 registers as [c1], which connection 1 holds. *)
Lemma registration_recorded_witness :
  let st' := fst (handle_frame (H := fragment) server1 2
                    (frame_of register_digest register_text)) in
  snd (handle_frame (H := fragment) server1 2
         (frame_of register_digest register_text)) = true
  /\ Dict.lookup (JStr (u "c1")) (clients st') = Some (2%nat, 1003%Q)
  /\ map fst (clients st') = map fst (clients server1)
  /\ conns st' = conns server1.
Proof.
  assert (Hacc : accepted (H := fragment) server1
                   (frame_of register_digest register_text) register)
    by accept_from_table register_digest register_text.
  destruct (registration_recorded (H := fragment) server1 2
              (frame_of register_digest register_text)
              register (JStr (u "register")) (JStr (u "c1"))
              Hacc eq_refl eq_refl eq_refl eq_refl)
    as (Hgo & Hl & _ & Hk & _ & Hn & _).
  exact (conj Hgo (conj Hl (conj Hk Hn))).
Defined.

(** Connection 1 holds two records; a response on it refreshes the
    first. *)
Lemma response_refreshes_first_record_witness :
  let st := with_clients server2
              [(JStr (u "c1"), (1%nat, 1003%Q)); (JStr (u "c2"), (1%nat, 1003%Q))] in
  let f := {| signature_data := wire response1_digest;
              json_data := wire response1_text;
              now := 1200%Q; fail_at := None |} in
  clients (fst (handle_frame (H := fragment) st 1 f))
  = [(JStr (u "c1"), (1%nat, 1200%Q)); (JStr (u "c2"), (1%nat, 1003%Q))].
Proof.
  intros st f.
  assert (Hacc : accepted (H := fragment) st f response1)
    by accept_from_table response1_digest response1_text.
  destruct (response_refreshes_first_record (H := fragment) st 1 f
              response1 JNull (JStr id1) (JStr (u "c1")) 1003%Q
              [] [(JStr (u "c2"), (1%nat, 1003%Q))]
              Hacc eq_refl eq_refl eq_refl eq_refl eq_refl
              (fun item Hin => match Hin with end))
    as (_ & Hc).
  exact Hc.
Defined.


(** The client registered on connection 1 sends the array [[1]]. *)
Lemma signed_frame_ends_handler_witness :
  let f := frame_of Scenarios.array_digest Scenarios.array_text in
  let st' := fst (handle_frame (H := Scenarios.extended) server2 1 f) in
  snd (handle_frame (H := Scenarios.extended) server2 1 f) = false
  /\ clients st' = []
  /\ closed (conns st' 1) = true
  /\ pending_requests st' = pending_requests server2.
Proof.
  intros f st'.
  assert (Hsig : decode Strict (signature_data f) = Some Scenarios.array_digest)
    by (vm_compute; reflexivity).
  assert (Hver : verify_signature (H := Scenarios.extended) server2 (json_data f)
                   Scenarios.array_digest = Some true)
    by (vm_compute; reflexivity).
  assert (Htext : decode Strict (json_data f) = Some Scenarios.array_text)
    by (vm_compute; reflexivity).
  assert (Hload : json_loads (Libraries := Scenarios.extended) Scenarios.array_text
                  = Loaded Scenarios.array)
    by (vm_compute; reflexivity).
  assert (Hwf : Dict.wf (clients server2)) by (vm_compute; auto).
  destruct (signed_frame_ends_handler (H := Scenarios.extended) server2 1 f
              Scenarios.array_digest Hsig Hver) as (Hiff & Hthen).
  rewrite Htext, Hload in Hiff.
  pose proof (proj2 Hiff I) as Hend.
  destruct (Hthen Hend Hwf) as (Hc & Hcl & Hp).
  split; [exact Hend|]. split; [|split; [exact Hcl|exact Hp]].
  subst st'. rewrite Hc. vm_compute. reflexivity.
Defined.

End RegistryFacts.

(* ================================================================== *)
(** * Lemmas: [handle_web_request] and [forward_to_client] *)
(* ================================================================== *)

Module PublicFacts.
Import Py Json Server ServerFacts.
Local Open Scope N_scope.

Lemma readuntil_split (limit : N) (sep stream headers_data rest : bytes) :
  readuntil limit sep stream = Some (headers_data, rest) ->
  stream = headers_data ++ rest.
Proof.
  unfold readuntil. destruct (find byte_eqb sep stream) as [i|]; [|discriminate].
  destruct (i <=? limit); [|discriminate].
  intros [= <- <-]. symmetry. apply PyFacts.take_drop.
Qed.

(** What the [except] clause of lines 77-86 does. *)
Lemma answer_500_fields (st : t) (w : writer) (ok : bool) :
  let st' := close (try_write (say st LogWebError) w ok response_500_internal) w in
  clients st' = clients st
  /\ pending_requests st' = pending_requests st
  /\ closed (conns st' w) = true
  /\ sent (conns st' w)
     = sent (conns st w) ++ (if ok then response_500_internal else [])
  /\ (forall x, x <> w -> conns st' x = conns st x)
  /\ log st' = log st ++ [LogWebError].
Proof.
  cbv zeta. unfold close, try_write, write.
  destruct ok; cbn [clients pending_requests conns log with_conn say];
    rewrite ?Nat.eqb_refl; cbn [closed sent]; rewrite ?app_nil_r;
    repeat split; intros x Hx;
    destruct (Nat.eqb_spec x w); try contradiction; reflexivity.
Qed.

Section WithLibraries.
Context `{Libraries}.

(** X9.  A public request that cannot be read is answered [500
    Internal error] and closed, and nothing else happens: no frame
    goes to any client and no pending record is made.  The request
    cannot be read when no blank line ends its header block within the
    first 2^20 octets, when [int] rejects the value of its first
    [Content-Length] line, or when the connection ends before that
    many octets of body have arrived. *)
Theorem unreadable_request_500 (st : t) (w : writer) (i : web_input) :
  (readuntil (2 ^ 20) (crlf_b ++ crlf_b) (stream i) = None
   \/ exists headers_data rest headers_str,
        readuntil (2 ^ 20) (crlf_b ++ crlf_b) (stream i)
          = Some (headers_data, rest)
        /\ decode Ignore headers_data = Some headers_str
        /\ (scan_content_length (split N.eqb crlf headers_str) = None
            \/ exists content_length,
                 scan_content_length (split N.eqb crlf headers_str)
                   = Some content_length
                 /\ len rest < Z.to_N content_length)) ->
  let st' := handle_web_request st w i in
  clients st' = clients st
  /\ pending_requests st' = pending_requests st
  /\ closed (conns st' w) = true
  /\ sent (conns st' w)
     = sent (conns st w) ++ (if web_ok i then response_500_internal else [])
  /\ (forall x, x <> w -> conns st' x = conns st x).
Proof.
  intros Hbad st'. subst st'. unfold handle_web_request.
  assert (Hnone : exists out,
             read_request (stream i) (uuid4 i) (time_request i) (peername i)
             = (out, None)).
  { unfold read_request.
    destruct Hbad as [-> | (headers_data & rest & headers_str & -> & -> & Hbad)].
    - now exists [].
    - destruct Hbad as [-> | (content_length & -> & Hshort)]; [now exists []|].
      destruct (Z.ltb_spec 0 content_length) as [Hpos|Hneg].
      + unfold readexactly. destruct (N.leb_spec (Z.to_N content_length) (len rest));
          [lia|]. eexists. reflexivity.
      + exfalso. destruct content_length; cbn in Hshort; lia. }
  destruct Hnone as (out & ->).
  destruct (fold_say_fields out st) as (_ & Hc & Hp & Hn & _).
  destruct (answer_500_fields (fold_left say out st) w (web_ok i))
    as (Hc' & Hp' & Hcl & Hs & Hx & _).
  rewrite Hc', Hp', Hcl, Hs, Hc, Hp, Hn. repeat split.
  intros x Hne. now rewrite (Hx x Hne), Hn.
Qed.

(** Lines 56-59 when the body is there. *)
Lemma read_body (content_length : Z) (rest : bytes) :
  Z.to_N content_length <= len rest ->
  (if (0 <? content_length)%Z
   then readexactly (Z.to_N content_length) rest
   else Some [])
  = Some (take (Z.to_N content_length) rest).
Proof.
  intro Hlen. destruct (Z.ltb_spec 0 content_length) as [Hpos|Hneg].
  - unfold readexactly.
    now destruct (N.leb_spec (Z.to_N content_length) (len rest)); [|lia].
  - replace (Z.to_N content_length) with 0 by (destruct content_length; cbn; lia).
    now rewrite PyFacts.take_firstn.
Qed.

(** X10.  A public request whose header block ends within the first
    2^20 octets and whose body is there is read whole and nothing is
    lost of it: the [data] of the request frame, encoded as the client
    encodes it for a multipart body, is the header block followed by
    exactly [Content-Length] octets of body, whatever these octets
    are.  What the connection sends after that is not read. *)
Theorem request_data_verbatim (stream : bytes) (id : str) (now : time)
    (peername : value) (headers_data rest : bytes) (headers_str : str)
    (content_length : Z) :
  readuntil (2 ^ 20) (crlf_b ++ crlf_b) stream = Some (headers_data, rest) ->
  decode Ignore headers_data = Some headers_str ->
  scan_content_length (split N.eqb crlf headers_str) = Some content_length ->
  Z.to_N content_length <= len rest ->
  exists data,
    read_request stream id now peername
    = ([LogContentLength content_length; LogBodySize (Z.to_N content_length)],
       Some (JObj [(u "id", JStr id); (u "timestamp", JNum now);
                   (u "data", JStr data); (u "client_addr", peername)]))
    /\ encode SurrogateEscape data
       = Some (headers_data ++ take (Z.to_N content_length) rest)
    /\ stream = (headers_data ++ take (Z.to_N content_length) rest)
                  ++ drop (Z.to_N content_length) rest.
Proof.
  intros Hread Hdec Hscan Hlen.
  destruct (Utf8Facts.surrogateescape_round_trip
              (headers_data ++ take (Z.to_N content_length) rest))
    as (data & Hd & He).
  exists data. split; [|split; [exact He|]].
  - unfold read_request. rewrite Hread, Hdec, Hscan.
    rewrite (read_body content_length rest Hlen), Hd. cbn [app]. unfold len.
    rewrite PyFacts.length_take.
    now rewrite N.min_l by exact Hlen.
  - rewrite <- app_assoc, PyFacts.take_drop.
    now apply readuntil_split with (limit := 2 ^ 20) (sep := crlf_b ++ crlf_b).
Qed.

(** X11.  With a client registered and the tunnel taking the write,
    the request frame goes to one connection, that of the first record
    of the registry, however many clients are registered; every other
    connection, the public one among them, is as before: not written
    to and not closed.  The request is recorded under its identifier
    with the public connection and the second reading of the clock. *)
Theorem request_goes_to_first_client (st : t) (w : writer) (i : web_input)
    out request_data json_size message client_id client_writer last_seen others :
  read_request (stream i) (uuid4 i) (time_request i) (peername i)
    = (out, Some request_data) ->
  make_message st request_data = Some (json_size, message) ->
  clients st = (client_id, (client_writer, last_seen)) :: others ->
  tunnel_ok i = true ->
  let st' := handle_web_request st w i in
  sent (conns st' client_writer) = sent (conns st client_writer) ++ message
  /\ closed (conns st' client_writer) = closed (conns st client_writer)
  /\ (forall x, x <> client_writer -> conns st' x = conns st x)
  /\ pending_requests st'
     = Dict.set (JStr (uuid4 i))
         {| web_writer := w; timestamp := time_forward i |}
         (pending_requests st)
  /\ clients st' = clients st.
Proof.
  intros Hread Hmsg Hcl Hok st'.
  subst st'. unfold handle_web_request. rewrite Hread.
  destruct (fold_say_fields out st) as (Hk & Hc & Hp & Hn & _).
  set (st0 := fold_left say out st) in *.
  unfold forward_to_client.
  rewrite (make_message_key st st0 request_data Hk), Hmsg.
  cbn [clients say]. rewrite Hc, Hcl, Hok.
  rewrite (read_request_shape _ _ _ _ _ _ Hread). cbn [hashable].
  cbn [conns clients pending_requests say with_pending write with_conn].
  rewrite Nat.eqb_refl, Hn, Hp, Hc, Hcl. cbn [sent closed].
  repeat split.
  intros x Hx. now destruct (Nat.eqb_spec x client_writer).
Qed.


End WithLibraries.

Import Examples.

(** The header block of [get_truncated] has no blank line. *)
Lemma unreadable_request_500_witness :
  let st' := handle_web_request (H := fragment) server1 10%nat
               (web (wire get_truncated) id1) in
  clients st' = clients server1
  /\ pending_requests st' = pending_requests server1
  /\ closed (conns st' 10%nat) = true
  /\ sent (conns st' 10%nat) = sent (conns server1 10%nat) ++ response_500_internal
  /\ (forall x, x <> 10%nat -> conns st' x = conns server1 x).
Proof.
  assert (Hbad : readuntil (2 ^ 20) (crlf_b ++ crlf_b)
                   (stream (web (wire get_truncated) id1)) = None)
    by (vm_compute; reflexivity).
  exact (unreadable_request_500 (H := fragment) server1 10%nat
           (web (wire get_truncated) id1) (or_introl Hbad)).
Defined.

(** Two octets of body that are no UTF-8, and more behind them. *)
Lemma request_data_verbatim_witness :
  let head := u "POST /upload HTTP/1.1" ++ crlf ++ u "Content-Length: 2"
                ++ crlf ++ crlf in
  exists data,
    read_request (H := fragment) (wire head ++ [xff; xfe] ++ b "more") id1 1001%Q peer
    = ([LogContentLength 2; LogBodySize (Z.to_N 2)],
       Some (JObj [(u "id", JStr id1); (u "timestamp", JNum 1001%Q);
                   (u "data", JStr data); (u "client_addr", peer)]))
    /\ encode SurrogateEscape data
       = Some (wire head ++ take (Z.to_N 2) ([xff; xfe] ++ b "more"))
    /\ wire head ++ [xff; xfe] ++ b "more"
       = (wire head ++ take (Z.to_N 2) ([xff; xfe] ++ b "more"))
           ++ drop (Z.to_N 2) ([xff; xfe] ++ b "more").
Proof.
  intro head.
  assert (H1 : readuntil (2 ^ 20) (crlf_b ++ crlf_b)
                 (wire head ++ [xff; xfe] ++ b "more")
               = Some (wire head, [xff; xfe] ++ b "more"))
    by (vm_compute; reflexivity).
  assert (H2 : decode Ignore (wire head) = Some head)
    by (vm_compute; reflexivity).
  assert (H3 : scan_content_length (H := fragment) (split N.eqb crlf head)
               = Some 2%Z)
    by (vm_compute; reflexivity).
  assert (H4 : Z.to_N 2 <= len ([xff; xfe] ++ b "more"))
    by (vm_compute; discriminate).
  exact (request_data_verbatim (H := fragment) _ id1 1001%Q peer _ _ _ _
           H1 H2 H3 H4).
Defined.

(** Two clients are registered, on the connections 1 and 2. *)
Lemma request_goes_to_first_client_witness :
  let st := with_clients server1
              [(JStr (u "c1"), (1%nat, 1003%Q)); (JStr (u "c2"), (2%nat, 1003%Q))] in
  let st' := handle_web_request (H := fragment) st 10%nat (web (wire get_health) id1) in
  sent (conns st' 1%nat) = sent (conns st 1%nat) ++ framed request1_digest request1_text
  /\ conns st' 2%nat = conns st 2%nat
  /\ conns st' 10%nat = conns st 10%nat
  /\ Dict.lookup (JStr id1) (pending_requests st')
     = Some {| web_writer := 10%nat; timestamp := 1001%Q |}.
Proof.
  intros st st'.
  assert (Hread : read_request (H := fragment)
                    (stream (web (wire get_health) id1))
                    (uuid4 (web (wire get_health) id1))
                    (time_request (web (wire get_health) id1))
                    (peername (web (wire get_health) id1))
                  = ([LogContentLength 0; LogBodySize 0], Some request1))
    by (vm_compute; reflexivity).
  assert (Hmsg : make_message (H := fragment) st request1
                 = Some (len (wire request1_text),
                         framed request1_digest request1_text))
    by (vm_compute; reflexivity).
  destruct (request_goes_to_first_client (H := fragment) st 10%nat
              (web (wire get_health) id1) _ _ _ _
              (JStr (u "c1")) 1%nat 1003%Q [(JStr (u "c2"), (2%nat, 1003%Q))]
              Hread Hmsg eq_refl eq_refl)
    as (Hs & _ & Hx & Hp & _).
  split; [exact Hs|].
  split; [apply Hx; discriminate|].
  split; [apply Hx; discriminate|].
  subst st'. rewrite Hp. vm_compute. reflexivity.
Defined.


End PublicFacts.

(* ================================================================== *)
(** * Lemmas: the sending loop and the delivery of a response *)
(* ================================================================== *)

Module DeliveryFacts.
Import Py Json Chunked PyFacts.
Local Open Scope N_scope.







End DeliveryFacts.

Module ResponseFacts.
Import Py Json Server ServerFacts.
Local Open Scope N_scope.

Section WithLibraries.
Context `{Libraries}.


(** Without a string that can be encoded nothing is written. *)
Lemma deliver_nothing (st : t) (request_id response_data : value)
    (ww : writer) (fail_at : option N) :
  (forall data,
      get_default response_data (u "data") (JStr []) = Some (JStr data) ->
      encode SurrogateEscape data = None) ->
  sent (conns (deliver st request_id response_data ww fail_at) ww)
  = sent (conns st ww).
Proof.
  intro Hbad. unfold deliver. rewrite sent_close.
  destruct (get_default response_data (u "data") (JStr []))
    as [[|b0|q0|data|l0|items0]|]; try reflexivity.
  now rewrite (Hbad data eq_refl).
Qed.

(** A response to a pending request, as [handle_frame] treats it. *)
Lemma handle_frame_delivers (st : t) (w : writer) (f : frame)
    (response_data type request_id : value) (handler_info : pending) :
  accepted st f response_data ->
  get response_data (u "type") = Some type ->
  eq_str type (u "register") = false ->
  get response_data (u "request_id") = Some request_id ->
  hashable request_id = true ->
  Dict.lookup request_id (pending_requests st) = Some handler_info ->
  handle_frame st w f
  = (say (deliver (with_pending
                     (with_clients st (touch w (now f) (clients st)))
                     (Dict.del request_id (pending_requests st)))
                  request_id response_data (web_writer handler_info) (fail_at f))
         (LogDone request_id), true).
Proof.
  intros Hacc Htype Hreg Hrid Hhash Hpend.
  rewrite (handle_frame_accepted _ _ _ _ Hacc), Htype, Hreg, Hrid, Hhash.
  cbn zeta. change (pending_requests (with_clients st _)) with (pending_requests st).
  now rewrite Hpend.
Qed.


(** X15.  A response to a pending request whose [data] is no string,
    or a string that cannot be encoded, is not delivered: the public
    connection is closed with nothing written to it and the pending
    record is removed.  The handler of the tunnel connection goes on
    with the next frame. *)
Theorem undeliverable_response_dropped (st : t) (w : writer) (f : frame)
    (response_data type request_id : value) (handler_info : pending) :
  accepted st f response_data ->
  get response_data (u "type") = Some type ->
  eq_str type (u "register") = false ->
  get response_data (u "request_id") = Some request_id ->
  hashable request_id = true ->
  Dict.lookup request_id (pending_requests st) = Some handler_info ->
  (forall data,
      get_default response_data (u "data") (JStr []) = Some (JStr data) ->
      encode SurrogateEscape data = None) ->
  let st' := fst (handle_frame st w f) in
  snd (handle_frame st w f) = true
  /\ sent (conns st' (web_writer handler_info))
     = sent (conns st (web_writer handler_info))
  /\ closed (conns st' (web_writer handler_info)) = true
  /\ pending_requests st' = Dict.del request_id (pending_requests st)
  /\ (forall x, x <> web_writer handler_info -> conns st' x = conns st x).
Proof.
  intros Hacc Htype Hreg Hrid Hhash Hpend Hbad st'. subst st'.
  rewrite (handle_frame_delivers st w f _ _ _ _ Hacc Htype Hreg Hrid Hhash Hpend).
  cbn [fst snd]. rewrite pending_say, conns_say.
  set (st2 := with_pending _ _).
  destruct (deliver_fields st2 request_id response_data
              (web_writer handler_info) (fail_at f))
    as (_ & _ & Hp & Hclosed & Hx).
  split; [reflexivity|]. split; [|split; [exact Hclosed|split; [exact Hp|exact Hx]]].
  now rewrite (deliver_nothing st2 _ _ _ _ Hbad).
Qed.

End WithLibraries.

Import Examples Scenarios.


(** The [data] of the response is the number 5. *)
Lemma undeliverable_response_dropped_witness :
  let f := frame_of response_number_digest response_number_text in
  let st' := fst (handle_frame (H := extended) server2 1%nat f) in
  snd (handle_frame (H := extended) server2 1%nat f) = true
  /\ sent (conns st' 10%nat) = []
  /\ closed (conns st' 10%nat) = true
  /\ pending_requests st' = [].
Proof.
  intros f st'.
  assert (Hacc : accepted (H := extended) server2 f response_number)
    by (exists response_number_digest, response_number_text; repeat split;
        vm_compute; reflexivity).
  assert (Hbad : forall data,
             get_default response_number (u "data") (JStr []) = Some (JStr data) ->
             encode SurrogateEscape data = None)
    by (intros data Hd; vm_compute in Hd; discriminate Hd).
  destruct (undeliverable_response_dropped (H := extended) server2 1%nat f
              response_number JNull (JStr id1)
              {| web_writer := 10%nat; timestamp := 1001%Q |}
              Hacc eq_refl eq_refl eq_refl eq_refl eq_refl Hbad)
    as (Hgo & Hs & Hc & Hp & _).
  exact (conj Hgo (conj Hs (conj Hc Hp))).
Defined.

End ResponseFacts.

(* ================================================================== *)
(** * Lemmas: what the client does with a request *)
(* ================================================================== *)

Module ForwardFacts.
Import Py Json Client ClientParts.

Section WithLibraries.
Context `{Libraries}.
Variable local_api : http_request -> local_result.

(** [try_forward] by its parts. *)
Lemma try_forward_parsed (self : t) (request_data : value) (raw_request : str)
    (header_end_index : N) (method path : str) (headers : Dict.t str)
    (lib_text : str) :
  getitem request_data (u "data") = Some (JStr raw_request) ->
  parse_request raw_request = Some (header_end_index, method, path, headers) ->
  try_forward local_api self request_data lib_text
  = match request_body raw_request header_end_index headers with
    | None => ([], inr lib_text)
    | Some data =>
        ([CallLocal (local_request self method path headers data)],
         match local_api (local_request self method path headers data) with
         | Responded response => inl (response_text response)
         | Failed text => inr text
         end)
    end.
Proof.
  intros Hdata Hparse. unfold try_forward, parse_request in *. rewrite Hdata.
  destruct (find N.eqb (crlf ++ crlf) raw_request) as [i|]; [|discriminate].
  cbv zeta in *.
  destruct (split N.eqb (u " ") (hd [] (split N.eqb crlf (take i raw_request))))
    as [|m [|p [|v more]]]; try discriminate.
  injection Hparse as <- <- <- <-.
  unfold request_body, is_multipart, local_request.
  destruct (contains N.eqb (u "multipart/form-data") _).
  - now destruct (encode SurrogateEscape raw_request).
  - destruct (drop (i + 4) raw_request) as [|c body]; [reflexivity|].
    now destruct (encode Strict (c :: body)).
Qed.

(** X16.  When the call to the local service raises, the client has
    made that one call and answers the request itself: the response
    it returns carries the request's [id] and a [500] whose body ends
    with the text of the exception. *)
Theorem local_failure_answered_500 (self : t) (request_data id : value)
    (raw_request : str) (header_end_index : N) (method path : str)
    (headers : Dict.t str) (data : option bytes) (text lib_text : str) :
  getitem request_data (u "id") = Some id ->
  getitem request_data (u "data") = Some (JStr raw_request) ->
  parse_request raw_request = Some (header_end_index, method, path, headers) ->
  request_body raw_request header_end_index headers = Some data ->
  local_api (local_request self method path headers data) = Failed text ->
  forward_request_to_local_api local_api self request_data lib_text
  = ([CallLocal (local_request self method path headers data)],
     Some (JObj [(u "request_id", id);
                 (u "data", JStr (error_response text))]))
  /\ startswith N.eqb (u "HTTP/1.1 500 Internal Server Error" ++ crlf)
                (error_response text) = true.
Proof.
  intros Hid Hdata Hparse Hbody Hfail. split; [|reflexivity].
  unfold forward_request_to_local_api. rewrite Hid.
  rewrite (try_forward_parsed self request_data raw_request _ _ _ _ lib_text
             Hdata Hparse), Hbody, Hfail.
  reflexivity.
Qed.

(** X19.  A validly signed request frame whose payload has no [id]
    is passed over in silence: the local service is not called and no
    response frame is written, and the client goes on with the frames
    that follow. *)
Theorem request_without_id_unanswered (self : t) (f : frame)
    (later : list frame) (signature text : str) (request_data : value) :
  decode Strict (signature_data f) = Some signature ->
  verify_signature self (json_data f) signature = Some true ->
  decode Strict (json_data f) = Some text ->
  json_loads text = Loaded request_data ->
  getitem request_data (u "id") = None ->
  handle_request local_api self request_data f = []
  /\ receive_messages local_api self (f :: later)
     = receive_messages local_api self later.
Proof.
  intros Hsig Hver Htext Hload Hid.
  assert (Hnone : handle_request local_api self request_data f = []).
  { unfold handle_request, forward_request_to_local_api. now rewrite Hid. }
  split; [exact Hnone|].
  cbn [receive_messages]. now rewrite Hsig, Hver, Htext, Hload, Hnone.
Qed.

(** X20.  A request with an [id] is answered, and once: whatever its
    [data], the client makes at most one call to the local service and
    then returns one response, which carries the [id] of the request
    as [request_id] and a string as [data].  When the response can be
    framed and the tunnel takes it, the response frame is the last
    thing the client does for the request. *)
Theorem request_with_id_answered_once (self : t) (request_data id : value)
    (f : frame) :
  getitem request_data (u "id") = Some id ->
  exists calls text,
    forward_request_to_local_api local_api self request_data (error_text f)
    = (calls, Some (JObj [(u "request_id", id); (u "data", JStr text)]))
    /\ (calls = [] \/ exists r, calls = [CallLocal r])
    /\ (forall message,
          make_message self (JObj [(u "request_id", id); (u "data", JStr text)])
            = Some message ->
          fail_at f = None ->
          handle_request local_api self request_data f
          = calls ++ [Send message]).
Proof.
  intro Hid.
  assert (Hcalls : fst (try_forward local_api self request_data (error_text f)) = []
                   \/ exists r,
                        fst (try_forward local_api self request_data (error_text f))
                        = [CallLocal r]).
  { unfold try_forward.
    repeat match goal with
           | |- context [match ?x with _ => _ end] => destruct x
           end; cbn [fst]; eauto. }
  unfold handle_request, forward_request_to_local_api. rewrite Hid.
  destruct (try_forward local_api self request_data (error_text f)) as [calls r].
  cbn [fst] in Hcalls.
  exists calls, (match r with inl text => text | inr text => error_response text end).
  split; [reflexivity|]. split; [exact Hcalls|].
  intros message Hmsg Hfail. rewrite Hfail.
  now rewrite (ClientFacts.send_response_whole self _ message Hmsg).
Qed.

(** X25.  The header names of the request are compared as they are
    spelled.  Unless a header line has the name [Content-Type] in
    exactly these letters, the request is not taken for
    [multipart/form-data], whatever its other lines say. *)
Theorem content_type_name_exact (lines : list str) :
  (forall line key value,
      In line lines ->
      split1 N.eqb (u ":") line = [key; value] ->
      str_eqb (strip key) (u "Content-Type") = false) ->
  Dict.lookup (JStr (u "Content-Type")) (parse_headers lines []) = None
  /\ is_multipart (parse_headers lines []) = false.
Proof.
  intro Hlines.
  assert (Hnone : forall acc,
             Dict.lookup (JStr (u "Content-Type")) acc = None ->
             Dict.lookup (JStr (u "Content-Type")) (parse_headers lines acc)
             = None).
  { induction lines as [|line lines IH]; intros acc Hacc; [exact Hacc|].
    cbn [parse_headers].
    assert (IH' : forall acc',
               Dict.lookup (JStr (u "Content-Type")) acc' = None ->
               Dict.lookup (JStr (u "Content-Type")) (parse_headers lines acc')
               = None).
    { apply IH. intros l k v Hin. apply Hlines. now right. }
    destruct (contains N.eqb (u ":") line); [|now apply IH'].
    destruct (split1 N.eqb (u ":") line) as [|key [|value [|x more]]] eqn:Hs;
      try (now apply IH').
    apply IH'. rewrite DictFacts.lookup_set_other; [exact Hacc|].
    change (key_eqb (JStr (u "Content-Type")) (JStr (strip key)))
      with (str_eqb (u "Content-Type") (strip key)).
    rewrite DictFacts.str_eqb_sym.
    apply (Hlines line key value); [now left | exact Hs]. }
  split; [now apply Hnone|].
  unfold is_multipart. now rewrite (Hnone [] eq_refl).
Qed.

(** X27.  When the local service answers, the response that the
    client returns carries, as [data], text that encodes to the status
    line and the header lines of the answer, without any
    [Transfer-Encoding] line, a blank line, and then the body: the
    body itself, octet for octet, when it is UTF-8 text. *)
Theorem text_response_verbatim (self : t) (request_data id : value)
    (raw_request : str) (header_end_index : N) (method path : str)
    (headers : Dict.t str) (data : option bytes) (r : http_response)
    (head : bytes) (lib_text : str) :
  getitem request_data (u "id") = Some id ->
  getitem request_data (u "data") = Some (JStr raw_request) ->
  parse_request raw_request = Some (header_end_index, method, path, headers) ->
  request_body raw_request header_end_index headers = Some data ->
  local_api (local_request self method path headers data) = Responded r ->
  encode SurrogateEscape (response_head r) = Some head ->
  decode Strict (response_body r) <> None ->
  forward_request_to_local_api local_api self request_data lib_text
  = ([CallLocal (local_request self method path headers data)],
     Some (JObj [(u "request_id", id); (u "data", JStr (response_text r))]))
  /\ encode SurrogateEscape (response_text r) = Some (head ++ response_body r)
  /\ Forall (fun line =>
               exists key value,
                 line = key ++ u ": " ++ value
                 /\ In (key, value) (response_headers r)
                 /\ str_eqb (lower key) (u "transfer-encoding") = false)
            (format_headers (response_headers r)).
Proof.
  intros Hid Hdata Hparse Hbody Hresp Hhead Hstrict. split; [|split].
  - unfold forward_request_to_local_api. rewrite Hid.
    rewrite (try_forward_parsed self request_data raw_request _ _ _ _ lib_text
               Hdata Hparse), Hbody, Hresp.
    reflexivity.
  - destruct (Utf8Facts.ignore_round_trip (response_body r))
      as (t & kept & Hdec & Henc & Hsame & _).
    unfold response_text. rewrite Hdec, <- (Hsame Hstrict).
    now apply Utf8Facts.encode_app.
  - unfold format_headers. apply Forall_forall. intros line Hin.
    apply in_map_iff in Hin. destruct Hin as ([key value] & <- & Hin).
    apply filter_In in Hin. destruct Hin as (Hin & Hkeep).
    exists key, value. cbn [fst snd] in *. split; [reflexivity|].
    split; [exact Hin|]. now destruct (str_eqb (lower key) (u "transfer-encoding")).
Qed.

End WithLibraries.

Import Examples Scenarios.

(** The local service is down when [GET /health] arrives. *)
Lemma local_failure_answered_500_witness :
  forward_request_to_local_api unreachable tunnel_client
    request1 []
  = ([CallLocal (call "/health")],
     Some (JObj [(u "request_id", JStr id1);
                 (u "data",
                  JStr (error_response
                          (u "Cannot connect to host localhost:5001")))])).
Proof.
  assert (Hparse : parse_request get_health
                   = Some (35%N, u "GET", u "/health",
                           [(JStr (u "Host"), u "example")]))
    by (vm_compute; reflexivity).
  exact (proj1 (local_failure_answered_500 unreachable
                  tunnel_client request1 (JStr id1) get_health 35%N
                  (u "GET") (u "/health") [(JStr (u "Host"), u "example")]
                  None (u "Cannot connect to host localhost:5001") []
                  eq_refl eq_refl Hparse eq_refl eq_refl)).
Defined.


(** A request frame without [id], and [GET /status] behind it. *)
Lemma request_without_id_unanswered_witness :
  receive_messages (H := extended) healthy tunnel_client
    [to_client request_anonymous_digest request_anonymous_text;
     to_client request2_digest request2_text]
  = receive_messages (H := extended) healthy tunnel_client
      [to_client request2_digest request2_text].
Proof.
  assert (Hver : verify_signature (H := extended) tunnel_client
                   (json_data (to_client request_anonymous_digest
                                 request_anonymous_text))
                   request_anonymous_digest = Some true)
    by (vm_compute; reflexivity).
  assert (Htext : decode Strict
                    (json_data (to_client request_anonymous_digest
                                  request_anonymous_text))
                  = Some request_anonymous_text)
    by (vm_compute; reflexivity).
  assert (Hload : json_loads (Libraries := extended) request_anonymous_text
                  = Loaded request_anonymous)
    by (vm_compute; reflexivity).
  exact (proj2 (request_without_id_unanswered (H := extended) healthy
                  tunnel_client
                  (to_client request_anonymous_digest request_anonymous_text)
                  [to_client request2_digest request2_text]
                  request_anonymous_digest request_anonymous_text
                  request_anonymous
                  ltac:(vm_compute; reflexivity) Hver Htext Hload eq_refl)).
Defined.

(** [GET /health] for a local service that answers. *)
Lemma request_with_id_answered_once_witness :
  exists calls text,
    forward_request_to_local_api healthy tunnel_client request1 []
    = (calls, Some (JObj [(u "request_id", JStr id1); (u "data", JStr text)]))
    /\ (calls = [] \/ exists r, calls = [CallLocal r])
    /\ (forall message,
          make_message (H := fragment) tunnel_client
            (JObj [(u "request_id", JStr id1); (u "data", JStr text)])
            = Some message ->
          fail_at (to_client request1_digest request1_text) = None ->
          handle_request (H := fragment) healthy tunnel_client request1
            (to_client request1_digest request1_text)
          = calls ++ [Send message]).
Proof.
  exact (request_with_id_answered_once (H := fragment) healthy tunnel_client
           request1 (JStr id1) (to_client request1_digest request1_text)
           eq_refl).
Defined.


(** The name of the header is spelled in small letters. *)
Lemma content_type_name_exact_witness :
  is_multipart
    (parse_headers [u "content-type: multipart/form-data; boundary=x"] [])
  = false.
Proof.
  refine (proj2 (content_type_name_exact
                   [u "content-type: multipart/form-data; boundary=x"] _)).
  intros line key value [<-|[]] Hs. vm_compute in Hs.
  injection Hs as <- _. vm_compute. reflexivity.
Defined.


(** The local service answers [ok] to [GET /health]. *)
Lemma text_response_verbatim_witness :
  forward_request_to_local_api healthy tunnel_client request1 []
  = ([CallLocal (call "/health")], Some response1)
  /\ encode SurrogateEscape ok_response = Some (wire ok_response).
Proof.
  assert (Hparse : parse_request get_health
                   = Some (35%N, u "GET", u "/health",
                           [(JStr (u "Host"), u "example")]))
    by (vm_compute; reflexivity).
  assert (Hhead : encode SurrogateEscape
                    (response_head
                       {| status := 200; reason := u "OK";
                          response_headers := [(u "Content-Length", u "2")];
                          response_body := b "ok" |})
                  = Some (wire (u "HTTP/1.1 200 OK" ++ crlf
                                  ++ u "Content-Length: 2" ++ crlf ++ crlf)))
    by (vm_compute; reflexivity).
  assert (Hstrict : decode Strict (b "ok") <> None)
    by (vm_compute; discriminate).
  destruct (text_response_verbatim healthy tunnel_client request1 (JStr id1)
              get_health 35%N (u "GET") (u "/health")
              [(JStr (u "Host"), u "example")] None
              {| status := 200; reason := u "OK";
                 response_headers := [(u "Content-Length", u "2")];
                 response_body := b "ok" |}
              _ [] eq_refl eq_refl Hparse eq_refl eq_refl Hhead Hstrict)
    as (Hfwd & Henc & _).
  exact (conj Hfwd Henc).
Defined.

End ForwardFacts.

(* ================================================================== *)
(** * Lemmas: the body of a request, from the public connection to the
      local service *)
(* ================================================================== *)

Module SeqFacts.
Import Py.
Local Open Scope N_scope.

Section Seq.
Context {A : Type}.
Variable eqb : A -> A -> bool.

Lemma startswith_length (p s : list A) :
  startswith eqb p s = true -> (List.length p <= List.length s)%nat.
Proof.
  revert s. induction p as [|x p IH]; intros [|y s]; cbn; try lia; try discriminate.
  rewrite andb_true_iff. intros [_ Hs]. specialize (IH s Hs). lia.
Qed.

Lemma startswith_app (p s t : list A) :
  (List.length p <= List.length s)%nat ->
  startswith eqb p (s ++ t) = startswith eqb p s.
Proof.
  revert s. induction p as [|x p IH]; intros [|y s]; cbn; try lia; try reflexivity.
  intro Hlen. rewrite IH by lia. reflexivity.
Qed.

Lemma startswith_take (p s : list A) (n : N) :
  Chunked.len p <= n ->
  startswith eqb p (take n s) = startswith eqb p s.
Proof.
  unfold Chunked.len. revert s n.
  induction p as [|x p IH]; intros s n Hn; [reflexivity|].
  destruct s as [|y s]; [reflexivity|]. cbn [take].
  cbn [List.length] in Hn.
  destruct (N.eqb_spec n 0) as [E|E]; [lia|]. cbn [startswith].
  rewrite IH by lia. reflexivity.
Qed.

Lemma find_length (p s : list A) (i : N) :
  find eqb p s = Some i -> i + Chunked.len p <= Chunked.len s.
Proof.
  unfold Chunked.len. revert i. induction s as [|y s IH]; intro i; cbn [find].
  - destruct (startswith eqb p []) eqn:E; [|discriminate].
    intros [= <-]. apply startswith_length in E. lia.
  - destruct (startswith eqb p (y :: s)) eqn:E.
    + intros [= <-]. apply startswith_length in E. lia.
    + destruct (find eqb p s) as [i'|]; [|discriminate].
      intros [= <-]. specialize (IH i' eq_refl). cbn [List.length]. lia.
Qed.

Lemma find_app (p s t : list A) (i : N) :
  find eqb p s = Some i -> find eqb p (s ++ t) = Some i.
Proof.
  revert i. induction s as [|y s IH]; intro i.
  - cbn [find]. destruct (startswith eqb p []) eqn:E; [|discriminate].
    intros [= <-]. destruct p; [|discriminate]. now destruct t.
  - intro Hf. pose proof (find_length _ _ _ Hf) as Hlen.
    cbn [find] in Hf. cbn [app find].
    assert (Hs : startswith eqb p (y :: s ++ t) = startswith eqb p (y :: s))
      by (apply (startswith_app p (y :: s) t); unfold Chunked.len in Hlen; lia).
    rewrite Hs.
    destruct (startswith eqb p (y :: s)); [exact Hf|].
    destruct (find eqb p s) as [i'|]; [|discriminate].
    now rewrite (IH i' eq_refl).
Qed.

Lemma find_take (p s : list A) (i : N) :
  find eqb p s = Some i -> find eqb p (take (i + Chunked.len p) s) = Some i.
Proof.
  revert i. induction s as [|y s IH]; intro i.
  - cbn [find take]. now destruct (startswith eqb p []).
  - cbn [find]. destruct (startswith eqb p (y :: s)) eqn:E.
    + intros [= <-]. rewrite N.add_0_l.
      destruct p as [|x p]; [reflexivity|].
      pose proof (startswith_take (x :: p) (y :: s) (Chunked.len (x :: p))
                    (N.le_refl _)) as Ht.
      rewrite E in Ht. cbn [take] in *.
      destruct (N.eqb_spec (Chunked.len (x :: p)) 0) as [E0|_];
        [unfold Chunked.len in E0; cbn in E0; lia|].
      cbn [find]. now rewrite Ht.
    + destruct (find eqb p s) as [i'|] eqn:Hf; [|discriminate].
      intros [= <-]. cbn [take].
      destruct (N.eqb_spec (N.succ i' + Chunked.len p) 0) as [E0|_]; [lia|].
      replace (N.pred (N.succ i' + Chunked.len p)) with (i' + Chunked.len p) by lia.
      cbn [find].
      assert (Ht : startswith eqb p (y :: take (i' + Chunked.len p) s) = false).
      { pose proof (startswith_take p (y :: s) (N.succ i' + Chunked.len p)) as Ht.
        cbn [take] in Ht.
        destruct (N.eqb_spec (N.succ i' + Chunked.len p) 0) as [E0|_]; [lia|].
        replace (N.pred (N.succ i' + Chunked.len p)) with (i' + Chunked.len p)
          in Ht by lia.
        rewrite Ht by lia. exact E. }
      rewrite Ht. now rewrite (IH i' eq_refl).
Qed.

End Seq.

Lemma startswith_ord (p s : bytes) :
  startswith N.eqb (map ord p) (map ord s) = startswith byte_eqb p s.
Proof.
  revert s. induction p as [|x p IH]; intros [|y s]; cbn; try reflexivity.
  now rewrite IH.
Qed.

Lemma find_ord (p s : bytes) :
  find N.eqb (map ord p) (map ord s) = find byte_eqb p s.
Proof.
  induction s as [|y s IH].
  - cbn [map find]. now rewrite <- startswith_ord.
  - cbn [map find]. rewrite <- IH.
    change (map ord p) with (map ord p).
    rewrite <- (startswith_ord p (y :: s)). reflexivity.
Qed.

End SeqFacts.

Module CodecFacts.
Import Py.
Local Open Scope N_scope.

Import Framing.

(** ASCII octets decode to themselves, whatever follows them and
    whatever the error handler. *)
Lemma utf8_items_ascii_app (h r : bytes) :
  ascii_octets h ->
  utf8_items (h ++ r) = map (fun x => Char (ord x)) h ++ utf8_items r.
Proof.
  induction 1 as [|x h Hx _ IH]; [reflexivity|].
  cbn [app map utf8_items]. cbv zeta.
  destruct (N.ltb_spec (ord x) 0x80); [|lia]. now rewrite IH.
Qed.

Lemma decode_ascii_app (e : errors) (h r : bytes) :
  ascii_octets h ->
  decode e (h ++ r) = option_map (app (map ord h)) (decode e r).
Proof.
  intro Hh. unfold decode. rewrite (utf8_items_ascii_app h r Hh).
  induction h as [|x h IH]; cbn [map app decode_items].
  - now destruct (decode_items e (utf8_items r)).
  - inversion Hh; subst. rewrite IH by assumption.
    now destruct (decode_items e (utf8_items r)).
Qed.

Lemma decode_ascii (e : errors) (h : bytes) :
  ascii_octets h -> decode e h = Some (map ord h).
Proof.
  intro Hh. rewrite <- (app_nil_r h) at 1. rewrite (decode_ascii_app e h [] Hh).
  cbn. now rewrite app_nil_r.
Qed.

(** Where [strict] decodes, [surrogateescape] decodes to the same. *)
Lemma strict_items_escape (l : list item) (t : str) :
  decode_items Strict l = Some t -> decode_items SurrogateEscape l = Some t.
Proof.
  revert t. induction l as [|[c|bs] l IH]; intro t; cbn [decode_items].
  - auto.
  - destruct (decode_items Strict l) as [t'|]; [|discriminate].
    now rewrite (IH t' eq_refl).
  - discriminate.
Qed.

(** What [strict] decodes is encoded back by [strict]. *)
Lemma strict_items_round_trip (l : list item) (t : str) :
  Forall well_read l ->
  decode_items Strict l = Some t ->
  encode Strict t = Some (concat (map octets l)).
Proof.
  intro Hl. revert t. induction Hl as [|[c|bs] l Hi _ IH]; intro t;
    cbn [decode_items].
  - now intros [= <-].
  - destruct (decode_items Strict l) as [t'|]; [|discriminate].
    intros [= <-]. cbn [encode map concat octets]. cbn [well_read] in Hi.
    destruct (encode1 c) as [e|]; [|congruence].
    now rewrite (IH t' eq_refl).
  - discriminate.
Qed.

Lemma strict_round_trip (s : bytes) (t : str) :
  decode Strict s = Some t -> encode Strict t = Some s.
Proof.
  intro Hd. destruct (Utf8Facts.utf8_items_sound s) as (Hw & Hc).
  rewrite <- Hc at 1. now apply strict_items_round_trip.
Qed.

Lemma encode1_escape (x : byte) : 0x80 <= ord x -> encode1 (0xDC00 + ord x) = None.
Proof.
  intro Hx. pose proof (Utf8Facts.ord_bound x) as Hb. unfold encode1.
  destruct (N.ltb_spec (0xDC00 + ord x) 0x80); [lia|].
  destruct (N.ltb_spec (0xDC00 + ord x) 0x800); [lia|].
  destruct (N.leb_spec 0xD800 (0xDC00 + ord x)); [|lia].
  destruct (N.leb_spec (0xDC00 + ord x) 0xDFFF); [|lia].
  reflexivity.
Qed.

Lemma encode_strict_stops (c : codepoint) (s : str) :
  encode1 c = None -> encode Strict (c :: s) = None.
Proof. intro Hc. cbn [encode]. now rewrite Hc. Qed.

(** What [strict] does not decode, [surrogateescape] decodes to text
    that [strict] does not encode. *)
Lemma escaped_items_not_strict (l : list item) (t : str) :
  Forall well_read l ->
  decode_items Strict l = None ->
  decode_items SurrogateEscape l = Some t ->
  encode Strict t = None.
Proof.
  intro Hl. revert t. induction Hl as [|[c|bs] l Hi _ IH]; intro t;
    cbn [decode_items].
  - discriminate.
  - destruct (decode_items Strict l); [discriminate|]. intros _.
    destruct (decode_items SurrogateEscape l) as [t'|]; [|discriminate].
    intros [= <-]. cbn [encode].
    destruct (encode1 c); [|reflexivity]. now rewrite (IH t' eq_refl eq_refl).
  - intros _. destruct (decode_items SurrogateEscape l) as [t'|]; [|discriminate].
    intros [= <-]. destruct Hi as (Hne & Hall).
    destruct bs as [|x bs]; [congruence|]. inversion Hall; subst.
    change (encode Strict ((0xDC00 + ord x)
                             :: (map (fun x => 0xDC00 + ord x) bs ++ t')) = None).
    now apply encode_strict_stops, encode1_escape.
Qed.

Lemma escaped_not_strict (s : bytes) (t : str) :
  decode Strict s = None -> decode SurrogateEscape s = Some t ->
  encode Strict t = None.
Proof.
  destruct (Utf8Facts.utf8_items_sound s) as (Hw & _).
  now apply escaped_items_not_strict.
Qed.

Lemma ascii_octets_encode (h : bytes) :
  ascii_octets h -> encode SurrogateEscape (map ord h) = Some h.
Proof.
  induction 1 as [|x h Hx _ IH]; [reflexivity|].
  cbn [map encode]. rewrite (Utf8Facts.encode1_ascii x Hx), IH. reflexivity.
Qed.

End CodecFacts.

Module BodyFacts.
Import Py Json Framing Client ClientParts.
Local Open Scope N_scope.

Lemma take_app_le {A} (n : N) (a c : list A) :
  n <= Chunked.len a -> take n (a ++ c) = take n a.
Proof.
  unfold Chunked.len. intro Hn. rewrite !PyFacts.take_firstn, firstn_app.
  replace (N.to_nat n - List.length a)%nat with 0%nat by lia.
  cbn. apply app_nil_r.
Qed.

Lemma len_map {A B} (f : A -> B) (s : list A) :
  Chunked.len (map f s) = Chunked.len s.
Proof. unfold Chunked.len. now rewrite length_map. Qed.

(** The header block that [readuntil] returns ends with the first
    blank line of the stream. *)
Lemma readuntil_first (limit : N) (stream headers_data rest : bytes) :
  Server.readuntil limit (crlf_b ++ crlf_b) stream = Some (headers_data, rest) ->
  exists i,
    find N.eqb (crlf ++ crlf) (map ord headers_data) = Some i
    /\ Chunked.len headers_data = i + 4.
Proof.
  unfold Server.readuntil.
  destruct (find byte_eqb (crlf_b ++ crlf_b) stream) as [i|] eqn:Hf; [|discriminate].
  destruct (i <=? limit); [|discriminate].
  intros [= <- _]. exists i.
  pose proof (SeqFacts.find_length _ _ _ _ Hf) as Hlen.
  pose proof (SeqFacts.find_take _ _ _ _ Hf) as Ht.
  unfold Server.len in *.
  change (Chunked.len (crlf_b ++ crlf_b)) with 4 in *.
  split.
  - change (crlf ++ crlf) with (map ord (crlf_b ++ crlf_b)).
    now rewrite SeqFacts.find_ord.
  - rewrite PyFacts.length_take.
    change (Chunked.len (_ :: _ :: crlf_b)) with 4. lia.
Qed.

Section WithLibraries.
Context `{Libraries}.
Variable local_api : http_request -> local_result.

(** A readable public request with an ASCII header block, as the
    server wraps it and the client takes it apart. *)
Lemma tunnelled_request (self : t) (stream : bytes) (id : str)
    (now : Server.time) (peername : value) (headers_data rest : bytes)
    (content_length : Z) (header_end_index : N) (method path : str)
    (headers : Dict.t str) :
  Server.readuntil (2 ^ 20) (crlf_b ++ crlf_b) stream = Some (headers_data, rest) ->
  ascii_octets headers_data ->
  Server.scan_content_length (split N.eqb crlf (map ord headers_data))
    = Some content_length ->
  Z.to_N content_length <= Chunked.len rest ->
  parse_request (map ord headers_data)
    = Some (header_end_index, method, path, headers) ->
  exists body_part,
    let raw_request := map ord headers_data ++ body_part in
    let body_data := take (Z.to_N content_length) rest in
    Server.read_request stream id now peername
    = ([Server.LogContentLength content_length;
        Server.LogBodySize (Z.to_N content_length)],
       Some (JObj [(u "id", JStr id); (u "timestamp", JNum now);
                   (u "data", JStr raw_request); (u "client_addr", peername)]))
    /\ decode SurrogateEscape body_data = Some body_part
    /\ encode SurrogateEscape body_part = Some body_data
    /\ encode SurrogateEscape raw_request = Some (headers_data ++ body_data)
    /\ parse_request raw_request = Some (header_end_index, method, path, headers)
    /\ Chunked.len headers_data = header_end_index + 4.
Proof.
  intros Hread Hascii Hscan Hlen Hparse.
  destruct (Utf8Facts.surrogateescape_round_trip (take (Z.to_N content_length) rest))
    as (body_part & Hd & He).
  exists body_part. cbv zeta.
  destruct (readuntil_first _ _ _ _ Hread) as (i & Hfind & Hi).
  assert (Hidx : header_end_index = i).
  { unfold parse_request in Hparse. rewrite Hfind in Hparse. cbv zeta in Hparse.
    destruct (split N.eqb (u " ") _) as [|m [|p [|v more]]]; try discriminate.
    now injection Hparse as <- _ _ _. }
  subst i.
  split; [|split; [exact Hd|split; [exact He|split; [|split; [|exact Hi]]]]].
  - unfold Server.read_request. rewrite Hread.
    rewrite (CodecFacts.decode_ascii Ignore headers_data Hascii), Hscan.
    rewrite (PublicFacts.read_body content_length rest Hlen).
    rewrite (CodecFacts.decode_ascii_app SurrogateEscape headers_data _ Hascii), Hd.
    cbn [option_map app]. unfold Server.len.
    rewrite PyFacts.length_take. now rewrite N.min_l by exact Hlen.
  - apply Utf8Facts.encode_app; [|exact He].
    now apply CodecFacts.ascii_octets_encode.
  - unfold parse_request in *.
    pose proof (SeqFacts.find_app _ _ _ body_part _ Hfind) as Hfind'.
    unfold str, codepoint in *.
    rewrite Hfind'. rewrite Hfind in Hparse.
    cbv zeta in *. rewrite take_app_le; [exact Hparse|].
    rewrite len_map. lia.
Qed.

(** X17.  The body of a public request reaches the local service octet
    for octet.  When the header block of the request is ASCII text and
    the request can be read, the call that the client makes for the
    request frame of the server carries as [data] exactly the
    [Content-Length] octets that follow the blank line: whatever
    octets they are when the request is [multipart/form-data], and
    else when they are UTF-8 text; an empty body of a request that is
    not multipart is passed as [None]. *)
Theorem request_body_through_tunnel (self : t) (stream : bytes) (id : str)
    (now : Server.time) (peername : value) (headers_data rest : bytes)
    (content_length : Z) (header_end_index : N) (method path : str)
    (headers : Dict.t str) (lib_text : str) :
  Server.readuntil (2 ^ 20) (crlf_b ++ crlf_b) stream = Some (headers_data, rest) ->
  ascii_octets headers_data ->
  Server.scan_content_length (split N.eqb crlf (map ord headers_data))
    = Some content_length ->
  Z.to_N content_length <= Chunked.len rest ->
  parse_request (map ord headers_data)
    = Some (header_end_index, method, path, headers) ->
  let body_data := take (Z.to_N content_length) rest in
  exists out request_data,
    Server.read_request stream id now peername = (out, Some request_data)
    /\ (is_multipart headers = true ->
        fst (forward_request_to_local_api local_api self request_data lib_text)
        = [CallLocal (local_request self method path headers (Some body_data))])
    /\ (is_multipart headers = false ->
        decode Strict body_data <> None ->
        fst (forward_request_to_local_api local_api self request_data lib_text)
        = [CallLocal (local_request self method path headers
                        match body_data with
                        | [] => None
                        | _ => Some body_data
                        end)]).
Proof.
  intros Hread Hascii Hscan Hlen Hparse body_data.
  destruct (tunnelled_request self stream id now peername _ _ _ _ _ _ _
              Hread Hascii Hscan Hlen Hparse)
    as (body_part & Hreq & Hd & He & Hraw & Hparse' & Hi).
  cbv zeta in *. fold body_data in Hd, He, Hraw.
  set (request_data :=
         JObj [(u "id", JStr id); (u "timestamp", JNum now);
               (u "data", JStr (map ord headers_data ++ body_part));
               (u "client_addr", peername)]) in *.
  assert (Hid : getitem request_data (u "id") = Some (JStr id))
    by reflexivity.
  assert (Hdata : getitem request_data (u "data")
                  = Some (JStr (map ord headers_data ++ body_part)))
    by reflexivity.
  exists [Server.LogContentLength content_length;
          Server.LogBodySize (Z.to_N content_length)], request_data.
  split; [exact Hreq|].
  assert (Hfwd : forall data,
             request_body (map ord headers_data ++ body_part) header_end_index
               headers = Some data ->
             fst (forward_request_to_local_api local_api self request_data
                    lib_text)
             = [CallLocal (local_request self method path headers data)]).
  { intros data Hbody. unfold forward_request_to_local_api. rewrite Hid.
    rewrite (ForwardFacts.try_forward_parsed local_api self request_data
               _ _ _ _ _ lib_text Hdata Hparse'), Hbody.
    reflexivity. }
  assert (Hdrop : drop (header_end_index + 4) (map ord headers_data ++ body_part)
                  = body_part).
  { rewrite <- Hi, <- (len_map ord headers_data).
    apply FramingFacts.drop_app_exact. }
  split.
  - intro Hmulti. apply Hfwd. unfold request_body. rewrite Hmulti, Hraw.
    rewrite <- Hi. now rewrite FramingFacts.drop_app_exact.
  - intros Hmulti Hstrict. apply Hfwd. unfold request_body. rewrite Hmulti.
    unfold str, codepoint in *. rewrite Hdrop.
    destruct (decode Strict body_data) as [text|] eqn:Hs;
      [|now destruct Hstrict].
    assert (Heq : body_part = text).
    { apply CodecFacts.strict_items_escape in Hs. unfold decode in Hd.
      congruence. }
    subst text. pose proof (CodecFacts.strict_round_trip _ _ Hs) as Henc.
    destruct body_part as [|c body_part].
    + cbn in Henc. injection Henc as <-. reflexivity.
    + rewrite Henc. cbn [option_map].
      destruct body_data as [|x body_data']; [|reflexivity].
      cbn in Hs. discriminate.
Qed.

(** X18.  A body that is no UTF-8 text, in a request that is not
    [multipart/form-data], never reaches the local service: the client
    makes no call and answers [500] with the text of the exception
    that [encode] raised. *)
Theorem binary_body_rejected (self : t) (stream : bytes) (id : str)
    (now : Server.time) (peername : value) (headers_data rest : bytes)
    (content_length : Z) (header_end_index : N) (method path : str)
    (headers : Dict.t str) (lib_text : str) :
  Server.readuntil (2 ^ 20) (crlf_b ++ crlf_b) stream = Some (headers_data, rest) ->
  ascii_octets headers_data ->
  Server.scan_content_length (split N.eqb crlf (map ord headers_data))
    = Some content_length ->
  Z.to_N content_length <= Chunked.len rest ->
  parse_request (map ord headers_data)
    = Some (header_end_index, method, path, headers) ->
  is_multipart headers = false ->
  decode Strict (take (Z.to_N content_length) rest) = None ->
  exists out request_data,
    Server.read_request stream id now peername = (out, Some request_data)
    /\ forward_request_to_local_api local_api self request_data lib_text
       = ([], Some (JObj [(u "request_id", JStr id);
                          (u "data", JStr (error_response lib_text))])).
Proof.
  intros Hread Hascii Hscan Hlen Hparse Hmulti Hstrict.
  destruct (tunnelled_request self stream id now peername _ _ _ _ _ _ _
              Hread Hascii Hscan Hlen Hparse)
    as (body_part & Hreq & Hd & He & Hraw & Hparse' & Hi).
  cbv zeta in *.
  set (request_data :=
         JObj [(u "id", JStr id); (u "timestamp", JNum now);
               (u "data", JStr (map ord headers_data ++ body_part));
               (u "client_addr", peername)]) in *.
  assert (Hid : getitem request_data (u "id") = Some (JStr id))
    by reflexivity.
  assert (Hdata : getitem request_data (u "data")
                  = Some (JStr (map ord headers_data ++ body_part)))
    by reflexivity.
  exists [Server.LogContentLength content_length;
          Server.LogBodySize (Z.to_N content_length)], request_data.
  split; [exact Hreq|].
  unfold forward_request_to_local_api. rewrite Hid.
  rewrite (ForwardFacts.try_forward_parsed local_api self request_data
             _ _ _ _ _ lib_text Hdata Hparse').
  unfold request_body. rewrite Hmulti.
  assert (Hdrop : drop (header_end_index + 4) (map ord headers_data ++ body_part)
                  = body_part).
  { rewrite <- Hi, <- (len_map ord headers_data).
    apply FramingFacts.drop_app_exact. }
  unfold str, codepoint in *. rewrite Hdrop.
  pose proof (CodecFacts.escaped_not_strict _ _ Hstrict Hd) as Henc.
  destruct body_part as [|c body_part].
  - cbn in He. injection He as He. rewrite <- He in Hstrict. discriminate.
  - now rewrite Henc.
Qed.

End WithLibraries.

Import Examples Scenarios.

Lemma upload_heads_ascii :
  ascii_octets (wire multipart_head) /\ ascii_octets (wire octet_stream_head).
Proof.
  split; apply Forall_forall; intros x Hx; vm_compute in Hx;
    repeat (destruct Hx as [<-|Hx]; [reflexivity|]); destruct Hx.
Qed.

(** A multipart upload of two octets that are no UTF-8. *)
Lemma request_body_through_tunnel_witness :
  exists out request_data,
    Server.read_request (H := fragment)
      (wire multipart_head ++ [xff; xfe] ++ b "more") id1 1001%Q peer
    = (out, Some request_data)
    /\ fst (forward_request_to_local_api healthy tunnel_client
              request_data [])
       = [CallLocal
            {| method := u "POST";
               url := u "http://localhost:5001/upload";
               headers :=
                 [(JStr (u "Content-Type"), u "multipart/form-data; boundary=x");
                  (JStr (u "Content-Length"), u "2")];
               data := Some [xff; xfe] |}].
Proof.
  assert (H1 : Server.readuntil (2 ^ 20) (crlf_b ++ crlf_b)
                 (wire multipart_head ++ [xff; xfe] ++ b "more")
               = Some (wire multipart_head, [xff; xfe] ++ b "more"))
    by (vm_compute; reflexivity).
  assert (H3 : Server.scan_content_length (H := fragment)
                 (split N.eqb crlf (map ord (wire multipart_head)))
               = Some 2%Z)
    by (vm_compute; reflexivity).
  assert (H4 : Z.to_N 2 <= Chunked.len ([xff; xfe] ++ b "more"))
    by (vm_compute; discriminate).
  assert (H5 : parse_request (map ord (wire multipart_head))
               = Some (87, u "POST", u "/upload",
                       [(JStr (u "Content-Type"),
                         u "multipart/form-data; boundary=x");
                        (JStr (u "Content-Length"), u "2")]))
    by (vm_compute; reflexivity).
  destruct (request_body_through_tunnel (H := fragment) healthy tunnel_client
              _ id1 1001%Q peer _ _ _ _ _ _ _ []
              H1 (proj1 upload_heads_ascii) H3 H4 H5)
    as (out & request_data & Hr & Hm & _).
  exists out, request_data. split; [exact Hr|]. exact (Hm eq_refl).
Defined.

(** The same two octets sent as [application/octet-stream]. *)
Lemma binary_body_rejected_witness :
  exists out request_data,
    Server.read_request (H := fragment)
      (wire octet_stream_head ++ [xff; xfe]) id1 1001%Q peer
    = (out, Some request_data)
    /\ forward_request_to_local_api healthy tunnel_client
         request_data (u "'utf-8' codec can't encode characters")
       = ([], Some (JObj [(u "request_id", JStr id1);
                          (u "data",
                           JStr (error_response
                                   (u "'utf-8' codec can't encode characters")))])).
Proof.
  assert (H1 : Server.readuntil (2 ^ 20) (crlf_b ++ crlf_b)
                 (wire octet_stream_head ++ [xff; xfe])
               = Some (wire octet_stream_head, [xff; xfe]))
    by (vm_compute; reflexivity).
  assert (H3 : Server.scan_content_length (H := fragment)
                 (split N.eqb crlf (map ord (wire octet_stream_head)))
               = Some 2%Z)
    by (vm_compute; reflexivity).
  assert (H4 : Z.to_N 2 <= Chunked.len [xff; xfe])
    by (vm_compute; discriminate).
  assert (H5 : parse_request (map ord (wire octet_stream_head))
               = Some (80, u "POST", u "/upload",
                       [(JStr (u "Content-Type"), u "application/octet-stream");
                        (JStr (u "Content-Length"), u "2")]))
    by (vm_compute; reflexivity).
  exact (binary_body_rejected (H := fragment) healthy tunnel_client
           _ id1 1001%Q peer _ _ _ _ _ _ _ _
           H1 (proj2 upload_heads_ascii) H3 H4 H5 eq_refl eq_refl).
Defined.

End BodyFacts.

(* ================================================================== *)
(** * Lemmas: the client and the server together *)
(* ================================================================== *)

Module TunnelFacts.
Import Py Json Framing.

Section WithLibraries.
Context `{Libraries}.
Variable local_api : Client.http_request -> Client.local_result.

(** What the two theorems below ask of the libraries, for the payload
    [payload] and the key [key]: [json.loads] reads back what
    [json.dumps] wrote, which is ASCII text (the default of
    [json.dumps] is [ensure_ascii=True]), and a hexadecimal digest is
    ASCII text. *)
Hypothesis digest_ascii :
  forall key data, is_ascii (hmac_sha256_hexdigest key data) = true.

(** A frame of the client, as the server reads and checks it. *)
Lemma client_frame_accepted (self : Client.t) (st : Server.t) (payload : value)
    (message : bytes) (now : Server.time) (fail_at : option N) :
  Client.make_message self payload = Some message ->
  Server.secret_key st = Client.secret_key self ->
  json_loads (json_dumps payload) = Loaded payload ->
  is_ascii (json_dumps payload) = true ->
  exists signature_data json_data,
    read_head message = Some (signature_data, json_data)
    /\ Server.accepted st
         {| Server.signature_data := signature_data;
            Server.json_data := json_data;
            Server.now := now; Server.fail_at := fail_at |}
         payload.
Proof.
  unfold Client.make_message, Client.create_signature. intros Hm Hkey Hload Htext.
  rewrite (FramingFacts.ascii_encode _ Htext) in Hm.
  set (json_data := map chr8 (json_dumps payload)) in *.
  pose proof (digest_ascii (Client.secret_key self) json_data) as Hascii.
  destruct (encode Strict (hmac_sha256_hexdigest (Client.secret_key self) json_data))
    as [signature_bytes|] eqn:Es; [|discriminate].
  unfold Client.len in Hm.
  destruct (Server.to_bytes4 (Chunked.len signature_bytes)) as [prefix|] eqn:Ep;
    [|discriminate].
  injection Hm as <-.
  destruct (FramingFacts.framed_read_back _ _ _ _ [] Hascii Es Ep) as (Hr & Hd & Hc).
  rewrite !app_nil_r in Hr.
  exists signature_bytes, json_data. split; [exact Hr|].
  exists (hmac_sha256_hexdigest (Client.secret_key self) json_data),
    (json_dumps payload).
  cbn [Server.signature_data Server.json_data].
  split; [exact Hd|]. split; [|split; [|exact Hload]].
  - unfold Server.verify_signature. rewrite Hkey. exact Hc.
  - now apply FramingFacts.ascii_decode.
Qed.

(** X21.  The registration that [register_with_server] writes, read
    and handled by a server that holds the same key, enters the client
    in the registry: its [client_id] is bound to the connection the
    frame came on and to the server's clock.  Nothing is written back
    to the client and no connection changes. *)
Theorem registration_handshake (self : Client.t) (st : Server.t)
    (w : Server.writer) (now_client : Q) (now_server : Server.time)
    (message : bytes) :
  let register_data :=
    JObj [(u "type", JStr (u "register"));
          (u "client_id", JStr (Client.client_id self));
          (u "timestamp", JNum now_client)] in
  Client.register_with_server self now_client true = [Client.Send message] ->
  Server.secret_key st = Client.secret_key self ->
  json_loads (json_dumps register_data) = Loaded register_data ->
  is_ascii (json_dumps register_data) = true ->
  exists signature_data json_data,
    read_head message = Some (signature_data, json_data)
    /\ let r := Server.handle_frame st w
                  {| Server.signature_data := signature_data;
                     Server.json_data := json_data;
                     Server.now := now_server; Server.fail_at := None |} in
       snd r = true
       /\ Dict.lookup (JStr (Client.client_id self)) (Server.clients (fst r))
          = Some (w, now_server)
       /\ Server.pending_requests (fst r) = Server.pending_requests st
       /\ Server.conns (fst r) = Server.conns st.
Proof.
  intros register_data Hsend Hkey Hload Htext.
  assert (Hm : Client.make_message self register_data = Some message).
  { unfold Client.register_with_server in Hsend. fold register_data in Hsend.
    destruct (Client.make_message self register_data) as [m|]; [|discriminate].
    now injection Hsend as <-. }
  destruct (client_frame_accepted self st register_data message now_server None
              Hm Hkey Hload Htext)
    as (signature_data & json_data & Hr & Hacc).
  exists signature_data, json_data. split; [exact Hr|]. cbv zeta.
  rewrite (ServerFacts.handle_frame_accepted st w _ register_data Hacc).
  change (get register_data (u "type")) with (Some (JStr (u "register"))).
  change (eq_str (JStr (u "register")) (u "register")) with true.
  change (get register_data (u "client_id"))
    with (Some (JStr (Client.client_id self))).
  cbn [hashable fst snd Server.now Server.clients Server.pending_requests
       Server.conns Server.say Server.with_clients].
  split; [reflexivity|]. split; [|split; reflexivity].
  apply DictFacts.lookup_set_same. now apply DictFacts.key_eqb_refl.
Qed.



End WithLibraries.

Import Examples.

Lemma fragment_digest_ascii :
  forall key data,
    is_ascii (hmac_sha256_hexdigest (Libraries := fragment) key data) = true.
Proof.
  intros k data. cbn [hmac_sha256_hexdigest fragment]. unfold hexdigest.
  destruct (bytes_eqb k key); [|reflexivity].
  match goal with
  | |- context [List.find ?f payloads] =>
      destruct (List.find f payloads) as [p|] eqn:E; [|reflexivity]
  end.
  apply find_some in E. destruct E as [Hin _]. unfold payloads in Hin.
  repeat (destruct Hin as [<-|Hin]; [vm_compute; reflexivity|]).
  destruct Hin.
Qed.

(** The client [c1] registers on connection 1 of a fresh server. *)
Lemma registration_handshake_witness :
  exists signature_data json_data,
    read_head (framed register_digest register_text)
      = Some (signature_data, json_data)
    /\ let r := Server.handle_frame (H := fragment) server0 1%nat
                  {| Server.signature_data := signature_data;
                     Server.json_data := json_data;
                     Server.now := 1003%Q; Server.fail_at := None |} in
       snd r = true
       /\ Dict.lookup (JStr (u "c1")) (Server.clients (fst r))
          = Some (1%nat, 1003%Q)
       /\ Server.pending_requests (fst r) = Server.pending_requests server0
       /\ Server.conns (fst r) = Server.conns server0.
Proof.
  assert (Hsend : Client.register_with_server (H := fragment) tunnel_client
                    1000%Q true
                  = [Client.Send (framed register_digest register_text)])
    by (vm_compute; reflexivity).
  assert (Hload : json_loads (Libraries := fragment)
                    (json_dumps (Libraries := fragment) register)
                  = Loaded register)
    by (vm_compute; reflexivity).
  assert (Htext : is_ascii (json_dumps (Libraries := fragment) register) = true)
    by (vm_compute; reflexivity).
  exact (registration_handshake (H := fragment) fragment_digest_ascii
           tunnel_client server0 1%nat 1000%Q 1003%Q _
           Hsend eq_refl Hload Htext).
Defined.




End TunnelFacts.

(* ================================================================== *)
(** * Lemmas: the registry holds open connections *)
(* ================================================================== *)

Module InvariantFacts.
Import Py Json Server ServerFacts Registry.

Lemma in_set {V : Type} (k k0 : value) (v v0 : V) (d : Dict.t V) :
  In (k, v) (Dict.set k0 v0 d) -> In (k, v) d \/ v = v0.
Proof.
  induction d as [|[k' v'] d IH]; cbn [Dict.set].
  - intros [[= _ <-]|[]]. now right.
  - destruct (key_eqb k0 k').
    + intros [[= _ <-]|Hin]; [now right | left; now right].
    + intros [E|Hin]; [left; now left|].
      destruct (IH Hin) as [Hd|Hv]; [left; now right | now right].
Qed.

Lemma in_touch (w : writer) (now : time) (d : Dict.t (writer * time))
    (k : value) (cw : writer) (ls : time) :
  In (k, (cw, ls)) (touch w now d) -> In (k, (cw, ls)) d \/ cw = w.
Proof.
  induction d as [|[k' [cw' ls']] d IH]; cbn [touch]; [intros []|].
  destruct (Nat.eqb_spec cw' w) as [E|_].
  - intros [[= _ <- _]|Hin]; [now right | left; now right].
  - intros [E|Hin]; [left; now left|].
    destruct (IH Hin) as [Hd|Hv]; [left; now right | now right].
Qed.

Lemma lookup_in {V : Type} (k : value) (v : V) (d : Dict.t V) :
  Dict.lookup k d = Some v -> exists k', In (k', v) d.
Proof.
  induction d as [|[k' v'] d IH]; cbn [Dict.lookup]; [discriminate|].
  destruct (key_eqb k k').
  - intros [= <-]. exists k'. now left.
  - intro Hl. destruct (IH Hl) as (k'' & Hin). exists k''. now right.
Qed.

Section WithLibraries.
Context `{Libraries}.
Variable public : writer -> bool.

(** The only record [handle_web_request] can add is one for its own
    connection. *)
Lemma handle_web_request_pending (st : t) (w : writer) (i : web_input)
    (k : value) (h : pending) :
  In (k, h) (pending_requests (handle_web_request st w i)) ->
  In (k, h) (pending_requests st) \/ web_writer h = w.
Proof.
  unfold handle_web_request.
  destruct (read_request _ _ _ _) as [out r].
  destruct (fold_say_fields out st) as (_ & _ & Hp & _ & _).
  set (st0 := fold_left say out st) in *.
  assert (Hsame : forall st2 ok data,
             pending_requests st2 = pending_requests st ->
             In (k, h) (pending_requests (close (try_write st2 w ok data) w)) ->
             In (k, h) (pending_requests st) \/ web_writer h = w).
  { intros st2 ok data E. unfold close, try_write, write.
    destruct ok; cbn [pending_requests with_conn]; rewrite E; now left. }
  destruct r as [request_data|]; [|now apply Hsame].
  unfold forward_to_client.
  destruct (make_message st0 request_data) as [[json_size message]|];
    [|now apply Hsame].
  cbn [clients say].
  destruct (clients st0) as [|[k0 [client_writer ls0]] d0]; [now apply Hsame|].
  destruct (tunnel_ok i); [|now apply Hsame].
  destruct (getitem request_data (u "id")) as [id|]; [|now apply Hsame].
  destruct (hashable id); [|now apply Hsame].
  cbn [pending_requests say with_pending write with_conn]. rewrite Hp.
  intro Hin. destruct (in_set _ _ _ _ _ Hin) as [Hd| ->]; [now left | now right].
Qed.

(** One admissible step keeps the registry as [registry_open] says. *)
Lemma registry_open_step (st : t) (e : event) :
  registry_open public st -> admissible public st e ->
  registry_open public (step st e).
Proof.
  intros (Hwf & Hcl & Hpe) Hadm.
  split; [now apply step_wf|].
  assert (Hfinal : forall (st1 : t) (w : writer),
             Dict.wf (clients st1) ->
             filter (held_by_other w) (clients st1)
               = filter (held_by_other w) (clients st) ->
             pending_requests st1 = pending_requests st ->
             conns st1 = conns st ->
             (forall client_id client_writer last_seen,
                 In (client_id, (client_writer, last_seen))
                    (clients (finally_cleanup st1 w)) ->
                 public client_writer = false
                 /\ closed (conns (finally_cleanup st1 w) client_writer) = false)
             /\ (forall request_id handler_info,
                    In (request_id, handler_info)
                       (pending_requests (finally_cleanup st1 w)) ->
                    public (web_writer handler_info) = true)).
  { intros st1 w Hwf1 Hf Hp Hn.
    destruct (finally_cleanup_spec st1 w Hwf1) as (Hc' & Hp' & _ & _ & _ & Hx).
    split.
    - intros client_id cw ls Hin. rewrite Hc', Hf in Hin.
      apply filter_In in Hin. destruct Hin as [Hin Hheld].
      unfold held_by_other in Hheld. cbn [fst snd] in Hheld.
      destruct (Nat.eqb_spec cw w) as [|Hne]; [discriminate|].
      destruct (Hcl _ _ _ Hin) as (Hpub & Hopen).
      split; [exact Hpub|]. now rewrite (Hx cw Hne), Hn.
    - intros request_id handler_info Hin. rewrite Hp', Hp in Hin.
      now apply (Hpe request_id). }
  destruct e as [w i|w|w f|w|w|current_time]; cbn [step admissible] in *.
  - (* a public request *)
    destruct (handle_web_request_fields st w i) as (_ & Hc & _ & Hx).
    split.
    + intros client_id cw ls Hin. rewrite Hc in Hin.
      destruct (Hcl _ _ _ Hin) as (Hpub & Hopen). split; [exact Hpub|].
      rewrite Hx; [exact Hopen|]. intros ->. congruence.
    + intros request_id handler_info Hin.
      destruct (handle_web_request_pending st w i _ _ Hin) as [Hd| ->];
        [now apply (Hpe request_id) | exact Hadm].
  - (* a tunnel connection opens *)
    now split.
  - (* a frame *)
    destruct Hadm as (Hpub & Hopen).
    assert (Htouch : forall client_id cw ls,
               In (client_id, (cw, ls)) (touch w (now f) (clients st)) ->
               public cw = false /\ closed (conns st cw) = false).
    { intros client_id cw ls Hin.
      destruct (in_touch _ _ _ _ _ _ Hin) as [Hd| ->];
        [now apply (Hcl client_id cw ls) | now split]. }
    destruct (handle_frame_cases st w f)
      as [[-> | ->]|[[-> | ->]|[(rd & cid & _ & _ & ->)|[-> |
            (rd & rid & h & _ & _ & _ & _ & Hl & ->)]]]].
    + now split.
    + now split.
    + apply (Hfinal (say st LogClientError) w); try reflexivity.
      exact (proj1 Hwf).
    + apply (Hfinal (say (with_clients st (touch w (now f) (clients st)))
                         LogClientError) w); try reflexivity.
      * cbn [clients say with_clients]. apply wf_touch. exact (proj1 Hwf).
      * cbn [clients say with_clients]. apply touch_filter.
    + split; [|exact Hpe].
      intros client_id cw ls Hin. cbn [clients say with_clients conns] in *.
      destruct (in_set _ _ _ _ _ Hin) as [Hd|[= -> _]];
        [now apply (Hcl client_id cw ls) | now split].
    + split; [exact Htouch | exact Hpe].
    + set (st2 := with_pending _ _).
      destruct (deliver_fields st2 rid rd (web_writer h) (fail_at f))
        as (_ & Hc & Hp & _ & Hx).
      destruct (lookup_in _ _ _ Hl) as (k' & Hin').
      pose proof (Hpe _ _ Hin') as Hweb.
      split.
      * intros client_id cw ls Hin. rewrite clients_say, Hc in Hin.
        destruct (Htouch _ _ _ Hin) as (Hpc & Hoc). split; [exact Hpc|].
        rewrite conns_say, Hx; [exact Hoc|]. intros ->. congruence.
      * intros request_id handler_info Hin. rewrite pending_say, Hp in Hin.
        cbn [pending_requests st2 with_pending] in Hin.
        apply DictFacts.in_del in Hin. now apply (Hpe request_id).
  - (* the connection ends *)
    apply (Hfinal (say st (LogConnectionClosed w)) w); try reflexivity.
    exact (proj1 Hwf).
  - apply (Hfinal (say st LogClientError) w); try reflexivity.
    exact (proj1 Hwf).
  - (* the sweep *)
    unfold cleanup_inactive_clients.
    destruct (forget_clients_fields
                (map fst (filter (inactive current_time) (clients st))) st)
      as (_ & Hp & Hn & _).
    pose proof (RegistryFacts.forget_clients_filter (inactive current_time)
                  (clients st) [] st (proj1 Hwf) eq_refl) as Hc.
    cbn [app] in Hc. split.
    + intros client_id cw ls Hin. rewrite Hc in Hin.
      apply filter_In in Hin. destruct Hin as [Hin _].
      rewrite Hn. now apply (Hcl client_id cw ls).
    + intros request_id handler_info Hin. rewrite Hp in Hin.
      now apply (Hpe request_id).
Qed.

Lemma registry_open_run (trace : list event) (st : t) :
  registry_open public st -> admissible_trace public st trace ->
  registry_open public (run st trace).
Proof.
  revert st. induction trace as [|e trace IH]; intros st Hinv Hadm; [exact Hinv|].
  destruct Hadm as (He & Hrest). cbn [run fold_left].
  apply IH; [now apply registry_open_step | exact Hrest].
Qed.

(** X23.  The registry never holds a connection that the server has
    closed.  Whatever has happened since the server started, each
    handler on a connection of its own port, every record of the
    registry holds a tunnel connection on which [close] has not been
    called; so the connection that [forward_to_client] picks, that of
    the first record, is one, and no request frame is written to a
    connection the server has closed.  Every pending record holds a
    public connection. *)
Theorem registry_holds_open_connections (key : bytes) (trace : list event) :
  admissible_trace public (init key) trace ->
  let st := run (init key) trace in
  (forall client_id client_writer last_seen,
      In (client_id, (client_writer, last_seen)) (clients st) ->
      public client_writer = false
      /\ closed (conns st client_writer) = false)
  /\ (forall request_id handler_info,
        In (request_id, handler_info) (pending_requests st) ->
        public (web_writer handler_info) = true).
Proof.
  intros Hadm st.
  assert (Hinit : registry_open public (init key)).
  { split; [apply wf_init|]. split; [intros ? ? ? [] | intros ? ? []]. }
  exact (proj2 (registry_open_run trace (init key) Hinit Hadm)).
Qed.

End WithLibraries.

Import Examples.

(** Connections from 10 on are public.  The client [c1] registers on
    connection 1, a request arrives on connection 10, the client
    registers again on connection 2, and connection 1 ends. *)
Lemma registry_holds_open_connections_witness :
  let public := Nat.leb 10 in
  let st := run (H := fragment) (init key)
              (one_pending
                 ++ [TunnelOpen 2;
                     TunnelFrame 2 (frame_of register_digest register_text);
                     TunnelEOF 1]) in
  (forall client_id client_writer last_seen,
      In (client_id, (client_writer, last_seen)) (clients st) ->
      public client_writer = false
      /\ closed (conns st client_writer) = false)
  /\ (forall request_id handler_info,
        In (request_id, handler_info) (pending_requests st) ->
        public (web_writer handler_info) = true).
Proof.
  intro public.
  assert (Hadm : admissible_trace (H := fragment) public (init key)
                   (one_pending
                      ++ [TunnelOpen 2;
                          TunnelFrame 2 (frame_of register_digest register_text);
                          TunnelEOF 1]))
    by (vm_compute; repeat split).
  exact (registry_holds_open_connections (H := fragment) public key _ Hadm).
Defined.

End InvariantFacts.

(* ================================================================== *)
(** * Lemmas: the client's loop, one request after the other *)
(* ================================================================== *)

Module OrderFacts.
Import Py Json Framing ClientParts ClientLoop.
Local Open Scope N_scope.

Lemma length_drop_nat {A} (n : N) (s : list A) :
  List.length (drop n s) = (List.length s - N.to_nat n)%nat.
Proof. rewrite PyFacts.drop_skipn. apply length_skipn. Qed.

(** More calls than octets change nothing. *)
Lemma reads_enough (n : N) (fuel1 fuel2 : nat) (sizes : list N) (s : bytes) :
  (List.length s <= fuel1)%nat -> (List.length s <= fuel2)%nat ->
  Reader.reads fuel1 n sizes s = Reader.reads fuel2 n sizes s.
Proof.
  revert fuel2 sizes s.
  induction fuel1 as [|fuel1 IH]; intros fuel2 sizes s H1 H2.
  - destruct s; [|cbn in H1; lia]. now destruct fuel2.
  - destruct s as [|x s]; [now destruct fuel2|].
    destruct fuel2 as [|fuel2]; [cbn in H2; lia|].
    cbn [Reader.reads Reader.read]. f_equal.
    cbn [List.length] in H1, H2.
    apply IH; rewrite length_drop_nat; cbn [List.length]; lia.
Qed.

Lemma reads_concat (n : N) (fuel : nat) (sizes : list N) (s : bytes) :
  (List.length s <= fuel)%nat -> concat (Reader.reads fuel n sizes s) = s.
Proof.
  revert sizes s. induction fuel as [|fuel IH]; intros sizes s Hs.
  - destruct s; [reflexivity | cbn in Hs; lia].
  - destruct s as [|x s]; [reflexivity|].
    cbn [Reader.reads Reader.read concat].
    rewrite IH; [apply PyFacts.take_drop|].
    rewrite length_drop_nat. cbn [List.length] in *. lia.
Qed.

(** The reads that bring [chunks], and then what follows them. *)
Lemma reads_chunks (n : N) (chunks : list bytes) (more : list N) (c : bytes) :
  Forall (fun chunk => 1 <= Chunked.len chunk <= n) chunks ->
  Reader.reads (List.length (concat chunks ++ c)) n
    (map (@Chunked.len byte) chunks ++ more) (concat chunks ++ c)
  = chunks ++ Reader.reads (List.length c) n more c.
Proof.
  induction 1 as [|chunk chunks Hc _ IH]; [reflexivity|].
  cbn [concat map app]. rewrite <- app_assoc.
  destruct chunk as [|x chunk]; [cbn in Hc; lia|].
  set (rest := concat chunks ++ c) in *.
  change (List.length ((x :: chunk) ++ rest))
    with (S (List.length (chunk ++ rest))).
  change ((x :: chunk) ++ rest) with (x :: (chunk ++ rest)) at 1.
  cbn [Reader.reads hd tl]. unfold Reader.read.
  replace (N.max 1 (N.min n (Chunked.len (x :: chunk))))
    with (Chunked.len (x :: chunk)) by lia.
  change (x :: chunk ++ rest) with ((x :: chunk) ++ rest).
  rewrite FramingFacts.take_app_exact, FramingFacts.drop_app_exact.
  cbn [app]. f_equal. rewrite <- IH.
  apply reads_enough; [rewrite length_app|]; lia.
Qed.

Section WithLibraries.
Context `{Libraries}.

(** The reading loop stops at the read that completes the payload. *)
Lemma read_json_parses (chunks later : list bytes) (buffer : bytes)
    (text : str) (v : value) :
  chunks <> [] ->
  Forall (fun chunk => chunk <> []) chunks ->
  (forall m, (0 < m < List.length chunks)%nat ->
     exists t, decode Strict (buffer ++ concat (firstn m chunks)) = Some t
               /\ json_loads t = JSONDecodeError) ->
  decode Strict (buffer ++ concat chunks) = Some text ->
  json_loads text = Loaded v ->
  read_json (chunks ++ later) buffer = (buffer ++ concat chunks, Parsed, later).
Proof.
  revert buffer. induction chunks as [|chunk chunks IH]; intros buffer Hne Hall Hm Hd Hl;
    [congruence|].
  inversion Hall as [|? ? Hc Hrest]; subst.
  destruct chunk as [|x chunk]; [congruence|].
  destruct chunks as [|chunk2 chunks].
  - cbn [concat app] in *. rewrite app_nil_r in *.
    cbn [read_json]. now rewrite Hd, Hl.
  - destruct (Hm 1%nat) as (t & Ht & Hlt); [cbn; lia|].
    cbn [firstn concat] in Ht. rewrite app_nil_r in Ht.
    change (((x :: chunk) :: chunk2 :: chunks) ++ later)
      with ((x :: chunk) :: ((chunk2 :: chunks) ++ later)).
    cbn [read_json]. rewrite Ht, Hlt.
    rewrite (IH (buffer ++ x :: chunk)); try assumption.
    + cbn [concat]. now rewrite <- !app_assoc.
    + discriminate.
    + intros m Hlt'. destruct (Hm (S m)) as (t' & Ht' & Hl'); [cbn in *; lia|].
      exists t'. split; [|assumption].
      cbn [firstn concat] in Ht'. now rewrite <- app_assoc.
    + cbn [concat] in Hd. now rewrite <- app_assoc.
Qed.

Lemma read_json_unread (reads : list bytes) (buffer : bytes) :
  exists taken, reads = taken ++ snd (read_json reads buffer).
Proof.
  revert buffer. induction reads as [|chunk reads IH]; intro buffer.
  - now exists [].
  - destruct chunk as [|x chunk]; [now exists [[]]|].
    cbn [read_json].
    destruct (decode Strict (buffer ++ x :: chunk)) as [text|];
      [|now exists [x :: chunk]].
    destruct (json_loads text); try (now exists [x :: chunk]).
    destruct (IH (buffer ++ x :: chunk)) as (taken & Ht).
    exists ((x :: chunk) :: taken). cbn [app]. now rewrite <- Ht.
Qed.

Lemma read_head_shorter (stream signature_data rest : bytes) :
  read_head stream = Some (signature_data, rest) ->
  (List.length rest + 4 <= List.length stream)%nat.
Proof.
  unfold read_head, Server.readexactly, Server.len, Chunked.len.
  destruct (N.leb_spec 4 (N.of_nat (List.length stream))) as [H4|]; [|discriminate].
  cbv zeta.
  destruct (_ <=? _); [|discriminate].
  intros [= _ <-]. rewrite !length_drop_nat. lia.
Qed.

(** More turns than octets change nothing. *)
Lemma read_frames_enough (fuel1 fuel2 : nat) (stream : bytes) (turns : list turn) :
  (List.length stream <= fuel1)%nat -> (List.length stream <= fuel2)%nat ->
  read_frames fuel1 stream turns = read_frames fuel2 stream turns.
Proof.
  revert fuel2 stream turns.
  induction fuel1 as [|fuel1 IH]; intros fuel2 stream turns H1 H2.
  - destruct stream; [|cbn in H1; lia]. now destruct fuel2.
  - destruct fuel2 as [|fuel2].
    + destruct stream; [reflexivity | cbn in H2; lia].
    + cbn [read_frames].
      destruct (read_head stream) as [[signature_data rest]|] eqn:Hh;
        [|reflexivity].
      pose proof (read_head_shorter _ _ _ Hh) as Hshort.
      set (reads := Reader.reads (List.length rest) 8192 (sizes (hd idle turns)) rest).
      destruct (read_json_unread reads []) as (taken & Ht).
      assert (Hlen : (List.length (concat (snd (read_json reads [])))
                      <= List.length rest)%nat).
      { assert (Hc : concat reads = rest) by (apply reads_concat; lia).
        apply (f_equal (@concat byte)) in Ht. rewrite concat_app, Hc in Ht.
        apply (f_equal (@List.length byte)) in Ht. rewrite length_app in Ht.
        lia. }
      destruct (read_json reads []) as [[json_data e] unread].
      cbn [snd] in Hlen. f_equal. apply IH; lia.
Qed.

(** One turn on a frame whose payload arrives on its own. *)
Lemma read_frames_frame (self : Client.t) (octets rest : bytes)
    (chunks : list bytes) (request_data : value) (t : turn)
    (turns : list turn) (fuel : nat) :
  request_frame self octets chunks request_data ->
  sizes t = map (@Chunked.len byte) chunks ->
  (List.length (octets ++ rest) <= fuel)%nat ->
  exists signature_data signature text,
    decode Strict signature_data = Some signature
    /\ Client.verify_signature self (concat chunks) signature = Some true
    /\ decode Strict (concat chunks) = Some text
    /\ json_loads text = Loaded request_data
    /\ read_frames fuel (octets ++ rest) (t :: turns)
       = {| Client.signature_data := signature_data;
            Client.json_data := concat chunks;
            Client.error_text := error_text t;
            Client.fail_at := fail_at t |}
           :: read_frames (List.length rest) rest turns.
Proof.
  intros (prefix & signature_data & signature & text & -> & Hpre & Hsig & Hver
          & Htext & Hload & Hne & Hall & Hshort) Hsizes Hfuel.
  exists signature_data, signature, text.
  split; [exact Hsig|]. split; [exact Hver|]. split; [exact Htext|].
  split; [exact Hload|].
  destruct (FramingFacts.from_to_bytes4 _ _ Hpre) as (Hfrom & H4).
  assert (Hhead : read_head ((prefix ++ signature_data ++ concat chunks) ++ rest)
                  = Some (signature_data, concat chunks ++ rest)).
  { rewrite <- !app_assoc. now apply FramingFacts.read_head_framed. }
  pose proof (read_head_shorter _ _ _ Hhead) as Hlen.
  destruct fuel as [|fuel]; [lia|].
  cbn [read_frames hd tl]. rewrite Hhead, Hsizes.
  rewrite <- (app_nil_r (map (@Chunked.len byte) chunks)).
  rewrite (reads_chunks 8192 chunks [] rest Hall).
  rewrite (read_json_parses chunks _ [] text request_data Hne); try assumption.
  - cbn [app]. f_equal.
    rewrite reads_concat by lia.
    apply read_frames_enough; [|lia].
    rewrite length_app in Hlen. lia.
  - eapply Forall_impl; [|exact Hall]. intros chunk Hc ->. cbn in Hc. lia.
Qed.

Variable local_api : Client.http_request -> Client.local_result.

(** [handle_request] on a request of the kind [answered] describes. *)
Lemma handle_request_answered (self : Client.t) (request_data : value)
    (call : Client.http_request) (message : bytes)
    (signature_data json_data : bytes) (text : str) (failing : option N) :
  answered local_api self request_data call message ->
  failing = None ->
  Client.handle_request local_api self request_data
    {| Client.signature_data := signature_data;
       Client.json_data := json_data;
       Client.error_text := text;
       Client.fail_at := failing |}
  = [Client.CallLocal call; Client.Send message].
Proof.
  intros (id & raw_request & header_end_index & method & path & headers & data
          & Hid & Hdata & Hparse & Hbody & -> & Hmsg) ->.
  unfold Client.handle_request, Client.forward_request_to_local_api.
  rewrite Hid. cbn [Client.error_text Client.fail_at].
  rewrite (ForwardFacts.try_forward_parsed local_api self request_data raw_request
             _ _ _ _ text Hdata Hparse), Hbody.
  set (call := local_request self method path headers data) in *.
  destruct (local_api call) as [r|e];
    now rewrite (ClientFacts.send_response_whole self _ message Hmsg).
Qed.

(** C2, as amended.  The client takes the request frames one at a
    time.  Two request frames arrive one behind the other on the
    tunnel connection, each validly signed, its payload ending where a
    read ends with no shorter buffer parsing, its request with an [id]
    and [data] that parse as an HTTP request, and the tunnel takes the
    response frames.  Then the client calls the local service for the
    first request and writes the response frame of the first before it
    calls the local service for the second; the response frames leave
    in the order of the request frames; what follows on the
    connection is taken up after that. *)
Theorem requests_handled_in_turn (self : Client.t)
    (octets1 octets2 more : bytes) (chunks1 chunks2 : list bytes)
    (request1 request2 : value) (call1 call2 : Client.http_request)
    (message1 message2 : bytes) (turn1 turn2 : turn) (turns : list turn) :
  request_frame self octets1 chunks1 request1 ->
  request_frame self octets2 chunks2 request2 ->
  sizes turn1 = map (@Chunked.len byte) chunks1 ->
  sizes turn2 = map (@Chunked.len byte) chunks2 ->
  answered local_api self request1 call1 message1 ->
  answered local_api self request2 call2 message2 ->
  fail_at turn1 = None ->
  fail_at turn2 = None ->
  receive_messages local_api self (octets1 ++ octets2 ++ more)
    (turn1 :: turn2 :: turns)
  = [Client.CallLocal call1; Client.Send message1;
     Client.CallLocal call2; Client.Send message2]
      ++ receive_messages local_api self more turns.
Proof.
  intros Hf1 Hf2 Hs1 Hs2 Ha1 Ha2 Hw1 Hw2. unfold receive_messages.
  destruct (read_frames_frame self octets1 (octets2 ++ more) chunks1 request1
              turn1 (turn2 :: turns) _ Hf1 Hs1 (Nat.le_refl _))
    as (sd1 & sg1 & text1 & Hsig1 & Hver1 & Htext1 & Hload1 & ->).
  destruct (read_frames_frame self octets2 more chunks2 request2
              turn2 turns _ Hf2 Hs2 (Nat.le_refl _))
    as (sd2 & sg2 & text2 & Hsig2 & Hver2 & Htext2 & Hload2 & ->).
  cbn [Client.receive_messages Client.signature_data Client.json_data].
  rewrite Hsig1, Hver1, Htext1, Hload1, Hsig2, Hver2, Htext2, Hload2.
  rewrite (handle_request_answered self request1 call1 message1 _ _ _ _ Ha1 Hw1).
  rewrite (handle_request_answered self request2 call2 message2 _ _ _ _ Ha2 Hw2).
  reflexivity.
Qed.

End WithLibraries.

Import Examples.

(** C2 refuted: the frames of [GET /health] and [GET /status] arrive
    one behind the other, the payload of each in a read of its own.
    The response frame for the first is written before the local
    service is called for the second. *)
Lemma second_request_waits :
  receive_messages (H := fragment) healthy tunnel_client
    (framed request1_digest request1_text ++ framed request2_digest request2_text)
    [{| sizes := [Chunked.len (wire request1_text)];
        error_text := []; fail_at := None |};
     {| sizes := [Chunked.len (wire request2_text)];
        error_text := []; fail_at := None |}]
  = [Client.CallLocal (call "/health");
     Client.Send (framed response1_digest response1_text);
     Client.CallLocal (call "/status");
     Client.Send (framed response2_digest response2_text)].
Proof. vm_compute. reflexivity. Qed.

(** The same two frames, the first octets of the second arriving in
    the read that brings the end of the first payload: the client
    takes all of it for the payload of the first frame, which does not
    parse and is not what was signed.  Neither request is answered. *)
Lemma frames_in_one_read_unanswered :
  read_json (H := fragment)
    (Reader.reads 1000 8192 []
       (wire request1_text ++ framed request2_digest request2_text)) []
  = (wire request1_text ++ framed request2_digest request2_text, EndOfInput, [])
  /\ receive_messages (H := fragment) healthy tunnel_client
       (framed request1_digest request1_text
          ++ framed request2_digest request2_text) []
     = [].
Proof. vm_compute. split; reflexivity. Qed.

(** C2 as amended, at work: the payload of the first frame arrives in
    two reads, that of the second in one. *)
Lemma requests_handled_in_turn_witness :
  let chunks1 := [take 100 (wire request1_text); drop 100 (wire request1_text)] in
  let chunks2 := [wire request2_text] in
  receive_messages (H := fragment) healthy tunnel_client
    (framed request1_digest request1_text ++ framed request2_digest request2_text)
    [{| sizes := map (@Chunked.len byte) chunks1;
        error_text := []; fail_at := None |};
     {| sizes := map (@Chunked.len byte) chunks2;
        error_text := []; fail_at := None |}]
  = [Client.CallLocal (call "/health");
     Client.Send (framed response1_digest response1_text);
     Client.CallLocal (call "/status");
     Client.Send (framed response2_digest response2_text)].
Proof.
  intros chunks1 chunks2.
  assert (Hf1 : request_frame (H := fragment) tunnel_client
                  (framed request1_digest request1_text) chunks1 request1).
  { exists [x00; x00; x00; x40], (wire request1_digest), request1_digest,
      request1_text.
    split; [vm_compute; reflexivity|]. split; [vm_compute; reflexivity|].
    split; [vm_compute; reflexivity|]. split; [vm_compute; reflexivity|].
    split; [vm_compute; reflexivity|]. split; [vm_compute; reflexivity|].
    split; [discriminate|]. split.
    - repeat constructor; vm_compute; discriminate.
    - intros m Hm. assert (Hone : m = 1%nat) by (cbn in Hm; lia). subst m.
      eexists. split; vm_compute; reflexivity. }
  assert (Hf2 : request_frame (H := fragment) tunnel_client
                  (framed request2_digest request2_text) chunks2 request2).
  { exists [x00; x00; x00; x40], (wire request2_digest), request2_digest,
      request2_text.
    split; [vm_compute; reflexivity|]. split; [vm_compute; reflexivity|].
    split; [vm_compute; reflexivity|]. split; [vm_compute; reflexivity|].
    split; [vm_compute; reflexivity|]. split; [vm_compute; reflexivity|].
    split; [discriminate|]. split.
    - repeat constructor; vm_compute; discriminate.
    - intros m Hm. cbn in Hm. lia. }
  assert (Ha1 : answered (H := fragment) healthy tunnel_client request1
                  (call "/health") (framed response1_digest response1_text)).
  { exists (JStr id1), get_health, 35, (u "GET"), (u "/health"),
      [(JStr (u "Host"), u "example")], None.
    repeat split; vm_compute; reflexivity. }
  assert (Ha2 : answered (H := fragment) healthy tunnel_client request2
                  (call "/status") (framed response2_digest response2_text)).
  { exists (JStr id2), get_status, 35, (u "GET"), (u "/status"),
      [(JStr (u "Host"), u "example")], None.
    repeat split; vm_compute; reflexivity. }
  exact (requests_handled_in_turn (H := fragment) healthy tunnel_client
           _ _ [] chunks1 chunks2 request1 request2 _ _ _ _
           {| sizes := map (@Chunked.len byte) chunks1;
              error_text := []; fail_at := None |}
           {| sizes := map (@Chunked.len byte) chunks2;
              error_text := []; fail_at := None |} []
           Hf1 Hf2 eq_refl eq_refl Ha1 Ha2 eq_refl eq_refl).
Defined.

End OrderFacts.
